(** * Equity scenario dashboard

    A shallow embedding of the dilution and exit arithmetic of the
    dashboard tabs ([AnalysisTab], [ExitTab], [FundingTab],
    [MetricsCards]), of the forms ([SetupTab], [FundingTab],
    [ScenarioSelector]), of the dashboard page and of the store gateway
    ([SupabaseFunctions]).

    JavaScript numbers are modelled as rationals extended with the three
    IEEE-754 special values, so that a division by zero yields [PInf],
    [NInf] or [NaN] as it does at run time.  [parseFloat] rounds what it
    reads to binary64.  The arithmetic operations are exact: their
    results are not rounded to binary64, do not overflow to an infinity
    and do not underflow to zero, and zero is taken positive.  A
    statement that holds in exact arithmetic only says so. *)

From Stdlib Require Import QArith Qcanon Qround Qabs ZArith List String Ascii Lia Bool Lqa.
From Stdlib Require Import DecimalString Permutation.
Import ListNotations.
Local Open Scope string_scope.

(** ** JavaScript numbers *)

Module JS.

Inductive number : Type :=
| Fin (q : Qc)
| NaN
| PInf
| NInf.

Definition num (z : Z) : number := Fin (Q2Qc (inject_Z z)).

Definition sgn (q : Qc) : comparison := (q ?= Q2Qc 0)%Qc.

Definition isZero (q : Qc) : bool :=
  match sgn q with Eq => true | _ => false end.

Definition add (x y : number) : number :=
  match x, y with
  | NaN, _ | _, NaN => NaN
  | Fin a, Fin b => Fin (a + b)%Qc
  | PInf, NInf | NInf, PInf => NaN
  | PInf, _ | _, PInf => PInf
  | NInf, _ | _, NInf => NInf
  end.

Definition neg (x : number) : number :=
  match x with
  | Fin a => Fin (- a)%Qc
  | NaN => NaN
  | PInf => NInf
  | NInf => PInf
  end.

(** An infinity scaled by a finite factor of sign [s]. *)
Definition scaleInf (pos : bool) (s : comparison) : number :=
  match s with
  | Eq => NaN
  | Gt => if pos then PInf else NInf
  | Lt => if pos then NInf else PInf
  end.

Definition mul (x y : number) : number :=
  match x, y with
  | NaN, _ | _, NaN => NaN
  | Fin a, Fin b => Fin (a * b)%Qc
  | PInf, Fin b => scaleInf true (sgn b)
  | NInf, Fin b => scaleInf false (sgn b)
  | Fin a, PInf => scaleInf true (sgn a)
  | Fin a, NInf => scaleInf false (sgn a)
  | PInf, PInf | NInf, NInf => PInf
  | PInf, NInf | NInf, PInf => NInf
  end.

Definition div (x y : number) : number :=
  match x, y with
  | NaN, _ | _, NaN => NaN
  | Fin a, Fin b =>
      if isZero b then scaleInf true (sgn a) else Fin (a / b)%Qc
  | Fin _, PInf | Fin _, NInf => Fin (Q2Qc 0)
  | PInf, Fin b => match sgn b with Lt => NInf | _ => PInf end
  | NInf, Fin b => match sgn b with Lt => PInf | _ => NInf end
  | _, _ => NaN
  end.

(** Ordering; [None] when an operand is [NaN]. *)
Definition cmp (x y : number) : option comparison :=
  match x, y with
  | NaN, _ | _, NaN => None
  | Fin a, Fin b => Some (a ?= b)%Qc
  | PInf, PInf | NInf, NInf => Some Eq
  | PInf, _ | _, NInf => Some Gt
  | NInf, _ | _, PInf => Some Lt
  end.

Definition gt (x y : number) : bool :=
  match cmp x y with Some Gt => true | _ => false end.
Definition ge (x y : number) : bool :=
  match cmp x y with Some Gt | Some Eq => true | _ => false end.
Definition lt (x y : number) : bool :=
  match cmp x y with Some Lt => true | _ => false end.
Definition le (x y : number) : bool :=
  match cmp x y with Some Lt | Some Eq => true | _ => false end.

Definition isNaN (x : number) : bool :=
  match x with NaN => true | _ => false end.

Definition isFinite (x : number) : bool :=
  match x with Fin _ => true | _ => false end.

(** ToBoolean on a number: [0] and [NaN] are falsy. *)
Definition truthy (x : number) : bool :=
  match x with
  | Fin q => negb (isZero q)
  | NaN => false
  | PInf | NInf => true
  end.

(** [x || d] on numbers. *)
Definition or_else (x d : number) : number := if truthy x then x else d.

(** [Math.max(...xs)]: [-Infinity] on the empty list, [NaN] as soon as an
    argument is [NaN]. *)
Definition max2 (x y : number) : number :=
  match cmp x y with
  | None => NaN
  | Some Lt => y
  | Some _ => x
  end.

Definition Math_max (xs : list number) : number := fold_left max2 xs NInf.

(** *** Rounding to binary64

    [toBinary64 x] is the Number value for the real [x]: the binary64
    nearest to [x], the one with the even significand when two are as
    near, zero below half of the least subnormal and an infinity from
    [2^1024 - 2^970] on. *)

Definition roundHalfEven (q : Q) : Z :=
  let f := Qfloor q in
  match (q - inject_Z f ?= 1 # 2)%Q with
  | Lt => f
  | Gt => (f + 1)%Z
  | Eq => if Z.even f then f else (f + 1)%Z
  end.

(** The exponent [e] with [2^e <= q < 2^(e+1)], for [q > 0]. *)
Definition exponentOf (q : Q) : Z :=
  let e := (Z.log2 (Qnum q) - Z.log2 (Zpos (Qden q)))%Z in
  if Qle_bool (Qpower (2 # 1) e) q then e else (e - 1)%Z.

Definition toBinary64 (x : Qc) : number :=
  match sgn x with
  | Eq => Fin x
  | s =>
      let a := Qabs x in
      let e := Z.max (exponentOf a) (-1022) in
      let ulp := Qpower (2 # 1) (e - 52) in
      let v := (inject_Z (roundHalfEven (a / ulp)) * ulp)%Q in
      if Qle_bool (Qpower (2 # 1) 1024) v
      then match s with Lt => NInf | _ => PInf end
      else Fin (Q2Qc (match s with Lt => - v | _ => v end))
  end.

(** *** [parseFloat]

    Strings are sequences of code units below 256.  Leading white space
    is skipped and the longest prefix that is a [StrDecimalLiteral] is
    read; [NaN] when there is none.  The value is the decimal rounded to
    binary64. *)

(** White space and line terminators among the code units below 256:
    TAB, LF, VT, FF, CR, SP and NBSP. *)
Definition isWhiteSpace (c : ascii) : bool :=
  match nat_of_ascii c with
  | 9 | 10 | 11 | 12 | 13 | 32 | 160 => true
  | _ => false
  end%nat.

Definition isDigit (c : ascii) : bool :=
  let n := nat_of_ascii c in ((48 <=? n) && (n <=? 57))%nat.

Definition digitVal (c : ascii) : Z := Z.of_nat (nat_of_ascii c - 48).

Fixpoint skipWhiteSpace (s : string) : string :=
  match s with
  | String c s' => if isWhiteSpace c then skipWhiteSpace s' else s
  | EmptyString => s
  end.

(** Reads a maximal run of decimal digits: its value, its length and the
    rest of the input. *)
Fixpoint readDigits (s : string) (acc : Z) (n : nat) : Z * nat * string :=
  match s with
  | String c s' =>
      if isDigit c then readDigits s' (10 * acc + digitVal c)%Z (S n)
      else (acc, n, s)
  | EmptyString => (acc, n, s)
  end.

Definition pow10 (e : Z) : Qc :=
  if (0 <=? e)%Z then Q2Qc (inject_Z (10 ^ e))
  else (Q2Qc 1 / Q2Qc (inject_Z (10 ^ (- e))))%Qc.

(** The optional [ExponentPart]: an indicator that is not followed by a
    signed integer is not part of the literal. *)
Definition readExponent (s : string) : Z :=
  match s with
  | String c s' =>
      if (Ascii.eqb c "e" || Ascii.eqb c "E")%bool then
        match s' with
        | String "+" s'' =>
            let '(v, n, _) := readDigits s'' 0%Z 0%nat in
            match n with O => 0%Z | _ => v end
        | String "-" s'' =>
            let '(v, n, _) := readDigits s'' 0%Z 0%nat in
            match n with O => 0%Z | _ => (- v)%Z end
        | _ =>
            let '(v, n, _) := readDigits s' 0%Z 0%nat in
            match n with O => 0%Z | _ => v end
        end
      else 0%Z
  | EmptyString => 0%Z
  end.

Definition readUnsigned (s : string) : number :=
  if String.prefix "Infinity" s then PInf
  else
    let '(iv, ic, r) := readDigits s 0%Z 0%nat in
    match r with
    | String "." r' =>
        let '(fv, fc, r'') := readDigits r' 0%Z 0%nat in
        match ic, fc with
        | O, O => NaN
        | _, _ =>
            toBinary64
              (Q2Qc (inject_Z (iv * 10 ^ Z.of_nat fc + fv))
               * pow10 (- Z.of_nat fc) * pow10 (readExponent r''))%Qc
        end
    | _ =>
        match ic with
        | O => NaN
        | _ => toBinary64 (Q2Qc (inject_Z iv) * pow10 (readExponent r))%Qc
        end
    end.

Definition parseFloat (s : string) : number :=
  match skipWhiteSpace s with
  | String "+" r => readUnsigned r
  | String "-" r => neg (readUnsigned r)
  | r => readUnsigned r
  end.

(** *** [Number.prototype.toFixed]

    Two services of the host are not determined by the exact value of a
    number and are taken as parameters: [Number::toString] on finite
    magnitudes of at least [10^21] (the fallback of [toFixed]) and the
    locale-dependent [toLocaleString]. *)

Record Host : Type := mkHost
  { NumberToString : Qc -> string;
    toLocaleString : number -> string }.

Definition digits (n : Z) : string :=
  NilZero.string_of_uint (N.to_uint (Z.to_N n)).

Fixpoint zeros (n : nat) : string :=
  match n with
  | O => EmptyString
  | S n' => String "0" (zeros n')
  end.

Fixpoint takeS (n : nat) (s : string) : string :=
  match n, s with
  | S n', String c s' => String c (takeS n' s')
  | _, _ => EmptyString
  end.

Fixpoint dropS (n : nat) (s : string) : string :=
  match n, s with
  | S n', String _ s' => dropS n' s'
  | _, _ => s
  end.

(** The integer [n] for which [n / 10^f - x] is closest to zero, the
    larger one when there are two ([x] is not negative). *)
Definition roundHalfUp (x : Qc) (f : nat) : Z :=
  Qfloor (x * inject_Z (10 ^ Z.of_nat f) + (1 # 2)).

(** Fixed notation of [0 <= x < 10^21] with [f] fraction digits. *)
Definition fixedNotation (x : Qc) (f : nat) : string :=
  let m := digits (roundHalfUp x f) in
  match f with
  | O => m
  | _ =>
      let k := String.length m in
      let m := if (k <=? f)%nat then (zeros (f + 1 - k) ++ m)%string else m in
      let k := String.length m in
      (takeS (k - f) m ++ "." ++ dropS (k - f) m)%string
  end.

Definition toFixed (h : Host) (x : number) (fractionDigits : nat) : string :=
  match x with
  | NaN => "NaN"
  | PInf => "Infinity"
  | NInf => "-Infinity"
  | Fin v =>
      let s := match sgn v with Lt => "-" | _ => "" end%string in
      let v := match sgn v with Lt => (- v)%Qc | _ => v end in
      match (v ?= Q2Qc (inject_Z (10 ^ 21)))%Qc with
      | Lt => (s ++ fixedNotation v fractionDigits)%string
      | _ => (s ++ NumberToString h v)%string
      end
  end.

(** [String.prototype.trim] on the white space of [isWhiteSpace]. *)
Fixpoint trimEnd (s : string) : string :=
  match s with
  | EmptyString => EmptyString
  | String c s' =>
      match trimEnd s' with
      | EmptyString => if isWhiteSpace c then EmptyString else String c EmptyString
      | t => String c t
      end
  end.

Definition trim (s : string) : string := trimEnd (skipWhiteSpace s).

(** [x === y] on numbers: [NaN] equals nothing. *)
Definition strictEq (x y : number) : bool :=
  match cmp x y with Some Eq => true | _ => false end.

End JS.

Declare Scope js_scope.
Delimit Scope js_scope with js.
Bind Scope js_scope with JS.number.
Infix "+" := JS.add : js_scope.
Infix "*" := JS.mul : js_scope.
Infix "/" := JS.div : js_scope.
Infix ">" := JS.gt : js_scope.
Infix ">=" := JS.ge : js_scope.
Infix "<=" := JS.le : js_scope.
Infix "||" := JS.or_else : js_scope.

(** ** Data model ([types/database.ts]) *)

Module Scenario.
Record t : Type := mk
  { id : string; user_id : string; name : string;
    created_at : string; updated_at : string }.
End Scenario.

Module Founder.
Record t : Type := mk
  { id : string; scenario_id : string; name : string; equity : JS.number }.
End Founder.

Module Round.
Record t : Type := mk
  { id : string; scenario_id : string; round_name : string;
    investment : JS.number; valuation : JS.number }.
End Round.

Module ESOP.
Record t : Type := mk
  { id : string; scenario_id : string; percentage : JS.number }.
End ESOP.

Module ScenarioData.
Record t : Type := mk
  { scenario : Scenario.t;
    founders : list Founder.t;
    rounds : list Round.t;
    esop : list ESOP.t }.
End ScenarioData.

(** [xs.reduce((sum, x) => sum + f(x), 0)] *)
Definition sumOf {A : Type} (f : A -> JS.number) (xs : list A) : JS.number :=
  fold_left (fun sum x => (sum + f x)%js) xs (JS.num 0).

(** The equity given at a round: [(investment / valuation) * 100]. *)
Definition roundEquity (r : Round.t) : JS.number :=
  (Round.investment r / Round.valuation r * JS.num 100)%js.

(** [esop[0]?.percentage || 0] *)
Definition firstEsopOrZero (es : list ESOP.t) : JS.number :=
  match es with
  | [] => JS.num 0
  | e :: _ => (ESOP.percentage e || JS.num 0)%js
  end.

(** [totalEquity > 0 ? (x / totalEquity) * 100 : x] *)
Definition dilute (totalEquity x : JS.number) : JS.number :=
  if (totalEquity > JS.num 0)%js then (x / totalEquity * JS.num 100)%js else x.

(** ** The analysis tab ([AnalysisTab.tsx]) *)

Module AnalysisTab.

Definition formatCurrency (h : JS.Host) (amount : JS.number) : string :=
  if (amount >= JS.num 1000000)%js then
    "$" ++ JS.toFixed h (amount / JS.num 1000000)%js 2 ++ "M"
  else if (amount >= JS.num 1000)%js then
    "$" ++ JS.toFixed h (amount / JS.num 1000)%js 2 ++ "K"
  else "$" ++ JS.toLocaleString h amount.

Definition formatPercentage (h : JS.Host) (percentage : JS.number) : string :=
  JS.toFixed h percentage 2 ++ "%".

Section Render.
Variable scenarioData : option ScenarioData.t.

(** [scenarioData?.xs.reduce(...) || 0] *)
Definition reduceOrZero {A : Type} (proj : ScenarioData.t -> list A)
    (f : A -> JS.number) : JS.number :=
  match scenarioData with
  | None => JS.num 0
  | Some sd => (sumOf f (proj sd) || JS.num 0)%js
  end.

Definition totalInvestment : JS.number :=
  reduceOrZero ScenarioData.rounds Round.investment.

Definition latestValuation : JS.number :=
  match scenarioData with
  | Some sd =>
      match ScenarioData.rounds sd with
      | [] => JS.num 0
      | rs => JS.Math_max (map Round.valuation rs)
      end
  | None => JS.num 0
  end.

Definition founderEquity : JS.number :=
  reduceOrZero ScenarioData.founders Founder.equity.

Definition esopEquity : JS.number :=
  match scenarioData with
  | None => JS.num 0
  | Some sd => firstEsopOrZero (ScenarioData.esop sd)
  end.

Definition investorEquity : JS.number :=
  reduceOrZero ScenarioData.rounds roundEquity.

Definition totalEquity : JS.number :=
  (founderEquity + esopEquity + investorEquity)%js.

Definition dilutedFounderEquity : JS.number := dilute totalEquity founderEquity.
Definition dilutedEsopEquity : JS.number := dilute totalEquity esopEquity.
Definition dilutedInvestorEquity : JS.number := dilute totalEquity investorEquity.

(** One row of the founder breakdown table. *)
Record FounderRow : Type := mkRow
  { name : string; initialEquity : JS.number;
    currentEquity : JS.number; value : JS.number }.

Definition founderRow (founder : Founder.t) : FounderRow :=
  let currentEquity := dilute totalEquity (Founder.equity founder) in
  {| name := Founder.name founder;
     initialEquity := Founder.equity founder;
     currentEquity := currentEquity;
     value := (currentEquity / JS.num 100 * latestValuation)%js |}.

Definition founderRows : list FounderRow :=
  match scenarioData with
  | None => []
  | Some sd => map founderRow (ScenarioData.founders sd)
  end.

(** One row of the funding rounds table; the price per share assumes one
    million shares. *)
Record RoundRow : Type := mkRoundRow
  { round_name : string; investment : JS.number; valuation : JS.number;
    equityGiven : JS.number; pricePerShare : JS.number }.

Definition roundRow (round : Round.t) : RoundRow :=
  {| round_name := Round.round_name round;
     investment := Round.investment round;
     valuation := Round.valuation round;
     equityGiven :=
       (Round.investment round / Round.valuation round * JS.num 100)%js;
     pricePerShare := (Round.valuation round / JS.num 1000000)%js |}.

Definition roundRows : list RoundRow :=
  match scenarioData with
  | Some sd => map roundRow (ScenarioData.rounds sd)
  | None => []
  end.

End Render.

End AnalysisTab.

(** ** Number fields

    The numeric fields of the forms are [<Input type="number">] elements
    whose change handlers store [e.target.value].  The [Input] component
    is not among the sources; it is taken to hand its [type] and its
    handler to the element of the browser.  Such an element hands over
    the text that was typed only when it is a valid floating-point number
    whose value is finite, and the empty string otherwise. *)

Module HTML.



End HTML.

(** ** The exit tab ([ExitTab.tsx]) *)

Module ExitTab.

Record FounderBreakdown : Type := mkBreakdown
  { name : string; originalEquity : JS.number;
    currentEquity : JS.number; proceeds : JS.number }.

Record ExitResults : Type := mkResults
  { exitValuation : JS.number;
    exitType : string;
    founderProceeds : JS.number;
    esopProceeds : JS.number;
    investorProceeds : JS.number;
    investorReturn : JS.number;
    founderBreakdown : list FounderBreakdown;
    totalInvestment : JS.number }.

(** The component state: the two form fields and the stored result. *)
Record State : Type := mkState
  { st_exitValuation : string;
    st_exitType : string;
    st_exitResults : option ExitResults }.

Definition setExitResults (r : ExitResults) (st : State) : State :=
  {| st_exitValuation := st_exitValuation st;
     st_exitType := st_exitType st;
     st_exitResults := Some r |}.


Definition totalEquityOf (sd : ScenarioData.t) : JS.number :=
  (sumOf Founder.equity (ScenarioData.founders sd)
   + firstEsopOrZero (ScenarioData.esop sd)
   + sumOf roundEquity (ScenarioData.rounds sd))%js.

(** One entry of [founderBreakdown]. *)
Definition founderEntry (totalEquity valuation : JS.number)
    (founder : Founder.t) : FounderBreakdown :=
  let currentEquity := dilute totalEquity (Founder.equity founder) in
  {| name := Founder.name founder;
     originalEquity := Founder.equity founder;
     currentEquity := currentEquity;
     proceeds := (currentEquity / JS.num 100 * valuation)%js |}.

(** The body of [calculateExit] below its two guards. *)
Definition exitResultsFor (sd : ScenarioData.t) (valuation : JS.number)
    (exitType : string) : ExitResults :=
  let totalInvestment := sumOf Round.investment (ScenarioData.rounds sd) in
  let founderEquity := sumOf Founder.equity (ScenarioData.founders sd) in
  let esopEquity := firstEsopOrZero (ScenarioData.esop sd) in
  let investorEquity := sumOf roundEquity (ScenarioData.rounds sd) in
  let totalEquity := (founderEquity + esopEquity + investorEquity)%js in
  let dilutedFounderEquity := dilute totalEquity founderEquity in
  let dilutedEsopEquity := dilute totalEquity esopEquity in
  let dilutedInvestorEquity := dilute totalEquity investorEquity in
  let founderProceeds := (dilutedFounderEquity / JS.num 100 * valuation)%js in
  let esopProceeds := (dilutedEsopEquity / JS.num 100 * valuation)%js in
  let investorProceeds := (dilutedInvestorEquity / JS.num 100 * valuation)%js in
  let investorReturn :=
    if (totalInvestment > JS.num 0)%js
    then (investorProceeds / totalInvestment)%js else JS.num 0 in
  let founderBreakdown :=
    map (founderEntry totalEquity valuation) (ScenarioData.founders sd) in
  {| exitValuation := valuation;
     exitType := exitType;
     founderProceeds := founderProceeds;
     esopProceeds := esopProceeds;
     investorProceeds := investorProceeds;
     investorReturn := investorReturn;
     founderBreakdown := founderBreakdown;
     totalInvestment := totalInvestment |}.

(** The value [calculateExit] hands to [setExitResults]; [None] when it
    returns early. *)
Definition exitComputation (scenarioData : option ScenarioData.t) (st : State)
    : option ExitResults :=
  match scenarioData with
  | None => None
  | Some sd =>
      if String.eqb (st_exitValuation st) "" then None
      else
        let valuation := JS.parseFloat (st_exitValuation st) in
        if (JS.isNaN valuation || (valuation <= JS.num 0)%js)%bool then None
        else Some (exitResultsFor sd valuation (st_exitType st))
  end.

Definition calculateExit (scenarioData : option ScenarioData.t) (st : State)
    : State :=
  match exitComputation scenarioData st with
  | None => st
  | Some r => setExitResults r st
  end.

Definition formatCurrency (h : JS.Host) (amount : JS.number) : string :=
  if (amount >= JS.num 1000000000)%js then
    "$" ++ JS.toFixed h (amount / JS.num 1000000000)%js 2 ++ "B"
  else if (amount >= JS.num 1000000)%js then
    "$" ++ JS.toFixed h (amount / JS.num 1000000)%js 2 ++ "M"
  else if (amount >= JS.num 1000)%js then
    "$" ++ JS.toFixed h (amount / JS.num 1000)%js 2 ++ "K"
  else "$" ++ JS.toFixed h amount 0.

Definition formatMultiple (h : JS.Host) (multiple : JS.number) : string :=
  JS.toFixed h multiple 1 ++ "x".

End ExitTab.

(** ** The metrics cards ([MetricsCards.tsx]) *)

Module MetricsCards.

Definition totalFunding (scenarioData : option ScenarioData.t) : JS.number :=
  match scenarioData with
  | None => JS.num 0
  | Some sd =>
      (sumOf Round.investment (ScenarioData.rounds sd) || JS.num 0)%js
  end.

Definition formatCurrency (h : JS.Host) (amount : JS.number) : string :=
  if (amount >= JS.num 1000000)%js then
    "$" ++ JS.toFixed h (amount / JS.num 1000000)%js 1 ++ "M"
  else if (amount >= JS.num 1000)%js then
    "$" ++ JS.toFixed h (amount / JS.num 1000)%js 1 ++ "K"
  else "$" ++ JS.toFixed h amount 1.

Definition fundingRounds (scenarioData : option ScenarioData.t) : nat :=
  match scenarioData with
  | Some sd => List.length (ScenarioData.rounds sd)
  | None => 0
  end.

Definition foundersCount (scenarioData : option ScenarioData.t) : nat :=
  match scenarioData with
  | Some sd => List.length (ScenarioData.founders sd)
  | None => 0
  end.

End MetricsCards.

(** ** The remote store

    The store is an external service reached through a query client.  It
    is modelled as four tables, a counter from which row identifiers and
    time stamps are drawn, and a plan of faults: every request consumes
    the head of the plan and either is performed, is answered with an
    error reply ([{ data: null, error }]), or is rejected (the awaited
    promise throws).  An empty plan means no fault.  [failures] counts
    the requests that ended in an error reply or a rejection.  Foreign
    keys are not enforced: the schema is not part of the sources.  Rows
    are read in the order of insertion and an update keeps a row in its
    place; the store itself promises no order. *)

Module Supabase.

Inductive Fault : Type :=
| NoFault
| ErrorReply (message : string)
| Rejects (message : string).

Record World : Type := mkWorld
  { scenarios : list Scenario.t;
    founders : list Founder.t;
    rounds : list Round.t;
    esop : list ESOP.t;
    tick : nat;
    user : string;
    faults : list Fault;
    failures : nat;
    console : list string;
    toasts : list string }.

Definition with_scenarios (xs : list Scenario.t) (w : World) : World :=
  mkWorld xs (founders w) (rounds w) (esop w) (tick w) (user w) (faults w)
    (failures w) (console w) (toasts w).
Definition with_founders (xs : list Founder.t) (w : World) : World :=
  mkWorld (scenarios w) xs (rounds w) (esop w) (tick w) (user w) (faults w)
    (failures w) (console w) (toasts w).
Definition with_rounds (xs : list Round.t) (w : World) : World :=
  mkWorld (scenarios w) (founders w) xs (esop w) (tick w) (user w) (faults w)
    (failures w) (console w) (toasts w).
Definition with_esop (xs : list ESOP.t) (w : World) : World :=
  mkWorld (scenarios w) (founders w) (rounds w) xs (tick w) (user w) (faults w)
    (failures w) (console w) (toasts w).
Definition with_tick (n : nat) (w : World) : World :=
  mkWorld (scenarios w) (founders w) (rounds w) (esop w) n (user w) (faults w)
    (failures w) (console w) (toasts w).
Definition with_faults (fs : list Fault) (w : World) : World :=
  mkWorld (scenarios w) (founders w) (rounds w) (esop w) (tick w) (user w) fs
    (failures w) (console w) (toasts w).
Definition failed (w : World) : World :=
  mkWorld (scenarios w) (founders w) (rounds w) (esop w) (tick w) (user w)
    (faults w) (S (failures w)) (console w) (toasts w).
Definition with_console (c : list string) (w : World) : World :=
  mkWorld (scenarios w) (founders w) (rounds w) (esop w) (tick w) (user w)
    (faults w) (failures w) c (toasts w).
Definition with_toasts (t : list string) (w : World) : World :=
  mkWorld (scenarios w) (founders w) (rounds w) (esop w) (tick w) (user w)
    (faults w) (failures w) (console w) t.

(** *** Computations that may throw *)

Inductive Exn : Type :=
| PostgrestError (message : string)
| Rejection (message : string).

Inductive Result (A : Type) : Type :=
| Value (a : A)
| Thrown (e : Exn).
Arguments Value {A} a.
Arguments Thrown {A} e.

Definition M (A : Type) : Type := World -> Result A * World.

Definition ret {A : Type} (a : A) : M A := fun w => (Value a, w).

Definition bind {A B : Type} (m : M A) (k : A -> M B) : M B :=
  fun w =>
    match m w with
    | (Value a, w') => k a w'
    | (Thrown e, w') => (Thrown e, w')
    end.

Definition throw {A : Type} (e : Exn) : M A := fun w => (Thrown e, w).

Definition try_catch {A : Type} (body : M A) (handler : Exn -> M A) : M A :=
  fun w =>
    match body w with
    | (Value a, w') => (Value a, w')
    | (Thrown e, w') => handler e w'
    end.

(** [Promise.all] over two requests: both are issued, and the first
    rejection, if any, is thrown once both have settled. *)
Definition both {A B : Type} (ma : M A) (mb : M B) : M (A * B) :=
  fun w =>
    let (ra, w1) := ma w in
    let (rb, w2) := mb w1 in
    match ra, rb with
    | Value a, Value b => (Value (a, b), w2)
    | Thrown e, _ => (Thrown e, w2)
    | _, Thrown e => (Thrown e, w2)
    end.

Definition console_error (label : string) : M unit :=
  fun w => (Value tt, with_console (console w ++ [label]) w).

Definition toast (title : string) : M unit :=
  fun w => (Value tt, with_toasts (toasts w ++ [title]) w).

(** *** Requests *)

Inductive Response (A : Type) : Type :=
| Data (data : A)
| Error (error : string).
Arguments Data {A} data.
Arguments Error {A} error.

Definition answer {A : Type} (perform : World -> Response A * World)
    (w : World) : Result (Response A) * World :=
  match perform w with
  | (Data a, w') => (Value (Data a), w')
  | (Error e, w') => (Value (Error e), failed w')
  end.

Definition request {A : Type} (perform : World -> Response A * World)
    : M (Response A) :=
  fun w =>
    match faults w with
    | [] => answer perform w
    | NoFault :: plan => answer perform (with_faults plan w)
    | ErrorReply e :: plan => (Value (Error e), failed (with_faults plan w))
    | Rejects e :: plan => (Thrown (Rejection e), failed (with_faults plan w))
    end.

(** [if (error) throw error;] followed by a use of [data]. *)
Definition orThrow {A : Type} (r : Response A) : M A :=
  match r with
  | Data a => ret a
  | Error e => throw (PostgrestError e)
  end.

(** [res.data || []] *)
Definition dataOrEmpty {A : Type} (r : Response (list A)) : list A :=
  match r with
  | Data a => a
  | Error _ => []
  end.

Definition decimal (n : nat) : string :=
  NilZero.string_of_uint (Nat.to_uint n).

Definition rowId (n : nat) : string := "id-" ++ decimal n.

(** Time stamps of fixed width, so that their order as strings is the
    order of the counter. *)
Definition stamp (n : nat) : string :=
  let d := decimal n in JS.zeros (20 - String.length d) ++ d.

(** The rows of a batch, given identifiers from [n] on. *)
Fixpoint number_rows {A B : Type} (mk : string -> A -> B) (n : nat)
    (xs : list A) : list B :=
  match xs with
  | [] => []
  | x :: xs' => mk (rowId n) x :: number_rows mk (S n) xs'
  end.

Section Table.
Context {Row : Type}.
Variable table : World -> list Row.
Variable with_table : list Row -> World -> World.

(** [.insert(rows).select()] *)
Definition insert_rows {A : Type} (mk : string -> A -> Row) (xs : list A)
    : M (Response (list Row)) :=
  request (fun w =>
    let rows := number_rows mk (tick w) xs in
    (Data rows, with_tick (tick w + List.length xs) (with_table (table w ++ rows) w))).

(** [.insert([row]).select().single()] *)
Definition insert_row {A : Type} (mk : string -> A -> Row) (x : A)
    : M (Response Row) :=
  request (fun w =>
    let row := mk (rowId (tick w)) x in
    (Data row, with_tick (S (tick w)) (with_table (table w ++ [row]) w))).

(** [.select('*').eq(...)] *)
Definition select_where (p : Row -> bool) : M (Response (list Row)) :=
  request (fun w => (Data (filter p (table w)), w)).

(** [.select('*').eq(...).single()]: an error unless exactly one row
    matches. *)
Definition select_single (p : Row -> bool) : M (Response Row) :=
  request (fun w =>
    match filter p (table w) with
    | [row] => (Data row, w)
    | _ => (Error "PGRST116", w)
    end).

(** [.update(updates).eq(...)] *)
Definition update_where (p : Row -> bool) (f : Row -> Row)
    : M (Response unit) :=
  request (fun w =>
    (Data tt, with_table (map (fun r => if p r then f r else r) (table w)) w)).

(** [.delete().eq(...)] *)
Definition delete_where (p : Row -> bool) : M (Response unit) :=
  request (fun w =>
    (Data tt, with_table (filter (fun r => negb (p r)) (table w)) w)).

End Table.

(** [.order('updated_at', { ascending: false })] *)
Fixpoint insert_by_updated (x : Scenario.t) (xs : list Scenario.t)
    : list Scenario.t :=
  match xs with
  | [] => [x]
  | y :: ys =>
      if String.leb (Scenario.updated_at y) (Scenario.updated_at x)
      then x :: y :: ys
      else y :: insert_by_updated x ys
  end.

Definition order_by_updated_desc (xs : list Scenario.t) : list Scenario.t :=
  fold_right insert_by_updated [] xs.

(** The row the store creates for a new scenario: identifier, owner and
    time stamps are filled in by the store. *)
Definition newScenario (w : World) (name : string) : Scenario.t :=
  Scenario.mk (rowId (tick w)) (user w) name (stamp (tick w)) (stamp (tick w)).

Definition isFault (f : Fault) : bool :=
  match f with NoFault => false | _ => true end.

Definition rejects (f : Fault) : bool :=
  match f with Rejects _ => true | _ => false end.

(** The fault planned for the [k]-th request to come. *)
Definition planned (w : World) (k : nat) : Fault := nth k (faults w) NoFault.

End Supabase.

Notation "x <- m ;; k" := (Supabase.bind m (fun x => k))
  (at level 61, m at next level, right associativity).
Notation "m ;;; k" := (Supabase.bind m (fun _ => k))
  (at level 61, right associativity).

(** ** Request and update records ([types/database.ts]) *)

Module NewFounder.
Record t : Type := mk { name : string; equity : JS.number }.
Definition row (scenario_id id : string) (x : t) : Founder.t :=
  Founder.mk id scenario_id (name x) (equity x).
End NewFounder.

Module NewRound.
Record t : Type := mk
  { round_name : string; investment : JS.number; valuation : JS.number }.
Definition row (scenario_id id : string) (x : t) : Round.t :=
  Round.mk id scenario_id (round_name x) (investment x) (valuation x).
End NewRound.

Module NewESOP.
Record t : Type := mk { percentage : JS.number }.
Definition row (scenario_id id : string) (x : t) : ESOP.t :=
  ESOP.mk id scenario_id (percentage x).
End NewESOP.

Module CreateScenarioRequest.
Record t : Type := mk
  { name : string;
    founders : list NewFounder.t;
    rounds : option (list NewRound.t);
    esop : option (list NewESOP.t) }.
End CreateScenarioRequest.

(** [Partial<T>]: every field optional; a present field overwrites. *)
Definition overwrite {A : Type} (u : option A) (old : A) : A :=
  match u with Some v => v | None => old end.

Module PartialScenario.
Record t : Type := mk
  { id : option string; user_id : option string; name : option string;
    created_at : option string; updated_at : option string }.
Definition apply (u : t) (r : Scenario.t) : Scenario.t :=
  Scenario.mk (overwrite (id u) (Scenario.id r))
    (overwrite (user_id u) (Scenario.user_id r))
    (overwrite (name u) (Scenario.name r))
    (overwrite (created_at u) (Scenario.created_at r))
    (overwrite (updated_at u) (Scenario.updated_at r)).
End PartialScenario.

Module PartialFounder.
Record t : Type := mk
  { id : option string; scenario_id : option string; name : option string;
    equity : option JS.number }.
Definition apply (u : t) (r : Founder.t) : Founder.t :=
  Founder.mk (overwrite (id u) (Founder.id r))
    (overwrite (scenario_id u) (Founder.scenario_id r))
    (overwrite (name u) (Founder.name r))
    (overwrite (equity u) (Founder.equity r)).
End PartialFounder.

Module PartialRound.
Record t : Type := mk
  { id : option string; scenario_id : option string;
    round_name : option string; investment : option JS.number;
    valuation : option JS.number }.
Definition apply (u : t) (r : Round.t) : Round.t :=
  Round.mk (overwrite (id u) (Round.id r))
    (overwrite (scenario_id u) (Round.scenario_id r))
    (overwrite (round_name u) (Round.round_name r))
    (overwrite (investment u) (Round.investment r))
    (overwrite (valuation u) (Round.valuation r)).
End PartialRound.

Module PartialESOP.
Record t : Type := mk
  { id : option string; scenario_id : option string;
    percentage : option JS.number }.
Definition apply (u : t) (r : ESOP.t) : ESOP.t :=
  ESOP.mk (overwrite (id u) (ESOP.id r))
    (overwrite (scenario_id u) (ESOP.scenario_id r))
    (overwrite (percentage u) (ESOP.percentage r)).
End PartialESOP.

(** ** The gateway ([SupabaseFunctions]) *)

Module SupabaseFunctions.
Import Supabase.

(** [.from('scenarios').insert({ name }).select().single()] *)
Definition scenarios_insert (name : string) : M (Response Scenario.t) :=
  request (fun w =>
    let row := newScenario w name in
    (Data row,
     with_tick (S (tick w)) (with_scenarios (scenarios w ++ [row]) w))).

Definition createScenario (data : CreateScenarioRequest.t)
    : M (option ScenarioData.t) :=
  try_catch
    (scenarioRes <- scenarios_insert (CreateScenarioRequest.name data) ;;
     scenario <- orThrow scenarioRes ;;
     foundersRes <- insert_rows founders with_founders
                      (NewFounder.row (Scenario.id scenario))
                      (CreateScenarioRequest.founders data) ;;
     founders <- orThrow foundersRes ;;
     rounds <- match CreateScenarioRequest.rounds data with
               | Some (r :: rs) =>
                   roundsRes <- insert_rows rounds with_rounds
                                  (NewRound.row (Scenario.id scenario))
                                  (r :: rs) ;;
                   orThrow roundsRes
               | _ => ret []
               end ;;
     esop <- match CreateScenarioRequest.esop data with
             | Some (e :: es) =>
                 esopRes <- insert_rows esop with_esop
                              (NewESOP.row (Scenario.id scenario))
                              (e :: es) ;;
                 orThrow esopRes
             | _ => ret []
             end ;;
     ret (Some (ScenarioData.mk scenario founders rounds esop)))
    (fun _ => console_error "Error creating scenario:" ;;; ret None).

Definition getScenarios : M (list Scenario.t) :=
  try_catch
    (res <- request (fun w => (Data (order_by_updated_desc (scenarios w)), w)) ;;
     orThrow res)
    (fun _ => console_error "Error fetching scenarios:" ;;; ret []).

Definition getScenarioById (id : string) : M (option ScenarioData.t) :=
  try_catch
    (all <- both
              (both
                 (select_single scenarios
                    (fun r => String.eqb (Scenario.id r) id))
                 (select_where founders
                    (fun r => String.eqb (Founder.scenario_id r) id)))
              (both
                 (select_where rounds
                    (fun r => String.eqb (Round.scenario_id r) id))
                 (select_where esop
                    (fun r => String.eqb (ESOP.scenario_id r) id))) ;;
     let '((scenarioRes, foundersRes), (roundsRes, esopRes)) := all in
     scenario <- orThrow scenarioRes ;;
     ret (Some (ScenarioData.mk scenario (dataOrEmpty foundersRes)
                  (dataOrEmpty roundsRes) (dataOrEmpty esopRes))))
    (fun _ => console_error "Error fetching scenario:" ;;; ret None).

(** The shape shared by the update and delete operations: one request,
    [true] unless it failed. *)
Definition reportSuccess (req : M (Response unit)) (label : string) : M bool :=
  try_catch
    (res <- req ;; orThrow res ;;; ret true)
    (fun _ => console_error label ;;; ret false).

(** The shape shared by the add operations. *)
Definition reportRow {Row : Type} (req : M (Response Row)) (label : string)
    : M (option Row) :=
  try_catch
    (res <- req ;; data <- orThrow res ;; ret (Some data))
    (fun _ => console_error label ;;; ret None).

Definition updateScenario (id : string) (updates : PartialScenario.t) : M bool :=
  reportSuccess
    (update_where scenarios with_scenarios
       (fun r => String.eqb (Scenario.id r) id) (PartialScenario.apply updates))
    "Error updating scenario:".

Definition deleteScenario (id : string) : M bool :=
  try_catch
    (both
       (both
          (delete_where founders with_founders
             (fun r => String.eqb (Founder.scenario_id r) id))
          (delete_where rounds with_rounds
             (fun r => String.eqb (Round.scenario_id r) id)))
       (delete_where esop with_esop
          (fun r => String.eqb (ESOP.scenario_id r) id)) ;;;
     res <- delete_where scenarios with_scenarios
              (fun r => String.eqb (Scenario.id r) id) ;;
     orThrow res ;;; ret true)
    (fun _ => console_error "Error deleting scenario:" ;;; ret false).

Definition addFounder (scenarioId : string) (founder : NewFounder.t)
    : M (option Founder.t) :=
  reportRow (insert_row founders with_founders (NewFounder.row scenarioId) founder)
    "Error adding founder:".

Definition updateFounder (id : string) (updates : PartialFounder.t) : M bool :=
  reportSuccess
    (update_where founders with_founders
       (fun r => String.eqb (Founder.id r) id) (PartialFounder.apply updates))
    "Error updating founder:".

Definition deleteFounder (id : string) : M bool :=
  reportSuccess
    (delete_where founders with_founders (fun r => String.eqb (Founder.id r) id))
    "Error deleting founder:".

Definition addRound (scenarioId : string) (round : NewRound.t)
    : M (option Round.t) :=
  reportRow (insert_row rounds with_rounds (NewRound.row scenarioId) round)
    "Error adding round:".

Definition updateRound (id : string) (updates : PartialRound.t) : M bool :=
  reportSuccess
    (update_where rounds with_rounds
       (fun r => String.eqb (Round.id r) id) (PartialRound.apply updates))
    "Error updating round:".

Definition deleteRound (id : string) : M bool :=
  reportSuccess
    (delete_where rounds with_rounds (fun r => String.eqb (Round.id r) id))
    "Error deleting round:".

Definition addEsop (scenarioId : string) (esop : NewESOP.t)
    : M (option ESOP.t) :=
  reportRow (insert_row Supabase.esop with_esop (NewESOP.row scenarioId) esop)
    "Error adding ESOP:".

Definition updateEsop (id : string) (updates : PartialESOP.t) : M bool :=
  reportSuccess
    (update_where esop with_esop
       (fun r => String.eqb (ESOP.id r) id) (PartialESOP.apply updates))
    "Error updating ESOP:".

Definition deleteEsop (id : string) : M bool :=
  reportSuccess
    (delete_where esop with_esop (fun r => String.eqb (ESOP.id r) id))
    "Error deleting ESOP:".

(** The operations as one family, for statements about all of them. *)
Inductive Operation : Type :=
| CreateScenario (data : CreateScenarioRequest.t)
| GetScenarios
| GetScenarioById (id : string)
| UpdateScenario (id : string) (updates : PartialScenario.t)
| DeleteScenario (id : string)
| AddFounder (scenarioId : string) (founder : NewFounder.t)
| UpdateFounder (id : string) (updates : PartialFounder.t)
| DeleteFounder (id : string)
| AddRound (scenarioId : string) (round : NewRound.t)
| UpdateRound (id : string) (updates : PartialRound.t)
| DeleteRound (id : string)
| AddEsop (scenarioId : string) (esop : NewESOP.t)
| UpdateEsop (id : string) (updates : PartialESOP.t)
| DeleteEsop (id : string).

Inductive Outcome : Type :=
| Success (b : bool)
| Aggregate (d : option ScenarioData.t)
| Scenarios (l : list Scenario.t)
| FounderRow (r : option Founder.t)
| RoundRow (r : option Round.t)
| EsopRow (r : option ESOP.t).

Definition perform (op : Operation) : M Outcome :=
  match op with
  | CreateScenario data => r <- createScenario data ;; ret (Aggregate r)
  | GetScenarios => r <- getScenarios ;; ret (Scenarios r)
  | GetScenarioById id => r <- getScenarioById id ;; ret (Aggregate r)
  | UpdateScenario id u => r <- updateScenario id u ;; ret (Success r)
  | DeleteScenario id => r <- deleteScenario id ;; ret (Success r)
  | AddFounder sid f => r <- addFounder sid f ;; ret (FounderRow r)
  | UpdateFounder id u => r <- updateFounder id u ;; ret (Success r)
  | DeleteFounder id => r <- deleteFounder id ;; ret (Success r)
  | AddRound sid x => r <- addRound sid x ;; ret (RoundRow r)
  | UpdateRound id u => r <- updateRound id u ;; ret (Success r)
  | DeleteRound id => r <- deleteRound id ;; ret (Success r)
  | AddEsop sid e => r <- addEsop sid e ;; ret (EsopRow r)
  | UpdateEsop id u => r <- updateEsop id u ;; ret (Success r)
  | DeleteEsop id => r <- deleteEsop id ;; ret (Success r)
  end.

(** The value an operation reports on failure: [false], [null] or [[]]. *)
Definition reportsFailure (o : Outcome) : bool :=
  match o with
  | Success b => negb b
  | Aggregate None | FounderRow None | RoundRow None | EsopRow None => true
  | Scenarios [] => true
  | _ => false
  end.

End SupabaseFunctions.

(** ** The funding tab ([FundingTab.tsx])

    The handlers are modelled up to the gateway call and the toast; the
    resets of the form fields, the loading flag and the [onUpdate]
    callback are left to the view. *)

Module FundingTab.
Import Supabase.

Definition formatCurrency (h : JS.Host) (amount : JS.number) : string :=
  if (amount >= JS.num 1000000)%js then
    "$" ++ JS.toFixed h (amount / JS.num 1000000)%js 1 ++ "M"
  else if (amount >= JS.num 1000)%js then
    "$" ++ JS.toFixed h (amount / JS.num 1000)%js 1 ++ "K"
  else "$" ++ JS.toLocaleString h amount.

(** The guards of [handleAddRound]: the round that is sent to the
    gateway, if any. *)
Definition newRound (newRoundName newRoundInvestment newRoundValuation : string)
    : option NewRound.t :=
  if (String.eqb (JS.trim newRoundName) "" || String.eqb newRoundInvestment ""
      || String.eqb newRoundValuation "")%bool then None
  else
    let investment := JS.parseFloat newRoundInvestment in
    let valuation := JS.parseFloat newRoundValuation in
    if (JS.isNaN investment || JS.isNaN valuation
        || (investment <= JS.num 0)%js || (valuation <= JS.num 0)%js)%bool
    then None
    else Some (NewRound.mk (JS.trim newRoundName) investment valuation).

Definition handleAddRound (scenarioData : option ScenarioData.t)
    (newRoundName newRoundInvestment newRoundValuation : string) : M unit :=
  match scenarioData with
  | None => toast "Please fill in all round details"
  | Some sd =>
      if (String.eqb (Scenario.id (ScenarioData.scenario sd)) ""
          || String.eqb (JS.trim newRoundName) ""
          || String.eqb newRoundInvestment ""
          || String.eqb newRoundValuation "")%bool
      then toast "Please fill in all round details"
      else
        match newRound newRoundName newRoundInvestment newRoundValuation with
        | None => toast "Please enter valid investment and valuation amounts"
        | Some x =>
            round <- SupabaseFunctions.addRound
                       (Scenario.id (ScenarioData.scenario sd)) x ;;
            match round with
            | Some _ => toast "Funding round added successfully"
            | None => toast "Failed to add funding round"
            end
        end
  end.

Definition handleUpdateRound (round : Round.t) (updates : PartialRound.t)
    : M unit :=
  success <- SupabaseFunctions.updateRound (Round.id round) updates ;;
  if success : bool then toast "Round updated successfully"
  else toast "Failed to update round".

(** The [onChange] handlers of the investment and valuation fields of an
    existing round: [parseFloat(e.target.value) || 0]. *)
Definition investmentChange (value : string) : PartialRound.t :=
  PartialRound.mk None None None
    (Some (JS.parseFloat value || JS.num 0)%js) None.

Definition valuationChange (value : string) : PartialRound.t :=
  PartialRound.mk None None None None
    (Some (JS.parseFloat value || JS.num 0)%js).

Definition roundNameChange (value : string) : PartialRound.t :=
  PartialRound.mk None None (Some value) None None.

(** [confirmed] is the answer to the [confirm] dialog. *)
Definition handleDeleteRound (confirmed : bool) (roundId : string) : M unit :=
  if confirmed then
    success <- SupabaseFunctions.deleteRound roundId ;;
    if success : bool then toast "Funding round deleted successfully"
    else toast "Failed to delete funding round"
  else ret tt.

Definition handleUpdateEsop (scenarioData : option ScenarioData.t)
    (esopPercentage : string) : M unit :=
  match scenarioData with
  | None => ret tt
  | Some sd =>
      if (String.eqb (Scenario.id (ScenarioData.scenario sd)) ""
          || String.eqb esopPercentage "")%bool
      then ret tt
      else
        let percentage := JS.parseFloat esopPercentage in
        if (JS.isNaN percentage || JS.lt percentage (JS.num 0)
            || (percentage > JS.num 100)%js)%bool
        then toast "Please enter a valid ESOP percentage (0-100)"
        else
          success <-
            match ScenarioData.esop sd with
            | first :: _ =>
                SupabaseFunctions.updateEsop (ESOP.id first)
                  (PartialESOP.mk None None (Some percentage))
            | [] =>
                esop <- SupabaseFunctions.addEsop
                          (Scenario.id (ScenarioData.scenario sd))
                          (NewESOP.mk percentage) ;;
                ret (match esop with Some _ => true | None => false end)
            end ;;
          if success : bool then toast "ESOP updated successfully"
          else toast "Failed to update ESOP"
  end.

End FundingTab.

(** ** The setup tab ([SetupTab.tsx]) *)

Module SetupTab.
Import Supabase.

Definition handleUpdateScenarioName (scenarioData : option ScenarioData.t)
    (scenarioName : string) : M unit :=
  match scenarioData with
  | None => ret tt
  | Some sd =>
      if (String.eqb (Scenario.id (ScenarioData.scenario sd)) ""
          || String.eqb (JS.trim scenarioName) "")%bool
      then ret tt
      else
        success <- SupabaseFunctions.updateScenario
                     (Scenario.id (ScenarioData.scenario sd))
                     (PartialScenario.mk None None (Some (JS.trim scenarioName))
                        None None) ;;
        if success : bool then toast "Scenario name updated successfully"
        else toast "Failed to update scenario name"
  end.

Definition handleAddFounder (scenarioData : option ScenarioData.t)
    (newFounderName newFounderEquity : string) : M unit :=
  match scenarioData with
  | None => ret tt
  | Some sd =>
      if (String.eqb (Scenario.id (ScenarioData.scenario sd)) ""
          || String.eqb (JS.trim newFounderName) ""
          || String.eqb newFounderEquity "")%bool
      then ret tt
      else
        let equity := JS.parseFloat newFounderEquity in
        if (JS.isNaN equity || (equity <= JS.num 0)%js
            || (equity > JS.num 100)%js)%bool
        then toast "Please enter a valid equity percentage (0-100)"
        else
          founder <- SupabaseFunctions.addFounder
                       (Scenario.id (ScenarioData.scenario sd))
                       (NewFounder.mk (JS.trim newFounderName) equity) ;;
          match founder with
          | Some _ => toast "Founder added successfully"
          | None => toast "Failed to add founder"
          end
  end.

Definition handleUpdateFounder (founder : Founder.t)
    (updates : PartialFounder.t) : M unit :=
  success <- SupabaseFunctions.updateFounder (Founder.id founder) updates ;;
  if success : bool then toast "Founder updated successfully"
  else toast "Failed to update founder".

(** The [onChange] handlers of the name and equity fields of a founder. *)
Definition nameChange (value : string) : PartialFounder.t :=
  PartialFounder.mk None None (Some value) None.

Definition equityChange (value : string) : PartialFounder.t :=
  PartialFounder.mk None None None
    (Some (JS.parseFloat value || JS.num 0)%js).

(** [confirmed] is the answer to the [confirm] dialog. *)
Definition handleDeleteFounder (confirmed : bool) (founderId : string)
    : M unit :=
  if confirmed then
    success <- SupabaseFunctions.deleteFounder founderId ;;
    if success : bool then toast "Founder deleted successfully"
    else toast "Failed to delete founder"
  else ret tt.

Definition totalEquity (scenarioData : option ScenarioData.t) : JS.number :=
  match scenarioData with
  | None => JS.num 0
  | Some sd =>
      (sumOf Founder.equity (ScenarioData.founders sd) || JS.num 0)%js
  end.

(** The total is shown in green when [totalEquity === 100]. *)
Definition totalIsGreen (scenarioData : option ScenarioData.t) : bool :=
  JS.strictEq (totalEquity scenarioData) (JS.num 100).

End SetupTab.

(** ** The scenario selector ([ScenarioSelector.tsx])

    A handler reports which of the two callbacks of the dashboard it
    called: [onScenariosUpdate], and [onScenarioChange] with its
    argument. *)

Module ScenarioSelector.
Import Supabase.

Record Callbacks : Type := mkCallbacks
  { scenariosUpdate : bool; scenarioChange : option string }.

Definition none : Callbacks := mkCallbacks false None.

Definition handleCreateScenario (newScenarioName : string) : M Callbacks :=
  if String.eqb (JS.trim newScenarioName) "" then
    toast "Please enter a scenario name" ;;; ret none
  else
    scenarioData <- SupabaseFunctions.createScenario
                      (CreateScenarioRequest.mk (JS.trim newScenarioName)
                         [NewFounder.mk "Founder 1" (JS.num 50);
                          NewFounder.mk "Founder 2" (JS.num 50)]
                         None None) ;;
    match scenarioData with
    | Some sd =>
        toast "Scenario created successfully" ;;;
        ret (mkCallbacks true (Some (Scenario.id (ScenarioData.scenario sd))))
    | None => toast "Failed to create scenario" ;;; ret none
    end.

(** The first scenario other than the deleted one, when the deleted one
    was current and was not the only one. *)
Definition nextScenario (scenarios : list Scenario.t)
    (currentScenario : option Scenario.t) (scenarioId : string)
    : option string :=
  match currentScenario with
  | Some current =>
      if (String.eqb (Scenario.id current) scenarioId
          && (1 <? List.length scenarios)%nat)%bool
      then
        match filter (fun s => negb (String.eqb (Scenario.id s) scenarioId))
                scenarios with
        | first :: _ => Some (Scenario.id first)
        | [] => None
        end
      else None
  | None => None
  end.

(** [confirmed] is the answer to the [confirm] dialog. *)
Definition handleDeleteScenario (scenarios : list Scenario.t)
    (currentScenario : option Scenario.t) (confirmed : bool)
    (scenarioId : string) : M Callbacks :=
  if confirmed then
    success <- SupabaseFunctions.deleteScenario scenarioId ;;
    if success : bool then
      toast "Scenario deleted successfully" ;;;
      ret (mkCallbacks true (nextScenario scenarios currentScenario scenarioId))
    else toast "Failed to delete scenario" ;;; ret none
  else ret none.

End ScenarioSelector.

(** ** The dashboard ([Dashboard.tsx])

    The component state, its handlers and its effects.  A function that
    awaits the gateway is split at the [await]: the call is kept as in
    flight, together with what it read from the render it was started
    in, and the rest of the function runs when the call is answered, on
    the state of that moment.  The store serves the requests of a call
    when the call is answered. *)

Module Dashboard.
Import Supabase.

Record State : Type := mkState
  { scenarios : list Scenario.t;
    currentScenario : option Scenario.t;
    scenarioData : option ScenarioData.t;
    activeTab : string;
    loading : bool }.

Definition initial : State := mkState [] None None "setup" true.

(** The calls that can be in flight.  [loadScenarios] tests the
    [currentScenario] of the render it was started in. *)
Inductive Call : Type :=
| LoadScenarios (currentScenario : option Scenario.t)
| LoadScenarioData (scenarioId : string)
| CreateDefaultScenario.

Definition loadScenarios (st : State) : Call :=
  LoadScenarios (currentScenario st).

Definition loadScenarioData (scenarioId : string) : Call :=
  LoadScenarioData scenarioId.

(** The rest of a call, from the answer of the gateway on. *)
Definition answered (c : Call) (st : State) : M State :=
  match c with
  | LoadScenarios current =>
      scenariosData <- SupabaseFunctions.getScenarios ;;
      ret (mkState scenariosData
             (match scenariosData, current with
              | first :: _, None => Some first
              | _, _ => currentScenario st
              end)
             (scenarioData st) (activeTab st) false)
  | LoadScenarioData scenarioId =>
      data <- SupabaseFunctions.getScenarioById scenarioId ;;
      ret (mkState (scenarios st) (currentScenario st) data (activeTab st)
             (loading st))
  | CreateDefaultScenario =>
      defaultScenario <- SupabaseFunctions.createScenario
                           (CreateScenarioRequest.mk "My First Scenario"
                              [NewFounder.mk "Founder 1" (JS.num 50);
                               NewFounder.mk "Founder 2" (JS.num 50)]
                              None None) ;;
      match defaultScenario with
      | Some sd =>
          ret (mkState [ScenarioData.scenario sd]
                 (Some (ScenarioData.scenario sd)) (Some sd) (activeTab st)
                 (loading st))
      | None => ret st
      end
  end.

(** The handlers: the new state and the calls they start. *)
Definition handleScenarioChange (scenarioId : string) (st : State)
    : State * list Call :=
  match find (fun s => String.eqb (Scenario.id s) scenarioId) (scenarios st) with
  | Some scenario =>
      (mkState (scenarios st) (Some scenario) (scenarioData st)
         (activeTab st) (loading st),
       [loadScenarioData scenarioId])
  | None => (st, [])
  end.

Definition handleDataUpdate (st : State) : list Call :=
  match currentScenario st with
  | Some current => [loadScenarioData (Scenario.id current)]
  | None => []
  end.

(** The three effects: on [user], on [currentScenario] and on [loading]
    with [scenarios.length]. *)
Definition userEffect (user : bool) (st : State) : list Call :=
  if user then [loadScenarios st] else [].

Definition currentScenarioEffect (st : State) : list Call :=
  match currentScenario st with
  | Some current => [loadScenarioData (Scenario.id current)]
  | None => []
  end.

Definition createDefaultScenario (st : State) : list Call :=
  if (negb (loading st) && (List.length (scenarios st) =? 0)%nat)%bool
  then [CreateDefaultScenario] else [].

End Dashboard.

(** ** Sample aggregates *)

Module Sample.

Definition acme : Scenario.t :=
  Scenario.mk "s1" "u1" "Acme" (Supabase.stamp 0) (Supabase.stamp 0).
Definition alice : Founder.t := Founder.mk "f1" "s1" "Alice" (JS.num 60).
Definition bob : Founder.t := Founder.mk "f2" "s1" "Bob" (JS.num 40).
Definition seed : Round.t :=
  Round.mk "r1" "s1" "Seed" (JS.num 1000000) (JS.num 5000000).
Definition pool : ESOP.t := ESOP.mk "e1" "s1" (JS.num 10).

(** Founders 60 and 40, one round of 1,000,000 at 5,000,000, a pool of 10. *)
Definition funded : ScenarioData.t :=
  ScenarioData.mk acme [alice; bob] [seed] [pool].

(** The same aggregate once the valuation of the round has been set to 0. *)
Definition seedAtZero : Round.t :=
  Round.mk "r1" "s1" "Seed" (JS.num 1000000) (JS.num 0).
Definition unvalued : ScenarioData.t :=
  ScenarioData.mk acme [alice; bob] [seedAtZero] [pool].

(** A single founder holding 50 units, no round and no pool. *)
Definition carol : Founder.t := Founder.mk "f3" "s1" "Carol" (JS.num 50).
Definition bootstrapped : ScenarioData.t :=
  ScenarioData.mk acme [carol] [] [].

(** A single founder holding 100 units, no round and no pool. *)
Definition dave : Founder.t := Founder.mk "f4" "s1" "Dave" (JS.num 100).
Definition solo : ScenarioData.t := ScenarioData.mk acme [dave] [] [].

(** Two founders holding 30 and 10 units, no round and no pool. *)
Definition erin : Founder.t := Founder.mk "f5" "s1" "Erin" (JS.num 30).
Definition frank : Founder.t := Founder.mk "f6" "s1" "Frank" (JS.num 10).
Definition partners : ScenarioData.t :=
  ScenarioData.mk acme [erin; frank] [] [].

Definition form (exitValuation : string) : ExitTab.State :=
  ExitTab.mkState exitValuation "acquisition" None.

(** A host whose two services print nothing. *)
Definition mute : JS.Host := JS.mkHost (fun _ => "") (fun _ => "").

(** A further round for [funded]: 2,000,000 at 10,000,000. *)
Definition seriesA : Round.t :=
  Round.mk "r3" "s1" "Series A" (JS.num 2000000) (JS.num 10000000).

(** The round of [funded] with nothing invested. *)
Definition grant : Round.t :=
  Round.mk "r2" "s1" "Grant" (JS.num 0) (JS.num 5000000).
Definition gifted : ScenarioData.t :=
  ScenarioData.mk acme [alice; bob] [grant] [pool].

(** A store holding [funded], with no fault planned. *)
Definition stocked : Supabase.World :=
  Supabase.mkWorld [acme] [alice; bob] [seed] [pool] 0 "u1" [] 0 [] [].

(** A second scenario, without rows of its own, and a store holding
    both. *)
Definition beta : Scenario.t :=
  Scenario.mk "s2" "u1" "Beta" (Supabase.stamp 1) (Supabase.stamp 1).
Definition twofold : Supabase.World :=
  Supabase.mkWorld [acme; beta] [alice; bob] [seed] [pool] 0 "u1" [] 0 [] [].

(** A dashboard that has loaded both scenarios and shows none. *)
Definition idle : Dashboard.State :=
  Dashboard.mkState [acme; beta] None None "setup" false.

(** The request the dashboard sends when the user has no scenario. *)
Definition defaultRequest : CreateScenarioRequest.t :=
  CreateScenarioRequest.mk "My First Scenario"
    [NewFounder.mk "Founder 1" (JS.num 50); NewFounder.mk "Founder 2" (JS.num 50)]
    None None.

End Sample.

(** ** Vocabulary of the statements *)

Import Supabase.

(** The proceeds of the three classes together. *)
Definition proceedsTotal (r : ExitTab.ExitResults) : JS.number :=
  (ExitTab.founderProceeds r + ExitTab.esopProceeds r
   + ExitTab.investorProceeds r)%js.

(** A computation that throws exactly when one of its requests failed. *)
Definition Checked {A : Type} (m : M A) : Prop :=
  forall w,
    match m w with
    | (Value _, w') => failures w' = failures w
    | (Thrown _, w') => (failures w < failures w')%nat
    end.

(** A request body that leaves the failure count alone. *)
Definition Silent {A : Type} (p : World -> Response A * World) : Prop :=
  forall w, failures (snd (p w)) = failures w.

(** The operations that check the error of every request they make. *)
Definition checksEveryRequest (op : SupabaseFunctions.Operation) : bool :=
  match op with
  | SupabaseFunctions.GetScenarioById _ | SupabaseFunctions.DeleteScenario _ =>
      false
  | _ => true
  end.

(** A finite number that is not negative. *)
Definition nonNegative (x : JS.number) : bool :=
  (JS.isFinite x && (x >= JS.num 0)%js)%bool.

(** A finite number above zero. *)
Definition positive (x : JS.number) : bool :=
  (JS.isFinite x && (x > JS.num 0)%js)%bool.

(** An aggregate as the forms that add rows would have produced it:
    finite non-negative equities, investments and pool, and finite
    positive valuations. *)
Definition wellFormed (sd : ScenarioData.t) : bool :=
  (forallb (fun f => nonNegative (Founder.equity f)) (ScenarioData.founders sd)
   && forallb (fun r => nonNegative (Round.investment r)
                        && positive (Round.valuation r))
        (ScenarioData.rounds sd)
   && forallb (fun e => nonNegative (ESOP.percentage e)) (ScenarioData.esop sd))%bool.

(** The aggregate with one more round, as read back after the round has
    been added. *)
Definition withRound (sd : ScenarioData.t) (r : Round.t) : ScenarioData.t :=
  ScenarioData.mk (ScenarioData.scenario sd) (ScenarioData.founders sd)
    (ScenarioData.rounds sd ++ [r]) (ScenarioData.esop sd).

(** A percentage: finite, at least 0 and at most 100. *)
Definition isPercentage (x : JS.number) : bool :=
  (nonNegative x && (x <= JS.num 100)%js)%bool.

(** An amount between 0 and [v]. *)
Definition within (v x : JS.number) : bool :=
  (nonNegative x && (x <= v)%js)%bool.

(** The aggregate [getScenarioById] assembles from the tables. *)
Definition aggregateOf (w : World) (id : string) : option ScenarioData.t :=
  match filter (fun r => String.eqb (Scenario.id r) id) (scenarios w) with
  | [row] =>
      Some (ScenarioData.mk row
              (filter (fun r => String.eqb (Founder.scenario_id r) id) (founders w))
              (filter (fun r => String.eqb (Round.scenario_id r) id) (rounds w))
              (filter (fun r => String.eqb (ESOP.scenario_id r) id) (esop w)))
  | _ => None
  end.

(** The two worlds hold the same rows. *)
Definition sameTables (w w' : World) : Prop :=
  scenarios w' = scenarios w /\ founders w' = founders w
  /\ rounds w' = rounds w /\ esop w' = esop w.

(** No row of the store carries or refers to the identifier the store
    will hand out next. *)
Definition freshKey (w : World) : Prop :=
  (forall x, In x (scenarios w) -> Scenario.id x <> rowId (tick w))
  /\ (forall x, In x (founders w) -> Founder.scenario_id x <> rowId (tick w))
  /\ (forall x, In x (rounds w) -> Round.scenario_id x <> rowId (tick w))
  /\ (forall x, In x (esop w) -> ESOP.scenario_id x <> rowId (tick w)).

(** The dashboard with its calls in flight, oldest first. *)
Definition Running : Type := Dashboard.State * list Dashboard.Call.

(** What happens to a running dashboard: an effect runs, a child
    component calls one of the three callbacks, or the call at some
    position is answered.  When an effect runs is left open here: React
    runs the three of them once the component is mounted and each of
    them again after a render in which one of its dependencies has
    changed.  A statement about a run lists the events in that order;
    the order of the answers is up to the network. *)
Inductive Event : Type :=
| UserEffect
| CurrentScenarioEffect
| DefaultScenarioEffect
| ScenarioChange (scenarioId : string)
| DataUpdate
| ScenariosUpdate
| Answer (k : nat).

(** The list without its element at position [k]. *)
Fixpoint without {A : Type} (k : nat) (l : list A) : list A :=
  match k, l with
  | _, [] => []
  | O, _ :: l' => l'
  | S k', x :: l' => x :: without k' l'
  end.

(** One event: the state it leaves and the calls in flight after it;
    the user is signed in. *)
Definition step (e : Event) (r : Running) : M Running :=
  let (st, calls) := r in
  match e with
  | UserEffect => ret (st, (calls ++ Dashboard.userEffect true st)%list)
  | CurrentScenarioEffect =>
      ret (st, (calls ++ Dashboard.currentScenarioEffect st)%list)
  | DefaultScenarioEffect =>
      ret (st, (calls ++ Dashboard.createDefaultScenario st)%list)
  | ScenarioChange scenarioId =>
      let (st', started) := Dashboard.handleScenarioChange scenarioId st in
      ret (st', (calls ++ started)%list)
  | DataUpdate => ret (st, (calls ++ Dashboard.handleDataUpdate st)%list)
  | ScenariosUpdate => ret (st, (calls ++ [Dashboard.loadScenarios st])%list)
  | Answer k =>
      match nth_error calls k with
      | Some c => st' <- Dashboard.answered c st ;; ret (st', without k calls)
      | None => ret r
      end
  end.

(** The dashboard and the store after a sequence of events. *)
Fixpoint run (events : list Event) (r : Running) (w : World)
    : Running * World :=
  match events with
  | [] => (r, w)
  | e :: rest =>
      match step e r w with
      | (Value r', w') => run rest r' w'
      | (Thrown _, w') => (r, w')
      end
  end.

(** A string of decimal digits. *)
Fixpoint allDigits (s : string) : bool :=
  match s with
  | EmptyString => true
  | String c s' => JS.isDigit c && allDigits s'
  end.

(** Rows whose numbers are not [NaN]. *)
Definition definedFounder (f : Founder.t) : bool :=
  negb (JS.isNaN (Founder.equity f)).

Definition definedRound (r : Round.t) : bool :=
  negb (JS.isNaN (Round.investment r)) && negb (JS.isNaN (Round.valuation r)).

Definition definedEsop (e : ESOP.t) : bool :=
  negb (JS.isNaN (ESOP.percentage e)).

(** No number in the store is [NaN]. *)
Definition numbersDefined (w : World) : bool :=
  forallb definedFounder (founders w) && forallb definedRound (rounds w)
  && forallb definedEsop (esop w).

(** What a user can do in the forms of the setup tab, of the funding tab
    and of the scenario selector. *)
Inductive FormEvent : Type :=
| RenameScenario (scenarioData : option ScenarioData.t) (scenarioName : string)
| AddFounder (scenarioData : option ScenarioData.t)
    (newFounderName newFounderEquity : string)
| EditFounderName (founder : Founder.t) (value : string)
| EditFounderEquity (founder : Founder.t) (value : string)
| DeleteFounder (confirmed : bool) (founderId : string)
| AddRound (scenarioData : option ScenarioData.t)
    (newRoundName newRoundInvestment newRoundValuation : string)
| EditRoundName (round : Round.t) (value : string)
| EditRoundInvestment (round : Round.t) (value : string)
| EditRoundValuation (round : Round.t) (value : string)
| DeleteRound (confirmed : bool) (roundId : string)
| UpdateEsop (scenarioData : option ScenarioData.t) (esopPercentage : string)
| CreateScenario (newScenarioName : string)
| DeleteScenario (scenarios : list Scenario.t)
    (currentScenario : option Scenario.t) (confirmed : bool)
    (scenarioId : string).

Definition handle (e : FormEvent) : M unit :=
  match e with
  | RenameScenario sd name => SetupTab.handleUpdateScenarioName sd name
  | AddFounder sd name equity => SetupTab.handleAddFounder sd name equity
  | EditFounderName f value =>
      SetupTab.handleUpdateFounder f (SetupTab.nameChange value)
  | EditFounderEquity f value =>
      SetupTab.handleUpdateFounder f (SetupTab.equityChange value)
  | DeleteFounder confirmed id => SetupTab.handleDeleteFounder confirmed id
  | AddRound sd name investment valuation =>
      FundingTab.handleAddRound sd name investment valuation
  | EditRoundName r value =>
      FundingTab.handleUpdateRound r (FundingTab.roundNameChange value)
  | EditRoundInvestment r value =>
      FundingTab.handleUpdateRound r (FundingTab.investmentChange value)
  | EditRoundValuation r value =>
      FundingTab.handleUpdateRound r (FundingTab.valuationChange value)
  | DeleteRound confirmed id => FundingTab.handleDeleteRound confirmed id
  | UpdateEsop sd percentage => FundingTab.handleUpdateEsop sd percentage
  | CreateScenario name =>
      ScenarioSelector.handleCreateScenario name ;;; ret tt
  | DeleteScenario scenarios current confirmed id =>
      ScenarioSelector.handleDeleteScenario scenarios current confirmed id ;;;
      ret tt
  end.

(** The store after a sequence of form events. *)
Fixpoint handleAll (events : list FormEvent) (w : World) : World :=
  match events with
  | [] => w
  | e :: events' => handleAll events' (snd (handle e w))
  end.

(** * Properties *)

(** ** Numbers *)

Lemma Fin_ext (a b : Qc) : this a = this b -> JS.Fin a = JS.Fin b.
Proof. intro H. f_equal. now apply Qc_decomp. Qed.

(** Closes an equation between two closed numbers. *)
Ltac js_compute := vm_compute; try apply Fin_ext; reflexivity.

Lemma add_Fin_inv (x y : JS.number) (t : Qc) :
  (x + y)%js = JS.Fin t ->
  exists a b, x = JS.Fin a /\ y = JS.Fin b /\ t = (a + b)%Qc.
Proof.
  destruct x as [a| | |], y as [b| | |]; simpl; try discriminate.
  intros [= <-]. now exists a, b.
Qed.

Lemma gt_Fin_0 (t : Qc) : (JS.Fin t > JS.num 0)%js = true <-> (0 < t)%Qc.
Proof.
  unfold JS.gt, JS.num; simpl.
  change (Q2Qc (inject_Z 0)) with 0%Qc.
  split; intro H.
  - apply Qcgt_alt. now destruct (t ?= 0)%Qc.
  - apply Qcgt_alt in H. now rewrite H.
Qed.

Lemma Qc_pos_neq0 (t : Qc) : (0 < t)%Qc -> t <> 0%Qc.
Proof. intros H E. rewrite E in H. now apply Qclt_not_eq in H. Qed.

Lemma isZero_false (t : Qc) : t <> 0%Qc -> JS.isZero t = false.
Proof.
  intro H. unfold JS.isZero, JS.sgn.
  destruct (t ?= Q2Qc 0)%Qc eqn:E; try reflexivity.
  apply Qceq_alt in E. contradiction.
Qed.

Lemma div_Fin (a t : Qc) :
  t <> 0%Qc -> (JS.Fin a / JS.Fin t)%js = JS.Fin (a / t).
Proof. intro H. simpl. now rewrite isZero_false. Qed.

Lemma hundred_neq0 : Q2Qc (inject_Z 100) <> 0%Qc.
Proof. intro H. apply (f_equal this) in H. discriminate. Qed.

Lemma dilute_Fin (a t : Qc) :
  (0 < t)%Qc ->
  dilute (JS.Fin t) (JS.Fin a) = JS.Fin (a / t * Q2Qc (inject_Z 100)).
Proof.
  intro H. unfold dilute.
  rewrite (proj2 (gt_Fin_0 t) H), div_Fin by now apply Qc_pos_neq0.
  reflexivity.
Qed.

(** The three shares of a finite positive total add up to 100. *)
Lemma dilute_shares (f e i : JS.number) (t : Qc) :
  (f + e + i)%js = JS.Fin t -> (0 < t)%Qc ->
  (dilute (JS.Fin t) f + dilute (JS.Fin t) i + dilute (JS.Fin t) e)%js
  = JS.num 100.
Proof.
  intros Ht Hpos.
  apply add_Fin_inv in Ht as (fe & c & Hfe & -> & ->).
  apply add_Fin_inv in Hfe as (a & b & -> & -> & ->).
  rewrite !dilute_Fin by assumption. simpl. unfold JS.num. f_equal.
  field. now apply Qc_pos_neq0.
Qed.

(** ** The worked scenario *)

(** C1.  Founders Alice 60 and Bob 40, one round of 1,000,000 at a
    valuation of 5,000,000 and a pool of 10: the round gives 20, the total
    is 130, and the diluted shares of founders, investors and pool are
    100/130, 20/130 and 10/130 of 100.  An exit at 10,000,000 pays the
    investors 20/130 of it, which is their proceeds over the 1,000,000
    invested, a multiple between 1.53 and 1.55 shown as 1.5x. *)
Theorem funded_scenario_figures :
  roundEquity Sample.seed = JS.num 20
  /\ AnalysisTab.totalEquity (Some Sample.funded) = JS.num 130
  /\ ExitTab.totalEquityOf Sample.funded = JS.num 130
  /\ AnalysisTab.dilutedFounderEquity (Some Sample.funded)
     = (JS.num 100 / JS.num 130 * JS.num 100)%js
  /\ AnalysisTab.dilutedInvestorEquity (Some Sample.funded)
     = (JS.num 20 / JS.num 130 * JS.num 100)%js
  /\ AnalysisTab.dilutedEsopEquity (Some Sample.funded)
     = (JS.num 10 / JS.num 130 * JS.num 100)%js
  /\ exists r,
       ExitTab.st_exitResults
         (ExitTab.calculateExit (Some Sample.funded) (Sample.form "10000000"))
       = Some r
       /\ ExitTab.exitValuation r = JS.num 10000000
       /\ ExitTab.totalInvestment r = JS.num 1000000
       /\ ExitTab.investorProceeds r
          = (JS.num 20 / JS.num 130 * JS.num 10000000)%js
       /\ ExitTab.investorReturn r
          = (ExitTab.investorProceeds r / JS.num 1000000)%js
       /\ JS.lt (JS.num 1538461) (ExitTab.investorProceeds r) = true
       /\ JS.lt (ExitTab.investorProceeds r) (JS.num 1538462) = true
       /\ JS.lt (JS.Fin (Q2Qc (153 # 100))) (ExitTab.investorReturn r) = true
       /\ JS.lt (ExitTab.investorReturn r) (JS.Fin (Q2Qc (155 # 100))) = true
       /\ ExitTab.formatMultiple Sample.mute (ExitTab.investorReturn r) = "1.5x".
Proof.
  repeat (split; [js_compute|]).
  eexists. split; [vm_compute; reflexivity|].
  repeat (split; [js_compute|]). js_compute.
Qed.

(** ** Diluted shares *)

(** C2, counterexample.  With the round valued at 0 the total is an
    infinity, which passes the test [totalEquity > 0], and the three
    shares do not add up to 100. *)
Lemma unvalued_shares_not_100 :
  (AnalysisTab.totalEquity (Some Sample.unvalued) > JS.num 0)%js = true
  /\ (AnalysisTab.dilutedFounderEquity (Some Sample.unvalued)
      + AnalysisTab.dilutedInvestorEquity (Some Sample.unvalued)
      + AnalysisTab.dilutedEsopEquity (Some Sample.unvalued))%js
     <> JS.num 100.
Proof. split; [js_compute | vm_compute; discriminate]. Qed.

Lemma finite_positive (x : JS.number) :
  JS.isFinite x = true -> (x > JS.num 0)%js = true ->
  exists t, x = JS.Fin t /\ (0 < t)%Qc.
Proof.
  destruct x as [t| | |]; try discriminate. intros _ H.
  exists t. split; [reflexivity | now apply gt_Fin_0].
Qed.

(** C2, amended.  Whenever the total is a finite number above 0, the
    diluted shares of founders, investors and pool add up to exactly 100,
    on the analysis tab and in the exit calculation alike. *)
Theorem diluted_shares_sum_to_100 :
  (forall scenarioData : option ScenarioData.t,
      JS.isFinite (AnalysisTab.totalEquity scenarioData) = true ->
      (AnalysisTab.totalEquity scenarioData > JS.num 0)%js = true ->
      (AnalysisTab.dilutedFounderEquity scenarioData
       + AnalysisTab.dilutedInvestorEquity scenarioData
       + AnalysisTab.dilutedEsopEquity scenarioData)%js = JS.num 100)
  /\ (forall sd : ScenarioData.t,
         let totalEquity := ExitTab.totalEquityOf sd in
         JS.isFinite totalEquity = true ->
         (totalEquity > JS.num 0)%js = true ->
         (dilute totalEquity (sumOf Founder.equity (ScenarioData.founders sd))
          + dilute totalEquity (sumOf roundEquity (ScenarioData.rounds sd))
          + dilute totalEquity (firstEsopOrZero (ScenarioData.esop sd)))%js
         = JS.num 100).
Proof.
  split.
  - intros sd Hfin Hpos.
    destruct (finite_positive _ Hfin Hpos) as (t & Ht & Ht0).
    unfold AnalysisTab.dilutedFounderEquity, AnalysisTab.dilutedInvestorEquity,
      AnalysisTab.dilutedEsopEquity.
    rewrite Ht. now apply dilute_shares.
  - intros sd totalEquity Hfin Hpos.
    destruct (finite_positive _ Hfin Hpos) as (t & Ht & Ht0).
    rewrite Ht. now apply dilute_shares.
Qed.

Lemma diluted_shares_sum_to_100_funded :
  (AnalysisTab.dilutedFounderEquity (Some Sample.funded)
   + AnalysisTab.dilutedInvestorEquity (Some Sample.funded)
   + AnalysisTab.dilutedEsopEquity (Some Sample.funded))%js = JS.num 100.
Proof.
  apply (proj1 diluted_shares_sum_to_100 (Some Sample.funded)).
  - vm_compute. reflexivity.
  - vm_compute. reflexivity.
Defined.

(** ** The guards of the exit calculation *)

Lemma parseFloat_empty : JS.parseFloat "" = JS.NaN.
Proof. reflexivity. Qed.

Lemma guard_passes (v : JS.number) :
  (JS.isNaN v || (v <= JS.num 0)%js)%bool = false
  <-> v = JS.PInf \/ exists a, v = JS.Fin a /\ (0 < a)%Qc.
Proof.
  destruct v as [a| | |]; simpl.
  - unfold JS.le, JS.num; simpl. change (Q2Qc (inject_Z 0)) with 0%Qc. split.
    + intro H. right. exists a. split; [reflexivity|].
      apply Qcgt_alt. now destruct (a ?= 0)%Qc.
    + intros [H|(b & [= <-] & H)]; [discriminate|].
      apply Qcgt_alt in H. now rewrite H.
  - split; [discriminate | intros [H|(b & H & _)]; discriminate].
  - split; [now left | reflexivity].
  - split; [discriminate | intros [H|(b & H & _)]; discriminate].
Qed.

(** The test on the empty field is subsumed by the test on the parsed
    number. *)
Lemma exitComputation_guarded (sd : ScenarioData.t) (st : ExitTab.State) :
  let v := JS.parseFloat (ExitTab.st_exitValuation st) in
  ExitTab.exitComputation (Some sd) st
  = if (JS.isNaN v || (v <= JS.num 0)%js)%bool then None
    else Some (ExitTab.exitResultsFor sd v (ExitTab.st_exitType st)).
Proof.
  intro v. unfold ExitTab.exitComputation. fold v.
  destruct (String.eqb_spec (ExitTab.st_exitValuation st) "") as [E|E];
    [|reflexivity].
  unfold v. rewrite E. reflexivity.
Qed.

Lemma exitComputation_accepts (sd : ScenarioData.t) (st : ExitTab.State)
    (a : Qc) :
  JS.parseFloat (ExitTab.st_exitValuation st) = JS.Fin a -> (0 < a)%Qc ->
  ExitTab.exitComputation (Some sd) st
  = Some (ExitTab.exitResultsFor sd (JS.Fin a) (ExitTab.st_exitType st)).
Proof.
  intros Hv Ha. rewrite exitComputation_guarded. cbv zeta. rewrite Hv.
  assert (G : (JS.isNaN (JS.Fin a) || (JS.Fin a <= JS.num 0)%js)%bool = false).
  { apply guard_passes. right. now exists a. }
  now rewrite G.
Qed.

(** ** Exit proceeds *)

(** C3, counterexample.  Two exits whose proceeds do not add up to the
    exit valuation although the total passes [totalEquity > 0]: the
    aggregate whose round is valued at 0, at 10,000,000; and a sole
    founder with the text "Infinity" in the valuation field, which the
    guards of [calculateExit] let through. *)
Lemma proceeds_not_conserved :
  ((ExitTab.totalEquityOf Sample.unvalued > JS.num 0)%js = true
   /\ exists r,
        ExitTab.exitComputation (Some Sample.unvalued)
          (Sample.form "10000000") = Some r
        /\ proceedsTotal r <> ExitTab.exitValuation r)
  /\ ((ExitTab.totalEquityOf Sample.solo > JS.num 0)%js = true
      /\ exists r,
           ExitTab.exitComputation (Some Sample.solo)
             (Sample.form "Infinity") = Some r
           /\ proceedsTotal r <> ExitTab.exitValuation r).
Proof.
  split; (split; [js_compute|]); eexists;
    (split; [vm_compute; reflexivity|]); vm_compute; discriminate.
Qed.

(** C3, amended.  Whenever the total is a finite number above 0 and the
    exit valuation is finite, the proceeds of founders, pool and investors
    add up to exactly the exit valuation; and for a valuation field that
    parses to such a number above 0, this is the result the form stores. *)
Theorem exit_proceeds_conserved (sd : ScenarioData.t) (v : Qc)
    (exitType : string) :
  JS.isFinite (ExitTab.totalEquityOf sd) = true ->
  (ExitTab.totalEquityOf sd > JS.num 0)%js = true ->
  proceedsTotal (ExitTab.exitResultsFor sd (JS.Fin v) exitType) = JS.Fin v
  /\ forall st : ExitTab.State,
       JS.parseFloat (ExitTab.st_exitValuation st) = JS.Fin v -> (0 < v)%Qc ->
       exists r,
         ExitTab.st_exitResults (ExitTab.calculateExit (Some sd) st) = Some r
         /\ ExitTab.exitValuation r = JS.Fin v
         /\ proceedsTotal r = JS.Fin v.
Proof.
  intros Hfin Hpos.
  destruct (finite_positive _ Hfin Hpos) as (t & Ht & Ht0).
  assert (G : forall ty,
             proceedsTotal (ExitTab.exitResultsFor sd (JS.Fin v) ty) = JS.Fin v).
  { intro ty.
    unfold proceedsTotal, ExitTab.exitResultsFor; cbn [ExitTab.founderProceeds
      ExitTab.esopProceeds ExitTab.investorProceeds].
    unfold ExitTab.totalEquityOf in Ht. rewrite Ht.
    apply add_Fin_inv in Ht as (fe & c & Hfe & -> & ->).
    apply add_Fin_inv in Hfe as (a & b & -> & -> & ->).
    rewrite !dilute_Fin by assumption.
    unfold JS.num. rewrite !(div_Fin _ _ hundred_neq0).
    simpl. f_equal. field.
    split; [now apply Qc_pos_neq0 | apply hundred_neq0]. }
  split; [apply G|].
  intros st Hv Hv0. unfold ExitTab.calculateExit.
  rewrite (exitComputation_accepts sd st v Hv Hv0).
  eexists. split; [reflexivity|]. split; [reflexivity | apply G].
Qed.

Lemma exit_proceeds_conserved_funded :
  proceedsTotal
    (ExitTab.exitResultsFor Sample.funded (JS.num 10000000) "acquisition")
  = JS.num 10000000.
Proof.
  apply (exit_proceeds_conserved Sample.funded (Q2Qc (inject_Z 10000000))).
  - vm_compute. reflexivity.
  - vm_compute. reflexivity.
Defined.

(** ** Rounds valued at zero *)

Lemma roundEquity_zero_valuation (r : Round.t) (v : Qc) :
  Round.investment r = JS.Fin v -> Round.valuation r = JS.num 0 ->
  roundEquity r = match (v ?= 0)%Qc with
                  | Gt => JS.PInf
                  | Eq => JS.NaN
                  | Lt => JS.NInf
                  end.
Proof.
  intros Hi Hv. unfold roundEquity. rewrite Hi, Hv. simpl.
  unfold JS.sgn. change (Q2Qc 0) with 0%Qc.
  destruct (v ?= 0)%Qc; reflexivity.
Qed.

(** C4, the code at the failing input.  For the aggregate whose round has
    valuation 0 the investors' equity is an infinity and their diluted
    share is NaN on the analysis tab; the exit calculation stores NaN as
    investor proceeds and as return multiple.  The form that adds a round
    refuses such a valuation, but clearing the valuation field of an
    existing round writes 0 to the store, from where the aggregate is
    read back. *)
Theorem zero_valuation_reaches_NaN :
  AnalysisTab.investorEquity (Some Sample.unvalued) = JS.PInf
  /\ AnalysisTab.totalEquity (Some Sample.unvalued) = JS.PInf
  /\ AnalysisTab.dilutedInvestorEquity (Some Sample.unvalued) = JS.NaN
  /\ (exists r,
        ExitTab.st_exitResults
          (ExitTab.calculateExit (Some Sample.unvalued)
             (Sample.form "10000000")) = Some r
        /\ ExitTab.investorProceeds r = JS.NaN
        /\ ExitTab.investorReturn r = JS.NaN)
  /\ FundingTab.newRound "Seed" "1000000" "0" = None
  /\ fst ((FundingTab.handleUpdateRound Sample.seed
             (FundingTab.valuationChange "") ;;;
           SupabaseFunctions.getScenarioById "s1") Sample.stocked)
     = Supabase.Value (Some Sample.unvalued).
Proof.
  repeat (split; [vm_compute; reflexivity|]).
  split.
  - eexists. split; [vm_compute; reflexivity|].
    split; vm_compute; reflexivity.
  - split; vm_compute; reflexivity.
Qed.

(** ** Founders without rounds or pool *)

Ltac js_neq :=
  let H := fresh in
  vm_compute; intro H;
  apply (f_equal (fun x => match x with JS.Fin a => this a | _ => 0%Q end)) in H;
  discriminate H.

(** C5, counterexample.  A sole founder holding 50 units, with no round
    and no pool, is shown a diluted share of 100. *)
Lemma sole_founder_not_passthrough :
  AnalysisTab.currentEquity
    (AnalysisTab.founderRow (Some Sample.bootstrapped) Sample.carol)
  = JS.num 100
  /\ AnalysisTab.currentEquity
       (AnalysisTab.founderRow (Some Sample.bootstrapped) Sample.carol)
     <> Founder.equity Sample.carol
  /\ map ExitTab.currentEquity
       (ExitTab.founderBreakdown
          (ExitTab.exitResultsFor Sample.bootstrapped (JS.num 10000000)
             "acquisition"))
     = [JS.num 100].
Proof.
  split; [js_compute|]. split; [js_neq|].
  vm_compute. f_equal; try now apply Fin_ext.
Qed.

Lemma add_0_r (x : JS.number) : (x + JS.num 0)%js = x.
Proof.
  destruct x as [a| | |]; try reflexivity.
  simpl. f_equal. change (Q2Qc (inject_Z 0)) with 0%Qc. ring.
Qed.

Lemma fold_add_not_Fin {A : Type} (f : A -> JS.number) (xs : list A) :
  forall acc : JS.number,
    JS.isFinite acc = false ->
    JS.isFinite (fold_left (fun sum x => (sum + f x)%js) xs acc) = false.
Proof.
  induction xs as [|y ys IH]; intros acc H; simpl; [assumption|].
  apply IH. destruct acc; try discriminate; destruct (f y); reflexivity.
Qed.

Lemma fold_add_Fin {A : Type} (f : A -> JS.number) (xs : list A) :
  forall (acc : JS.number) (s : Qc),
    fold_left (fun sum x => (sum + f x)%js) xs acc = JS.Fin s ->
    forall x, In x xs -> exists a, f x = JS.Fin a.
Proof.
  induction xs as [|y ys IH]; intros acc s H x Hin; [destruct Hin|].
  simpl in H. destruct Hin as [<-|Hin]; [|eapply IH; eassumption].
  destruct (f y) as [a| | |] eqn:E; [now exists a| | |];
    apply (f_equal JS.isFinite) in H;
    rewrite fold_add_not_Fin in H by (destruct acc; reflexivity);
    discriminate H.
Qed.

Lemma sumOf_Fin {A : Type} (f : A -> JS.number) (xs : list A) (s : Qc) :
  sumOf f xs = JS.Fin s -> forall x, In x xs -> exists a, f x = JS.Fin a.
Proof. apply fold_add_Fin. Qed.

Lemma dilute_100 (a : Qc) : dilute (JS.num 100) (JS.Fin a) = JS.Fin a.
Proof.
  unfold JS.num. rewrite dilute_Fin.
  - f_equal. field. apply hundred_neq0.
  - apply Qclt_alt. reflexivity.
Qed.

Lemma dilute_not_positive (t x : JS.number) :
  (t > JS.num 0)%js = false -> dilute t x = x.
Proof. intro H. unfold dilute. now rewrite H. Qed.

Lemma total_without_rounds_and_pool (sd : ScenarioData.t) :
  ScenarioData.rounds sd = [] -> ScenarioData.esop sd = [] ->
  ExitTab.totalEquityOf sd = sumOf Founder.equity (ScenarioData.founders sd)
  /\ AnalysisTab.totalEquity (Some sd)
     = (sumOf Founder.equity (ScenarioData.founders sd) || JS.num 0)%js.
Proof.
  intros Hr He.
  unfold ExitTab.totalEquityOf, AnalysisTab.totalEquity,
    AnalysisTab.founderEquity, AnalysisTab.esopEquity,
    AnalysisTab.investorEquity, AnalysisTab.reduceOrZero.
  rewrite Hr, He. simpl firstEsopOrZero.
  change (sumOf roundEquity []) with (JS.num 0).
  change (JS.num 0 || JS.num 0)%js with (JS.num 0).
  now rewrite !add_0_r.
Qed.

Lemma dilute_or_zero (t x : JS.number) :
  dilute (t || JS.num 0)%js x = dilute t x.
Proof.
  unfold JS.or_else. destruct (JS.truthy t) eqn:E; [reflexivity|].
  destruct t as [a| | |]; try discriminate; try reflexivity.
  unfold dilute, JS.gt, JS.num; simpl in *.
  apply negb_false_iff in E. unfold JS.isZero, JS.sgn in E.
  change (Q2Qc (inject_Z 0)) with (Q2Qc 0).
  now destruct (a ?= Q2Qc 0)%Qc.
Qed.

(** C5, amended.  With no round and no pool, the share computed for a
    founder, on the analysis tab and in the exit breakdown, is the
    founder's raw equity divided by the sum of all founders' raw equities
    and then multiplied by 100 when that sum is above 0, and the raw
    equity unchanged when the sum is not above 0. *)
Theorem founder_share_without_rounds_and_pool (sd : ScenarioData.t)
    (F : Founder.t) (valuation : JS.number) (exitType : string) :
  ScenarioData.rounds sd = [] -> ScenarioData.esop sd = [] ->
  In F (ScenarioData.founders sd) ->
  let sum := sumOf Founder.equity (ScenarioData.founders sd) in
  let shown := AnalysisTab.currentEquity (AnalysisTab.founderRow (Some sd) F) in
  let paid :=
    ExitTab.currentEquity
      (ExitTab.founderEntry (ExitTab.totalEquityOf sd) valuation F) in
  shown = dilute sum (Founder.equity F)
  /\ paid = dilute sum (Founder.equity F)
  /\ In (ExitTab.founderEntry (ExitTab.totalEquityOf sd) valuation F)
       (ExitTab.founderBreakdown (ExitTab.exitResultsFor sd valuation exitType))
  /\ ((sum > JS.num 0)%js = true ->
      shown = (Founder.equity F / sum * JS.num 100)%js
      /\ paid = (Founder.equity F / sum * JS.num 100)%js)
  /\ ((sum > JS.num 0)%js = false ->
      shown = Founder.equity F /\ paid = Founder.equity F).
Proof.
  intros Hr He Hin sum shown paid.
  destruct (total_without_rounds_and_pool sd Hr He) as [HE HA].
  assert (Hshown : shown = dilute sum (Founder.equity F)).
  { unfold shown, AnalysisTab.founderRow; cbn [AnalysisTab.currentEquity].
    rewrite HA. apply dilute_or_zero. }
  assert (Hpaid : paid = dilute sum (Founder.equity F)).
  { unfold paid, ExitTab.founderEntry; cbn [ExitTab.currentEquity].
    now rewrite HE. }
  split; [assumption|]. split; [assumption|]. split.
  - unfold ExitTab.exitResultsFor; cbn [ExitTab.founderBreakdown].
    now apply in_map.
  - split; intros H.
    + rewrite Hshown, Hpaid. unfold dilute. rewrite H. now split.
    + rewrite Hshown, Hpaid. now rewrite (dilute_not_positive _ _ H).
Qed.

Lemma founder_share_without_rounds_and_pool_partners :
  AnalysisTab.currentEquity
    (AnalysisTab.founderRow (Some Sample.partners) Sample.erin)
  = JS.num 75
  /\ ExitTab.currentEquity
       (ExitTab.founderEntry (ExitTab.totalEquityOf Sample.partners)
          (JS.num 10000000) Sample.erin)
     = JS.num 75.
Proof.
  assert (Hr : ScenarioData.rounds Sample.partners = []) by reflexivity.
  assert (He : ScenarioData.esop Sample.partners = []) by reflexivity.
  assert (Hin : In Sample.erin (ScenarioData.founders Sample.partners))
    by (left; reflexivity).
  assert (Hs : (sumOf Founder.equity (ScenarioData.founders Sample.partners)
                > JS.num 0)%js = true) by (vm_compute; reflexivity).
  pose proof (founder_share_without_rounds_and_pool Sample.partners
                Sample.erin (JS.num 10000000) "ipo" Hr He Hin) as T.
  cbv zeta in T.
  destruct (proj1 (proj2 (proj2 (proj2 T))) Hs) as [Hshown Hpaid].
  split; [rewrite Hshown | rewrite Hpaid]; js_compute.
Defined.

(** ** The return multiple *)

Lemma gt_0_0 : (JS.num 0 > JS.num 0)%js = false.
Proof. reflexivity. Qed.

(** C6.  When the investments of the rounds add up to 0, the return
    multiple of the exit calculation is 0 whatever the proceeds are: the
    quotient is only formed when the total investment is above 0. *)
Theorem zero_investment_multiple (sd : ScenarioData.t)
    (valuation : JS.number) (exitType : string) :
  sumOf Round.investment (ScenarioData.rounds sd) = JS.num 0 ->
  let r := ExitTab.exitResultsFor sd valuation exitType in
  ExitTab.totalInvestment r = JS.num 0
  /\ ExitTab.investorReturn r = JS.num 0
  /\ forall st : ExitTab.State,
       JS.parseFloat (ExitTab.st_exitValuation st) = valuation ->
       ExitTab.st_exitType st = exitType ->
       (valuation > JS.num 0)%js = true ->
       ExitTab.st_exitResults (ExitTab.calculateExit (Some sd) st) = Some r.
Proof.
  intros H r.
  assert (G : ExitTab.investorReturn r = JS.num 0).
  { unfold r, ExitTab.exitResultsFor; cbn [ExitTab.investorReturn].
    now rewrite H, gt_0_0. }
  split; [exact H|]. split; [exact G|].
  intros st Hv Ht Hpos. unfold ExitTab.calculateExit.
  rewrite exitComputation_guarded. cbv zeta. rewrite Hv, Ht.
  assert (E : (JS.isNaN valuation || (valuation <= JS.num 0)%js)%bool = false).
  { clear -Hpos. unfold JS.gt, JS.le in *.
    destruct (JS.cmp valuation (JS.num 0)) as [[]|] eqn:C; try discriminate.
    destruct valuation; try discriminate; reflexivity. }
  now rewrite E.
Qed.

Lemma zero_investment_multiple_gifted :
  ExitTab.investorReturn
    (ExitTab.exitResultsFor Sample.gifted (JS.num 10000000) "acquisition") = JS.num 0.
Proof.
  apply (zero_investment_multiple Sample.gifted (JS.num 10000000) "acquisition").
  vm_compute. reflexivity.
Defined.

(** ** Results and early returns *)

(** The guards of [calculateExit] alone do not ask for a finite number:
    on the text "Infinity", which the valuation field never hands over,
    the calculation would run and store a result. *)
Lemma infinite_valuation_accepted :
  JS.isFinite (JS.parseFloat "Infinity") = false
  /\ exists r,
       ExitTab.exitComputation (Some Sample.solo) (Sample.form "Infinity")
       = Some r
       /\ ExitTab.st_exitResults
            (ExitTab.calculateExit (Some Sample.solo) (Sample.form "Infinity"))
          = Some r
       /\ ExitTab.exitValuation r = JS.PInf.
Proof.
  split; [reflexivity|]. eexists. repeat split; vm_compute; reflexivity.
Qed.

(** Inputs on which the calculation returns early and the form keeps what
    it had: empty, not numeric, zero, negative. *)
Lemma rejected_valuations :
  Forall (fun input =>
            ExitTab.calculateExit (Some Sample.funded) (Sample.form input)
            = Sample.form input)
    [""; "abc"; "NaN"; "0"; "0.0"; "-5"; "-Infinity"; "e5"; "."].
Proof. repeat constructor. Qed.





(** ** Currency formatting *)

Lemma lt_not_ge (a b : JS.number) : JS.lt a b = true -> (a >= b)%js = false.
Proof. unfold JS.lt, JS.ge. now destruct (JS.cmp a b) as [[]|]. Qed.

Lemma lt_widen (a : JS.number) (b c : Z) :
  (b <= c)%Z -> JS.lt a (JS.num b) = true -> JS.lt a (JS.num c) = true.
Proof.
  intros Hbc. destruct a as [x| | |]; try discriminate; try reflexivity.
  unfold JS.lt, JS.num, JS.cmp. intro H.
  assert (Hx : (x < Q2Qc (inject_Z b))%Qc).
  { apply Qclt_alt. now destruct (x ?= Q2Qc (inject_Z b))%Qc. }
  assert (Hc : (x < Q2Qc (inject_Z c))%Qc).
  { eapply Qclt_le_trans; [exact Hx|].
    unfold Qcle, Q2Qc, this. apply Qred_le. now rewrite <- Zle_Qle. }
  now rewrite (proj1 (Qclt_alt x (Q2Qc (inject_Z c))) Hc).
Qed.

(** C8, counterexample.  No formatter of the dashboard follows the stated
    rule: the one of the exit tab prints thousands with two decimals, and
    those of the funding tab and of the metrics cards (like the one of the
    analysis tab) have no billions branch. *)
Lemma no_formatter_follows_rule :
  (ExitTab.formatCurrency Sample.mute (JS.num 1500) = "$1.50K"
   /\ ExitTab.formatCurrency Sample.mute (JS.num 1500)
      <> "$" ++ JS.toFixed Sample.mute (JS.num 1500 / JS.num 1000)%js 1 ++ "K")
  /\ (FundingTab.formatCurrency Sample.mute (JS.num 2000000000) = "$2000.0M"
      /\ FundingTab.formatCurrency Sample.mute (JS.num 2000000000)
         <> "$" ++ JS.toFixed Sample.mute
                     (JS.num 2000000000 / JS.num 1000000000)%js 2 ++ "B")
  /\ (MetricsCards.formatCurrency Sample.mute (JS.num 2000000000) = "$2000.0M"
      /\ MetricsCards.formatCurrency Sample.mute (JS.num 2000000000)
         <> "$" ++ JS.toFixed Sample.mute
                     (JS.num 2000000000 / JS.num 1000000000)%js 2 ++ "B").
Proof.
  repeat split; try (vm_compute; reflexivity); vm_compute; discriminate.
Qed.

(** C8, amended.  The exit tab prints amounts from 1e9 as billions, from
    1e6 as millions and from 1e3 as thousands, each with two decimals, and
    smaller amounts with no decimals.  The funding tab and the metrics
    cards have no billions branch: every amount from 1e6 is printed as
    millions with one decimal, amounts from 1e3 as thousands with one
    decimal; smaller amounts are printed with one decimal on the metrics
    cards and by the locale on the funding tab.  The analysis tab prints
    millions and thousands with two decimals and smaller amounts by the
    locale. *)
Theorem currency_format_rules (h : JS.Host) (a : JS.number) :
  ((a >= JS.num 1000000000)%js = true ->
     ExitTab.formatCurrency h a
     = "$" ++ JS.toFixed h (a / JS.num 1000000000)%js 2 ++ "B")
  /\ ((a >= JS.num 1000000)%js = true -> JS.lt a (JS.num 1000000000) = true ->
        ExitTab.formatCurrency h a
        = "$" ++ JS.toFixed h (a / JS.num 1000000)%js 2 ++ "M")
  /\ ((a >= JS.num 1000)%js = true -> JS.lt a (JS.num 1000000) = true ->
        ExitTab.formatCurrency h a
        = "$" ++ JS.toFixed h (a / JS.num 1000)%js 2 ++ "K")
  /\ (JS.lt a (JS.num 1000) = true ->
        ExitTab.formatCurrency h a = "$" ++ JS.toFixed h a 0)
  /\ ((a >= JS.num 1000000)%js = true ->
        FundingTab.formatCurrency h a
        = "$" ++ JS.toFixed h (a / JS.num 1000000)%js 1 ++ "M"
        /\ MetricsCards.formatCurrency h a
           = "$" ++ JS.toFixed h (a / JS.num 1000000)%js 1 ++ "M"
        /\ AnalysisTab.formatCurrency h a
           = "$" ++ JS.toFixed h (a / JS.num 1000000)%js 2 ++ "M")
  /\ ((a >= JS.num 1000)%js = true -> JS.lt a (JS.num 1000000) = true ->
        FundingTab.formatCurrency h a
        = "$" ++ JS.toFixed h (a / JS.num 1000)%js 1 ++ "K"
        /\ MetricsCards.formatCurrency h a
           = "$" ++ JS.toFixed h (a / JS.num 1000)%js 1 ++ "K"
        /\ AnalysisTab.formatCurrency h a
           = "$" ++ JS.toFixed h (a / JS.num 1000)%js 2 ++ "K")
  /\ (JS.lt a (JS.num 1000) = true ->
        FundingTab.formatCurrency h a = "$" ++ JS.toLocaleString h a
        /\ MetricsCards.formatCurrency h a = "$" ++ JS.toFixed h a 1
        /\ AnalysisTab.formatCurrency h a = "$" ++ JS.toLocaleString h a).
Proof.
  unfold ExitTab.formatCurrency, FundingTab.formatCurrency,
    MetricsCards.formatCurrency, AnalysisTab.formatCurrency.
  repeat match goal with |- _ /\ _ => split end.
  - intros ->. reflexivity.
  - intros -> H. now rewrite (lt_not_ge _ _ H).
  - intros -> H.
    rewrite (lt_not_ge _ _ H).
    now rewrite (lt_not_ge _ _ (lt_widen a 1000000 1000000000 ltac:(lia) H)).
  - intros H.
    rewrite (lt_not_ge _ _ H).
    rewrite (lt_not_ge _ _ (lt_widen a 1000 1000000 ltac:(lia) H)).
    now rewrite (lt_not_ge _ _ (lt_widen a 1000 1000000000 ltac:(lia) H)).
  - intros ->. now repeat split.
  - intros -> H. rewrite (lt_not_ge _ _ H). now repeat split.
  - intros H.
    rewrite (lt_not_ge _ _ H).
    rewrite (lt_not_ge _ _ (lt_widen a 1000 1000000 ltac:(lia) H)).
    now repeat split.
Qed.

Lemma currency_format_rules_samples :
  ExitTab.formatCurrency Sample.mute (JS.num 2500000000) = "$2.50B"
  /\ ExitTab.formatCurrency Sample.mute (JS.num 1538462) = "$1.54M"
  /\ ExitTab.formatCurrency Sample.mute (JS.num 999) = "$999"
  /\ MetricsCards.formatCurrency Sample.mute (JS.num 1500) = "$1.5K".
Proof.
  destruct (currency_format_rules Sample.mute (JS.num 2500000000))
    as (B & _).
  destruct (currency_format_rules Sample.mute (JS.num 1538462))
    as (_ & M & _).
  destruct (currency_format_rules Sample.mute (JS.num 999))
    as (_ & _ & _ & U & _).
  destruct (currency_format_rules Sample.mute (JS.num 1500))
    as (_ & _ & _ & _ & _ & K & _).
  split; [|split; [|split]].
  - rewrite B by reflexivity. reflexivity.
  - rewrite M by reflexivity. reflexivity.
  - rewrite U by reflexivity. reflexivity.
  - destruct K as (_ & K & _); [reflexivity | reflexivity |].
    rewrite K. reflexivity.
Defined.

(** *** The number of decimals printed *)

Lemma length_app (s1 s2 : string) :
  String.length (s1 ++ s2) = (String.length s1 + String.length s2)%nat.
Proof. induction s1 as [|c s1 IH]; simpl; [reflexivity | now rewrite IH]. Qed.

Lemma length_zeros (n : nat) : String.length (JS.zeros n) = n.
Proof. induction n as [|n IH]; simpl; [reflexivity | now rewrite IH]. Qed.

Lemma length_dropS (n : nat) (s : string) :
  String.length (JS.dropS n s) = (String.length s - n)%nat.
Proof.
  revert s. induction n as [|n IH]; intros [|c s]; simpl; try reflexivity.
  apply IH.
Qed.

Lemma fixedNotation_decimals (x : Qc) (f : nat) :
  (0 < f)%nat ->
  exists i d, JS.fixedNotation x f = i ++ "." ++ d /\ String.length d = f.
Proof.
  intro Hf. destruct f as [|f]; [lia|].
  unfold JS.fixedNotation.
  set (m := JS.digits (JS.roundHalfUp x (S f))).
  set (p := if (String.length m <=? S f)%nat
            then JS.zeros (S f + 1 - String.length m) ++ m else m).
  exists (JS.takeS (String.length p - S f) p),
         (JS.dropS (String.length p - S f) p).
  split; [reflexivity|].
  rewrite length_dropS.
  assert (S f <= String.length p)%nat; [|lia].
  unfold p. destruct (Nat.leb_spec (String.length m) (S f)).
  - rewrite length_app, length_zeros. lia.
  - lia.
Qed.

(** With [f > 0] fraction digits, a finite amount in [0, 10^21) is printed
    with exactly [f] digits after the point. *)
Lemma toFixed_decimals (h : JS.Host) (x : Qc) (f : nat) :
  (0 <= x)%Qc -> (x < Q2Qc (inject_Z (10 ^ 21)))%Qc -> (0 < f)%nat ->
  exists i d, JS.toFixed h (JS.Fin x) f = i ++ "." ++ d /\ String.length d = f.
Proof.
  intros H0 H21 Hf. unfold JS.toFixed.
  assert (E : JS.sgn x <> Lt).
  { unfold JS.sgn. intro E. apply Qclt_alt in E.
    now apply (Qcle_not_lt _ _ H0). }
  remember (Q2Qc (inject_Z (10 ^ 21))) as limit eqn:Hl. clear Hl.
  pose proof (proj1 (Qclt_alt _ _) H21) as C.
  destruct (fixedNotation_decimals x f Hf) as (i & d & Hi & Hd).
  exists i, d. split; [|exact Hd].
  destruct (JS.sgn x); [| contradiction |]; rewrite C; exact Hi.
Qed.

Lemma ge_Fin (a : Qc) (b : Z) :
  (Q2Qc (inject_Z b) <= a)%Qc -> (JS.Fin a >= JS.num b)%js = true.
Proof.
  intro H. unfold JS.ge, JS.num, JS.cmp.
  destruct (a ?= Q2Qc (inject_Z b))%Qc eqn:E; try reflexivity.
  apply Qclt_alt in E. now apply Qcle_not_lt in H.
Qed.

Lemma lt_Fin (a : Qc) (b : Z) :
  (a < Q2Qc (inject_Z b))%Qc -> JS.lt (JS.Fin a) (JS.num b) = true.
Proof.
  intro H. unfold JS.lt, JS.num, JS.cmp.
  now rewrite (proj1 (Qclt_alt _ _) H).
Qed.

(** On the exit tab every amount in [1e3, 1e6) is printed as thousands
    with exactly two digits after the point. *)
Lemma exit_thousands_two_decimals (h : JS.Host) (a : Qc) :
  (Q2Qc (inject_Z 1000) <= a)%Qc -> (a < Q2Qc (inject_Z 1000000))%Qc ->
  exists i d,
    ExitTab.formatCurrency h (JS.Fin a) = "$" ++ i ++ "." ++ d ++ "K"
    /\ String.length d = 2%nat.
Proof.
  intros Hlo Hhi.
  pose proof (lt_Fin a 1000000 Hhi) as L6.
  unfold ExitTab.formatCurrency.
  rewrite (lt_not_ge _ _ (lt_widen _ 1000000 1000000000 ltac:(lia) L6)).
  rewrite (lt_not_ge _ _ L6), (ge_Fin a 1000 Hlo).
  unfold JS.num at 1. rewrite div_Fin
    by (intro H; apply (f_equal this) in H; discriminate H).
  destruct (toFixed_decimals h (a / Q2Qc (inject_Z 1000)) 2) as (i & d & E & Hd).
  - unfold Qcdiv.
    replace 0%Qc with (0 * / Q2Qc (inject_Z 1000))%Qc by ring.
    apply Qcmult_le_compat_r.
    + eapply Qcle_trans; [|exact Hlo]. now apply Qcle_alt.
    + now apply Qcle_alt.
  - unfold Qcdiv.
    eapply Qclt_trans.
    + apply Qcmult_lt_compat_r; [|exact Hhi]. now apply Qclt_alt.
    + now apply Qclt_alt.
  - lia.
  - exists i, d. split; [|exact Hd]. rewrite E.
    clear. induction i as [|c i IH]; simpl in *; [reflexivity|].
    injection IH as IH. now rewrite IH.
Qed.

(** ** The gateway *)

Lemma request_planned {A : Type} (p : World -> Response A * World)
    (w : World) (f : Fault) (plan : list Fault) :
  faults w = f :: plan ->
  request p w =
  match f with
  | NoFault => answer p (with_faults plan w)
  | ErrorReply e => (Value (Error e), failed (with_faults plan w))
  | Rejects e => (Thrown (Rejection e), failed (with_faults plan w))
  end.
Proof. intro H. unfold request. rewrite H. now destruct f. Qed.

Ltac run_create Hw :=
  unfold SupabaseFunctions.createScenario, try_catch, bind,
    SupabaseFunctions.scenarios_insert, insert_rows;
  rewrite (request_planned _ _ _ _ Hw); unfold answer; cbn.

(** C10.  [createScenario] is not atomic.  When the insert of the
    founders, of the rounds or of the pool fails, by an error reply or by
    a rejection, after the scenario row has been inserted, the caller
    gets [null] while the scenario row, and the founders and rounds
    inserted before the failure, stay in the store. *)
Theorem createScenario_not_atomic (data : CreateScenarioRequest.t) (w : World) :
  let row := newScenario w (CreateScenarioRequest.name data) in
  let newFounders :=
    number_rows (NewFounder.row (Scenario.id row)) (S (tick w))
      (CreateScenarioRequest.founders data) in
  let newRounds xs :=
    number_rows (NewRound.row (Scenario.id row))
      (S (tick w) + List.length (CreateScenarioRequest.founders data)) xs in
  (forall f plan,
      faults w = NoFault :: f :: plan -> isFault f = true ->
      let '(r, w') := SupabaseFunctions.createScenario data w in
      r = Value None
      /\ scenarios w' = (scenarios w ++ [row])%list
      /\ founders w' = founders w)
  /\ (forall x xs f plan,
         CreateScenarioRequest.rounds data = Some (x :: xs) ->
         faults w = NoFault :: NoFault :: f :: plan -> isFault f = true ->
         let '(r, w') := SupabaseFunctions.createScenario data w in
         r = Value None
         /\ scenarios w' = (scenarios w ++ [row])%list
         /\ founders w' = (founders w ++ newFounders)%list
         /\ rounds w' = rounds w)
  /\ (forall e es f plan,
         CreateScenarioRequest.rounds data = None
         \/ CreateScenarioRequest.rounds data = Some [] ->
         CreateScenarioRequest.esop data = Some (e :: es) ->
         faults w = NoFault :: NoFault :: f :: plan -> isFault f = true ->
         let '(r, w') := SupabaseFunctions.createScenario data w in
         r = Value None
         /\ scenarios w' = (scenarios w ++ [row])%list
         /\ founders w' = (founders w ++ newFounders)%list
         /\ esop w' = esop w)
  /\ (forall x xs e es f plan,
         CreateScenarioRequest.rounds data = Some (x :: xs) ->
         CreateScenarioRequest.esop data = Some (e :: es) ->
         faults w = NoFault :: NoFault :: NoFault :: f :: plan ->
         isFault f = true ->
         let '(r, w') := SupabaseFunctions.createScenario data w in
         r = Value None
         /\ scenarios w' = (scenarios w ++ [row])%list
         /\ founders w' = (founders w ++ newFounders)%list
         /\ rounds w' = (rounds w ++ newRounds (x :: xs))%list
         /\ esop w' = esop w).
Proof.
  intros row newFounders newRounds.
  split; [|split; [|split]].
  - intros f plan Hw Hf. run_create Hw.
    destruct f; [discriminate| |]; cbn; auto.
  - intros x xs f plan Hr Hw Hf. run_create Hw. rewrite Hr.
    destruct f; [discriminate| |]; cbn; auto.
  - intros e es f plan Hr He Hw Hf. run_create Hw. rewrite He.
    destruct Hr as [-> | ->];
      (destruct f; [discriminate| |]); cbn; auto.
  - intros x xs e es f plan Hr He Hw Hf. run_create Hw. rewrite Hr, He.
    destruct f; [discriminate| |]; cbn; auto.
Qed.

Lemma createScenario_not_atomic_default :
  let w := with_faults [NoFault; ErrorReply "insert failed"] Sample.stocked in
  fst (SupabaseFunctions.createScenario Sample.defaultRequest w) = Value None
  /\ map Scenario.name
       (scenarios (snd (SupabaseFunctions.createScenario Sample.defaultRequest w)))
     = ["Acme"; "My First Scenario"]
  /\ founders (snd (SupabaseFunctions.createScenario Sample.defaultRequest w))
     = founders Sample.stocked.
Proof.
  intro w.
  pose proof (proj1 (createScenario_not_atomic Sample.defaultRequest w)
                (ErrorReply "insert failed") [] eq_refl eq_refl) as H.
  destruct (SupabaseFunctions.createScenario Sample.defaultRequest w) as [r w'].
  destruct H as (-> & Hs & Hf). cbn [fst snd]. rewrite Hs, Hf.
  repeat split.
Defined.

(** *** Failures are reported, not thrown *)

Lemma checked_ret {A : Type} (a : A) : Checked (ret a).
Proof. intro w. reflexivity. Qed.

Lemma checked_bind {A B : Type} (m : M A) (k : A -> M B) :
  Checked m -> (forall a, Checked (k a)) -> Checked (bind m k).
Proof.
  intros Hm Hk w. unfold bind. specialize (Hm w).
  destruct (m w) as [[a|e] w1]; [|assumption].
  specialize (Hk a w1). destruct (k a w1) as [[b|e] w2]; lia.
Qed.

Lemma checked_request {A : Type} (p : World -> Response A * World) :
  Silent p -> Checked (bind (request p) orThrow).
Proof.
  intros Hp w. unfold bind, request, answer.
  destruct (faults w) as [|[|e|e] plan].
  - specialize (Hp w). destruct (p w) as [[a|e] w1]; simpl in *; lia.
  - specialize (Hp (with_faults plan w)).
    destruct (p (with_faults plan w)) as [[a|e] w1]; simpl in *; lia.
  - simpl. lia.
  - simpl. lia.
Qed.

Lemma checked_request_then {A B : Type} (p : World -> Response A * World)
    (k : A -> M B) :
  Silent p -> (forall a, Checked (k a)) ->
  Checked (bind (request p) (fun res => bind (orThrow res) k)).
Proof.
  intros Hp Hk w.
  pose proof (checked_bind _ k (checked_request p Hp) Hk w) as H.
  unfold bind in *. destruct (request p w) as [[[a|e]|e] w1]; exact H.
Qed.

(** A [try]/[catch] whose handler logs and returns a fallback value never
    throws. *)
Lemma guarded_total {A : Type} (body : M A) (label : string) (fallback : A)
    (w : World) :
  exists a w',
    try_catch body (fun _ => console_error label ;;; ret fallback) w
    = (Value a, w').
Proof.
  unfold try_catch. destruct (body w) as [[a|e] w1]; eexists; eexists;
    reflexivity.
Qed.

(** Around a checked body it returns the fallback as soon as a request
    has failed. *)
Lemma guarded_checked {A : Type} (body : M A) (label : string) (fallback : A)
    (w : World) :
  Checked body ->
  forall a w',
    try_catch body (fun _ => console_error label ;;; ret fallback) w
    = (Value a, w') ->
    failures w' <> failures w -> a = fallback.
Proof.
  intros Hb a w' H Hn. unfold try_catch in H. specialize (Hb w).
  destruct (body w) as [[b|e] w1].
  - injection H as -> ->. contradiction.
  - cbn in H. now injection H.
Qed.

Ltac silent :=
  let w := fresh "w" in
  intro w; cbn;
  repeat match goal with
         | |- context [match ?x with _ => _ end] => destruct x
         end;
  reflexivity.

Ltac checked :=
  repeat first
    [ apply checked_ret
    | apply checked_request_then; [silent | intro]
    | apply checked_request; silent
    | apply checked_bind; [| intro]
    | match goal with
      | |- Checked (match ?x with _ => _ end) => destruct x
      end ].

Lemma createScenario_reports (data : CreateScenarioRequest.t) (w w' : World)
    (a : option ScenarioData.t) :
  SupabaseFunctions.createScenario data w = (Value a, w') ->
  failures w' <> failures w -> a = None.
Proof.
  unfold SupabaseFunctions.createScenario. apply guarded_checked.
  unfold SupabaseFunctions.scenarios_insert, insert_rows. checked.
Qed.

Lemma getScenarios_reports (w w' : World) (a : list Scenario.t) :
  SupabaseFunctions.getScenarios w = (Value a, w') ->
  failures w' <> failures w -> a = [].
Proof.
  unfold SupabaseFunctions.getScenarios. apply guarded_checked. checked.
Qed.

Lemma reportSuccess_reports (p : World -> Response unit * World)
    (label : string) (w w' : World) (a : bool) :
  Silent p ->
  SupabaseFunctions.reportSuccess (request p) label w = (Value a, w') ->
  failures w' <> failures w -> a = false.
Proof.
  intro Hp. unfold SupabaseFunctions.reportSuccess. apply guarded_checked.
  apply checked_request_then; [assumption | intro; apply checked_ret].
Qed.

Lemma reportRow_reports {Row : Type} (p : World -> Response Row * World)
    (label : string) (w w' : World) (a : option Row) :
  Silent p ->
  SupabaseFunctions.reportRow (request p) label w = (Value a, w') ->
  failures w' <> failures w -> a = None.
Proof.
  intro Hp. unfold SupabaseFunctions.reportRow. apply guarded_checked.
  apply checked_request_then; [assumption | intro; apply checked_ret].
Qed.

Lemma perform_total (op : SupabaseFunctions.Operation) (w : World) :
  exists o w', SupabaseFunctions.perform op w = (Value o, w').
Proof.
  destruct op; unfold SupabaseFunctions.perform, bind;
    match goal with
    | |- context [?f w] =>
        let E := fresh in
        assert (E : exists a w', f w = (Value a, w'))
          by apply guarded_total;
        destruct E as (a & w' & ->)
    end; eexists; eexists; reflexivity.
Qed.

Lemma perform_reports (op : SupabaseFunctions.Operation) (w w' : World)
    (o : SupabaseFunctions.Outcome) :
  checksEveryRequest op = true ->
  SupabaseFunctions.perform op w = (Value o, w') ->
  failures w' <> failures w ->
  SupabaseFunctions.reportsFailure o = true.
Proof.
  destruct op; try discriminate; intros _;
    unfold SupabaseFunctions.perform, bind;
    match goal with
    | |- context [?f w] => destruct (f w) as [[a|e] w1] eqn:E
    end; try discriminate; intros [= <- <-] Hn.
  - now rewrite (createScenario_reports _ _ _ _ E Hn).
  - now rewrite (getScenarios_reports _ _ _ E Hn).
  - apply reportSuccess_reports in E; [now subst | silent | assumption].
  - apply reportRow_reports in E; [now subst | silent | assumption].
  - apply reportSuccess_reports in E; [now subst | silent | assumption].
  - apply reportSuccess_reports in E; [now subst | silent | assumption].
  - apply reportRow_reports in E; [now subst | silent | assumption].
  - apply reportSuccess_reports in E; [now subst | silent | assumption].
  - apply reportSuccess_reports in E; [now subst | silent | assumption].
  - apply reportRow_reports in E; [now subst | silent | assumption].
  - apply reportSuccess_reports in E; [now subst | silent | assumption].
  - apply reportSuccess_reports in E; [now subst | silent | assumption].
Qed.

Ltac split_plan w E :=
  destruct (faults w) as [|[|?|?] [|[|?|?] [|[|?|?] [|[|?|?] ?]]]] eqn:E.

Ltac settle_rows :=
  repeat match goal with
         | |- context [match filter ?p ?l with _ => _ end] =>
             destruct (filter p l) as [|? [|? ?]]
         end.

(** [getScenarioById] answers [null] when the read of the scenario row
    fails or when one of its four reads is rejected. *)
Lemma getScenarioById_reports (id : string) (w : World) :
  (isFault (planned w 0) || rejects (planned w 1) || rejects (planned w 2)
   || rejects (planned w 3))%bool = true ->
  fst (SupabaseFunctions.getScenarioById id w) = Value None.
Proof.
  unfold planned, SupabaseFunctions.getScenarioById, try_catch, bind, both,
    select_single, select_where, request, answer.
  split_plan w E; cbn; try discriminate; intros _; settle_rows; reflexivity.
Qed.

(** [deleteScenario] answers [false] when the delete of the scenario row
    fails or when one of the deletes of the child rows is rejected. *)
Lemma deleteScenario_reports (id : string) (w : World) :
  (rejects (planned w 0) || rejects (planned w 1) || rejects (planned w 2)
   || isFault (planned w 3))%bool = true ->
  fst (SupabaseFunctions.deleteScenario id w) = Value false.
Proof.
  unfold planned, SupabaseFunctions.deleteScenario, try_catch, bind, both,
    delete_where, request, answer.
  split_plan w E; cbn; try discriminate; intros _; reflexivity.
Qed.

(** No gateway operation throws: each returns a boolean, a nullable row
    or aggregate, or a list.  An operation that checks the
    error of each of its requests, which all do except [getScenarioById]
    and [deleteScenario], returns [false], [null] or the empty list as
    soon as one of its requests has failed.  [getScenarioById] returns
    [null] when the read of the scenario row fails or one of its reads is
    rejected, and [deleteScenario] returns [false] when the delete of the
    scenario row fails or one of the deletes of the child rows is
    rejected. *)
Theorem gateway_reports_failures :
  (forall op w, exists o w', SupabaseFunctions.perform op w = (Value o, w'))
  /\ (forall op w o w',
         checksEveryRequest op = true ->
         SupabaseFunctions.perform op w = (Value o, w') ->
         failures w' <> failures w ->
         SupabaseFunctions.reportsFailure o = true)
  /\ (forall id w,
         (isFault (planned w 0) || rejects (planned w 1)
          || rejects (planned w 2) || rejects (planned w 3))%bool = true ->
         fst (SupabaseFunctions.perform (SupabaseFunctions.GetScenarioById id) w)
         = Value (SupabaseFunctions.Aggregate None))
  /\ (forall id w,
         (rejects (planned w 0) || rejects (planned w 1)
          || rejects (planned w 2) || isFault (planned w 3))%bool = true ->
         fst (SupabaseFunctions.perform (SupabaseFunctions.DeleteScenario id) w)
         = Value (SupabaseFunctions.Success false)).
Proof.
  split; [exact perform_total|].
  split; [intros op w o w'; apply perform_reports|]. split.
  - intros id w H. apply (getScenarioById_reports id) in H.
    unfold SupabaseFunctions.perform, bind.
    destruct (SupabaseFunctions.getScenarioById id w) as [r w1].
    simpl in H. now rewrite H.
  - intros id w H. apply (deleteScenario_reports id) in H.
    unfold SupabaseFunctions.perform, bind.
    destruct (SupabaseFunctions.deleteScenario id w) as [r w1].
    simpl in H. now rewrite H.
Qed.

Lemma gateway_reports_failures_updateRound :
  let w := with_faults [ErrorReply "timeout"] Sample.stocked in
  exists o w',
    SupabaseFunctions.perform
      (SupabaseFunctions.UpdateRound "r1" (FundingTab.valuationChange "6000000"))
      w = (Value o, w')
    /\ SupabaseFunctions.reportsFailure o = true.
Proof.
  intro w. eexists. eexists. split; [vm_compute; reflexivity|].
  eapply (proj1 (proj2 gateway_reports_failures)
            (SupabaseFunctions.UpdateRound "r1"
               (FundingTab.valuationChange "6000000")) w).
  - reflexivity.
  - vm_compute. reflexivity.
  - vm_compute. discriminate.
Defined.

(** C9, the code at the failing input.  [getScenarioById] inspects the
    error of the read of the scenario row only.  When that read succeeds
    and the read of the founders, of the rounds or of the pools is
    answered with an error, a request has failed and yet the operation
    returns an aggregate, not [null]: the scenario row, an empty list in
    place of every read that failed and the rows of the store for the
    others. *)
Theorem getScenarioById_hides_failed_reads (id : string) (w : World)
    (row : Scenario.t) (f1 f2 f3 : Fault) (plan : list Fault) :
  filter (fun r => String.eqb (Scenario.id r) id) (scenarios w) = [row] ->
  faults w = NoFault :: f1 :: f2 :: f3 :: plan ->
  rejects f1 = false -> rejects f2 = false -> rejects f3 = false ->
  (isFault f1 || isFault f2 || isFault f3)%bool = true ->
  exists sd w',
    SupabaseFunctions.perform (SupabaseFunctions.GetScenarioById id) w
    = (Value (SupabaseFunctions.Aggregate (Some sd)), w')
    /\ (failures w < failures w')%nat
    /\ SupabaseFunctions.reportsFailure (SupabaseFunctions.Aggregate (Some sd))
       = false
    /\ ScenarioData.scenario sd = row
    /\ ScenarioData.founders sd
       = (if isFault f1 then []
          else filter (fun r => String.eqb (Founder.scenario_id r) id)
                 (founders w))
    /\ ScenarioData.rounds sd
       = (if isFault f2 then []
          else filter (fun r => String.eqb (Round.scenario_id r) id)
                 (rounds w))
    /\ ScenarioData.esop sd
       = (if isFault f3 then []
          else filter (fun r => String.eqb (ESOP.scenario_id r) id) (esop w)).
Proof.
  intros Hrow Hf R1 R2 R3 Hsome.
  unfold SupabaseFunctions.perform, SupabaseFunctions.getScenarioById,
    try_catch, bind, both, select_single, select_where, request, answer.
  rewrite Hf.
  destruct f1 as [|e1|e1], f2 as [|e2|e2], f3 as [|e3|e3];
    try discriminate; cbn; rewrite Hrow; cbn;
    eexists; eexists; (split; [reflexivity|]); cbn;
    repeat split; lia.
Qed.

Lemma getScenarioById_hides_failed_reads_stocked :
  exists sd w',
    SupabaseFunctions.perform (SupabaseFunctions.GetScenarioById "s1")
      (with_faults [NoFault; ErrorReply "timeout"; NoFault; NoFault]
         Sample.stocked)
    = (Value (SupabaseFunctions.Aggregate (Some sd)), w')
    /\ ScenarioData.founders sd = []
    /\ founders w' = [Sample.alice; Sample.bob]
    /\ SupabaseFunctions.reportsFailure (SupabaseFunctions.Aggregate (Some sd))
       = false.
Proof.
  pose proof (getScenarioById_hides_failed_reads "s1"
                (with_faults [NoFault; ErrorReply "timeout"; NoFault; NoFault]
                   Sample.stocked)
                Sample.acme (ErrorReply "timeout") NoFault NoFault []
                eq_refl eq_refl eq_refl eq_refl eq_refl eq_refl)
    as (sd & w' & E & _ & Hr & _ & Hfo & _).
  exists sd, w'. split; [exact E|]. split; [exact Hfo|]. split; [|exact Hr].
  apply (f_equal snd) in E. cbn [snd] in E. rewrite <- E.
  vm_compute. reflexivity.
Defined.

(** * Further properties *)

(** ** Order and sign of numbers *)

Ltac qc2q :=
  unfold Qcminus, Qcdiv in *;
  unfold Qcle, Qclt, Qcmult, Qcplus, Qcinv, Qcopp, Q2Qc in *;
  cbn [this] in *; rewrite ?Qred_correct in *; unfold inject_Z in *.

Lemma share_bounds (a t : Qc) :
  (0 <= a)%Qc -> (a <= t)%Qc -> (0 < t)%Qc ->
  (0 <= a / t * Q2Qc (inject_Z 100))%Qc
  /\ (a / t * Q2Qc (inject_Z 100) <= Q2Qc (inject_Z 100))%Qc.
Proof.
  intros H0 H1 H2. qc2q.
  assert (E : (this a / this t <= 1)%Q) by (apply Qle_shift_div_r; lra).
  assert (F : (0 <= this a / this t)%Q) by (apply Qle_shift_div_l; lra).
  unfold Qdiv in *. split; lra.
Qed.

Lemma share_shrinks (a t r : Qc) :
  (0 <= a)%Qc -> (0 < t)%Qc -> (0 <= r)%Qc ->
  (a / (t + r) * Q2Qc (inject_Z 100) <= a / t * Q2Qc (inject_Z 100))%Qc.
Proof.
  intros H0 H1 H2. qc2q.
  assert (E : (this a * / (this t + this r) <= this a * / this t)%Q).
  { apply Qle_shift_div_r; [lra|].
    setoid_replace (this a * / this t * (this t + this r))%Q
      with (this a + this a * this r / this t)%Q by (field; lra).
    assert (0 <= this a * this r / this t)%Q
      by (apply Qle_shift_div_l; [lra | nra]).
    lra. }
  lra.
Qed.

Lemma nonNegative_Fin (x : JS.number) :
  nonNegative x = true <-> exists a, x = JS.Fin a /\ (0 <= a)%Qc.
Proof.
  unfold nonNegative. destruct x as [a| | |]; simpl;
    try (split; [discriminate | intros (b & H & _); discriminate]).
  unfold JS.ge, JS.num, JS.cmp. change (Q2Qc (inject_Z 0)) with 0%Qc. split.
  - intro H. exists a. split; [reflexivity|].
    destruct (a ?= 0)%Qc eqn:E; try discriminate.
    + apply Qceq_alt in E. rewrite E. apply Qcle_refl.
    + apply Qclt_le_weak. now apply Qcgt_alt.
  - intros (b & [= <-] & H).
    destruct (a ?= 0)%Qc eqn:E; try reflexivity.
    apply Qclt_alt in E. now apply Qcle_not_lt in H.
Qed.

Lemma positive_Fin (x : JS.number) :
  positive x = true <-> exists a, x = JS.Fin a /\ (0 < a)%Qc.
Proof.
  unfold positive. destruct x as [a| | |]; simpl;
    try (split; [discriminate | intros (b & H & _); discriminate]).
  rewrite gt_Fin_0. split.
  - intro H. now exists a.
  - now intros (b & [= <-] & H).
Qed.

Lemma nonNegative_add (x y : JS.number) :
  nonNegative x = true -> nonNegative y = true ->
  nonNegative (x + y)%js = true.
Proof.
  intros Hx Hy.
  apply nonNegative_Fin in Hx as (a & -> & Ha).
  apply nonNegative_Fin in Hy as (b & -> & Hb).
  apply nonNegative_Fin. exists (a + b)%Qc. split; [reflexivity|].
  qc2q. lra.
Qed.

Lemma nonNegative_not_NaN (x : JS.number) :
  nonNegative x = true -> JS.isNaN x = false.
Proof. now destruct x. Qed.

(** ** Sums *)

Lemma sumOf_app {A : Type} (f : A -> JS.number) (xs : list A) (x : A) :
  sumOf f (xs ++ [x]) = (sumOf f xs + f x)%js.
Proof. unfold sumOf. now rewrite fold_left_app. Qed.

Lemma fold_add_nonNegative {A : Type} (f : A -> JS.number) (xs : list A) :
  forall acc : JS.number,
    nonNegative acc = true ->
    forallb (fun x => nonNegative (f x)) xs = true ->
    nonNegative (fold_left (fun sum x => (sum + f x)%js) xs acc) = true.
Proof.
  induction xs as [|y ys IH]; intros acc Hacc H; simpl in *; [assumption|].
  apply andb_true_iff in H as [Hy Hys].
  apply IH; [now apply nonNegative_add | assumption].
Qed.

Lemma sumOf_nonNegative {A : Type} (f : A -> JS.number) (xs : list A) :
  forallb (fun x => nonNegative (f x)) xs = true ->
  nonNegative (sumOf f xs) = true.
Proof. apply fold_add_nonNegative. reflexivity. Qed.

Lemma or_zero_id (x : JS.number) :
  JS.isNaN x = false -> (x || JS.num 0)%js = x.
Proof.
  intro H. unfold JS.or_else. destruct x as [a| | |]; try discriminate;
    try reflexivity.
  simpl. unfold JS.isZero, JS.sgn.
  destruct (a ?= Q2Qc 0)%Qc eqn:E; try reflexivity.
  apply Qceq_alt in E. now rewrite E.
Qed.

Lemma roundEquity_nonNegative (r : Round.t) :
  nonNegative (Round.investment r) = true ->
  positive (Round.valuation r) = true ->
  nonNegative (roundEquity r) = true.
Proof.
  intros Hi Hv. unfold roundEquity.
  apply nonNegative_Fin in Hi as (i & -> & Hi).
  apply positive_Fin in Hv as (v & -> & Hv).
  rewrite div_Fin by now apply Qc_pos_neq0.
  apply nonNegative_Fin. eexists. split; [reflexivity|].
  qc2q.
  assert (0 <= this i / this v)%Q by (apply Qle_shift_div_l; lra).
  unfold Qdiv in *. lra.
Qed.

Lemma firstEsopOrZero_nonNegative (es : list ESOP.t) :
  forallb (fun e => nonNegative (ESOP.percentage e)) es = true ->
  nonNegative (firstEsopOrZero es) = true.
Proof.
  destruct es as [|e es]; [reflexivity|]. simpl. intro H.
  apply andb_true_iff in H as [He _].
  now rewrite or_zero_id by now apply nonNegative_not_NaN.
Qed.

(** The three class sums of a well-formed aggregate. *)
Lemma wellFormed_sums (sd : ScenarioData.t) :
  wellFormed sd = true ->
  nonNegative (sumOf Founder.equity (ScenarioData.founders sd)) = true
  /\ nonNegative (firstEsopOrZero (ScenarioData.esop sd)) = true
  /\ nonNegative (sumOf roundEquity (ScenarioData.rounds sd)) = true
  /\ nonNegative (sumOf Round.investment (ScenarioData.rounds sd)) = true.
Proof.
  unfold wellFormed. intro H.
  apply andb_true_iff in H as [H He]. apply andb_true_iff in H as [Hf Hr].
  repeat split.
  - now apply sumOf_nonNegative.
  - now apply firstEsopOrZero_nonNegative.
  - apply sumOf_nonNegative. rewrite forallb_forall in *. intros r Hin.
    specialize (Hr r Hin). apply andb_true_iff in Hr as [Hi Hv].
    now apply roundEquity_nonNegative.
  - apply sumOf_nonNegative. rewrite forallb_forall in *. intros r Hin.
    specialize (Hr r Hin). now apply andb_true_iff in Hr as [Hi Hv].
Qed.

Lemma le_Fin (a : Qc) (b : Z) :
  (a <= Q2Qc (inject_Z b))%Qc -> (JS.Fin a <= JS.num b)%js = true.
Proof.
  intro H. unfold JS.le, JS.num, JS.cmp.
  destruct (a ?= Q2Qc (inject_Z b))%Qc eqn:E; try reflexivity.
  apply Qcgt_alt in E. now apply Qcle_not_lt in H.
Qed.

Lemma le_Fin_Fin (a b : Qc) : (a <= b)%Qc -> (JS.Fin a <= JS.Fin b)%js = true.
Proof.
  intro H. unfold JS.le, JS.cmp.
  destruct (a ?= b)%Qc eqn:E; try reflexivity.
  apply Qcgt_alt in E. now apply Qcle_not_lt in H.
Qed.

(** A share of a positive total made of three non-negative parts. *)
Lemma dilute_part (x f e i : JS.number) :
  nonNegative f = true -> nonNegative e = true -> nonNegative i = true ->
  (f + e + i > JS.num 0)%js = true ->
  x = f \/ x = e \/ x = i ->
  exists a t,
    x = JS.Fin a /\ (f + e + i)%js = JS.Fin t
    /\ (0 <= a)%Qc /\ (a <= t)%Qc /\ (0 < t)%Qc
    /\ dilute (f + e + i)%js x = JS.Fin (a / t * Q2Qc (inject_Z 100)).
Proof.
  intros Hf He Hi Ht Hx.
  apply nonNegative_Fin in Hf as (a & -> & Ha).
  apply nonNegative_Fin in He as (b & -> & Hb).
  apply nonNegative_Fin in Hi as (c & -> & Hc).
  simpl JS.add in *. apply gt_Fin_0 in Ht.
  destruct Hx as [-> | [-> | ->]]; eexists; exists (a + b + c)%Qc;
    (split; [reflexivity|]); (split; [reflexivity|]);
    (split; [assumption|]); (split; [qc2q; lra|]);
    (split; [assumption|]); now apply dilute_Fin.
Qed.

Lemma proceeds_bounds (s v : Qc) :
  (0 <= s)%Qc -> (s <= Q2Qc (inject_Z 100))%Qc -> (0 <= v)%Qc ->
  (0 <= s / Q2Qc (inject_Z 100) * v)%Qc /\ (s / Q2Qc (inject_Z 100) * v <= v)%Qc.
Proof.
  intros H0 H1 H2. qc2q.
  assert (E : (this s / (100 # 1) <= 1)%Q) by (apply Qle_shift_div_r; lra).
  assert (F : (0 <= this s / (100 # 1))%Q) by (apply Qle_shift_div_l; lra).
  unfold Qdiv in *. split; nra.
Qed.

Lemma fold_add_member {A : Type} (f : A -> JS.number) (xs : list A) :
  forall c : Qc,
    (0 <= c)%Qc ->
    forallb (fun x => nonNegative (f x)) xs = true ->
    exists s,
      fold_left (fun sum x => (sum + f x)%js) xs (JS.Fin c) = JS.Fin s
      /\ (c <= s)%Qc
      /\ forall x, In x xs -> exists a, f x = JS.Fin a /\ (0 <= a)%Qc /\ (a <= s)%Qc.
Proof.
  induction xs as [|y ys IH]; intros c Hc H; simpl in *.
  - exists c. split; [reflexivity|]. split; [apply Qcle_refl | intros x []].
  - apply andb_true_iff in H as [Hy Hys].
    apply nonNegative_Fin in Hy as (b & Hb & Hb0). rewrite Hb. simpl.
    destruct (IH (c + b)%Qc) as (s & Hs & Hcs & Hin); [qc2q; lra | assumption|].
    exists s. split; [assumption|]. split; [qc2q; lra|].
    intros x [<- | Hx]; [|now apply Hin].
    exists b. split; [assumption|]. split; [assumption | qc2q; lra].
Qed.

Lemma sumOf_member {A : Type} (f : A -> JS.number) (xs : list A) :
  forallb (fun x => nonNegative (f x)) xs = true ->
  exists s,
    sumOf f xs = JS.Fin s
    /\ forall x, In x xs -> exists a, f x = JS.Fin a /\ (0 <= a)%Qc /\ (a <= s)%Qc.
Proof.
  intro H. destruct (fold_add_member f xs 0%Qc (Qcle_refl _) H) as (s & Hs & _ & Hin).
  now exists s.
Qed.

(** ** The two tabs compute the same dilution *)

Lemma tabs_agree_total (sd : ScenarioData.t) :
  JS.isNaN (sumOf Founder.equity (ScenarioData.founders sd)) = false ->
  JS.isNaN (sumOf roundEquity (ScenarioData.rounds sd)) = false ->
  AnalysisTab.totalEquity (Some sd) = ExitTab.totalEquityOf sd
  /\ AnalysisTab.founderEquity (Some sd)
     = sumOf Founder.equity (ScenarioData.founders sd)
  /\ AnalysisTab.investorEquity (Some sd)
     = sumOf roundEquity (ScenarioData.rounds sd).
Proof.
  intros Hf Hi.
  assert (Ef : AnalysisTab.founderEquity (Some sd)
               = sumOf Founder.equity (ScenarioData.founders sd))
    by (unfold AnalysisTab.founderEquity, AnalysisTab.reduceOrZero;
        now apply or_zero_id).
  assert (Ei : AnalysisTab.investorEquity (Some sd)
               = sumOf roundEquity (ScenarioData.rounds sd))
    by (unfold AnalysisTab.investorEquity, AnalysisTab.reduceOrZero;
        now apply or_zero_id).
  split; [|now split].
  unfold AnalysisTab.totalEquity, ExitTab.totalEquityOf. now rewrite Ef, Ei.
Qed.

(** Unless a sum over the founders or over the rounds is NaN, the analysis
    tab and the exit calculation work on the same totals: the proceeds of
    each class are the share shown on the analysis tab applied to the exit
    valuation, and each founder is shown the same diluted equity on both
    tabs. *)
Theorem tabs_agree_on_dilution (sd : ScenarioData.t) (valuation : JS.number)
    (exitType : string) :
  JS.isNaN (sumOf Founder.equity (ScenarioData.founders sd)) = false ->
  JS.isNaN (sumOf roundEquity (ScenarioData.rounds sd)) = false ->
  let r := ExitTab.exitResultsFor sd valuation exitType in
  AnalysisTab.totalEquity (Some sd) = ExitTab.totalEquityOf sd
  /\ ExitTab.founderProceeds r
     = (AnalysisTab.dilutedFounderEquity (Some sd) / JS.num 100 * valuation)%js
  /\ ExitTab.esopProceeds r
     = (AnalysisTab.dilutedEsopEquity (Some sd) / JS.num 100 * valuation)%js
  /\ ExitTab.investorProceeds r
     = (AnalysisTab.dilutedInvestorEquity (Some sd) / JS.num 100 * valuation)%js
  /\ map ExitTab.currentEquity (ExitTab.founderBreakdown r)
     = map AnalysisTab.currentEquity (AnalysisTab.founderRows (Some sd)).
Proof.
  intros Hf Hi r.
  destruct (tabs_agree_total sd Hf Hi) as (Et & Ef & Ei).
  unfold AnalysisTab.dilutedFounderEquity, AnalysisTab.dilutedEsopEquity,
    AnalysisTab.dilutedInvestorEquity.
  rewrite Et, Ef, Ei. repeat split.
  unfold r, ExitTab.exitResultsFor, AnalysisTab.founderRows;
    cbn [ExitTab.founderBreakdown].
  rewrite !map_map. apply map_ext. intro F.
  unfold AnalysisTab.founderRow, ExitTab.founderEntry;
    cbn [ExitTab.currentEquity AnalysisTab.currentEquity].
  now rewrite Et.
Qed.

Lemma tabs_agree_on_dilution_funded :
  AnalysisTab.totalEquity (Some Sample.funded)
  = ExitTab.totalEquityOf Sample.funded.
Proof.
  apply (tabs_agree_on_dilution Sample.funded (JS.num 10000000) "ipo");
    reflexivity.
Defined.

(** ** Well-formed aggregates give shares between 0 and 100 *)

Lemma wellFormed_founder (sd : ScenarioData.t) (F : Founder.t) :
  wellFormed sd = true -> In F (ScenarioData.founders sd) ->
  exists a s,
    Founder.equity F = JS.Fin a
    /\ sumOf Founder.equity (ScenarioData.founders sd) = JS.Fin s
    /\ (0 <= a)%Qc /\ (a <= s)%Qc.
Proof.
  unfold wellFormed. intros H Hin.
  apply andb_true_iff in H as [H _]. apply andb_true_iff in H as [Hf _].
  destruct (sumOf_member Founder.equity _ Hf) as (s & Hs & Hm).
  destruct (Hm F Hin) as (a & Ha & Ha0 & Has). now exists a, s.
Qed.

Lemma dilute_percentage (a t : Qc) :
  (0 <= a)%Qc -> (a <= t)%Qc -> (0 < t)%Qc ->
  isPercentage (dilute (JS.Fin t) (JS.Fin a)) = true.
Proof.
  intros H0 H1 H2. rewrite dilute_Fin by assumption.
  destruct (share_bounds a t H0 H1 H2) as [L U].
  unfold isPercentage. apply andb_true_iff. split.
  - apply nonNegative_Fin. eexists. now split.
  - now apply le_Fin.
Qed.

(** In exact arithmetic, the shares shown on the analysis tab for a
    well-formed aggregate with a positive total, those of the three
    classes and that of every founder, are finite and lie between 0 and
    100.  (In binary64 the quotient of an investment by a valuation can
    overflow, and the shares are then NaN.) *)
Theorem analysis_shares_are_percentages (sd : ScenarioData.t) :
  wellFormed sd = true ->
  (AnalysisTab.totalEquity (Some sd) > JS.num 0)%js = true ->
  isPercentage (AnalysisTab.dilutedFounderEquity (Some sd)) = true
  /\ isPercentage (AnalysisTab.dilutedInvestorEquity (Some sd)) = true
  /\ isPercentage (AnalysisTab.dilutedEsopEquity (Some sd)) = true
  /\ Forall (fun row => isPercentage (AnalysisTab.currentEquity row) = true)
       (AnalysisTab.founderRows (Some sd)).
Proof.
  intros Hwf Hpos.
  destruct (wellFormed_sums sd Hwf) as (Hf & He & Hi & _).
  destruct (tabs_agree_total sd) as (Et & Ef & Ei);
    try now apply nonNegative_not_NaN.
  unfold AnalysisTab.dilutedFounderEquity, AnalysisTab.dilutedEsopEquity,
    AnalysisTab.dilutedInvestorEquity.
  rewrite Et in *. rewrite Ef, Ei. unfold ExitTab.totalEquityOf in *.
  change (AnalysisTab.esopEquity (Some sd))
    with (firstEsopOrZero (ScenarioData.esop sd)).
  repeat split.
  - destruct (dilute_part _ _ _ _ Hf He Hi Hpos (or_introl eq_refl))
      as (a & t & Ha & Ht & H0 & H1 & H2 & _).
    rewrite Ht, Ha. now apply dilute_percentage.
  - destruct (dilute_part _ _ _ _ Hf He Hi Hpos (or_intror (or_intror eq_refl)))
      as (a & t & Ha & Ht & H0 & H1 & H2 & _).
    rewrite Ht, Ha. now apply dilute_percentage.
  - destruct (dilute_part _ _ _ _ Hf He Hi Hpos (or_intror (or_introl eq_refl)))
      as (a & t & Ha & Ht & H0 & H1 & H2 & _).
    rewrite Ht, Ha. now apply dilute_percentage.
  - unfold AnalysisTab.founderRows. apply Forall_map, Forall_forall.
    intros F Hin. unfold AnalysisTab.founderRow; cbn [AnalysisTab.currentEquity].
    rewrite Et. unfold ExitTab.totalEquityOf.
    destruct (dilute_part _ _ _ _ Hf He Hi Hpos (or_introl eq_refl))
      as (s & t & Hs & Ht & H0 & H1 & H2 & _).
    destruct (wellFormed_founder sd F Hwf Hin) as (a & s' & Ha & Hs' & Ha0 & Has).
    rewrite Hs in Hs'. injection Hs' as <-.
    rewrite Ht, Ha. apply dilute_percentage; try assumption.
    now apply Qcle_trans with s.
Qed.

Lemma analysis_shares_are_percentages_funded :
  isPercentage (AnalysisTab.dilutedFounderEquity (Some Sample.funded)) = true.
Proof.
  apply (analysis_shares_are_percentages Sample.funded); reflexivity.
Defined.

(** ** Well-formed aggregates give bounded exit results *)

Lemma proceeds_within (a t v : Qc) :
  (0 <= a)%Qc -> (a <= t)%Qc -> (0 < t)%Qc -> (0 <= v)%Qc ->
  within (JS.Fin v)
    (dilute (JS.Fin t) (JS.Fin a) / JS.num 100 * JS.Fin v)%js = true.
Proof.
  intros H0 H1 H2 Hv. rewrite dilute_Fin by assumption.
  unfold JS.num. rewrite (div_Fin _ _ hundred_neq0). simpl JS.mul.
  destruct (share_bounds a t H0 H1 H2) as [L U].
  destruct (proceeds_bounds _ v L U Hv) as [L' U'].
  unfold within. apply andb_true_iff. split.
  - apply nonNegative_Fin. eexists. now split.
  - now apply le_Fin_Fin.
Qed.

Lemma within_nonNegative (v x : JS.number) :
  within v x = true -> nonNegative x = true.
Proof. unfold within. intro H. now apply andb_true_iff in H as [H _]. Qed.

(** In exact arithmetic, for a well-formed aggregate with a positive
    total and a finite exit valuation that is not negative, every figure
    of the exit result is finite: the proceeds of each class and of each
    founder lie between 0 and the exit valuation, each founder's diluted
    equity between 0 and 100, and the total investment and the return
    multiple are not negative.  (In binary64 the quotient of an
    investment by a valuation can overflow, and proceeds and multiple are
    then NaN.) *)
Theorem exit_results_are_bounded (sd : ScenarioData.t) (v : Qc)
    (exitType : string) :
  wellFormed sd = true ->
  (ExitTab.totalEquityOf sd > JS.num 0)%js = true ->
  (0 <= v)%Qc ->
  let r := ExitTab.exitResultsFor sd (JS.Fin v) exitType in
  within (JS.Fin v) (ExitTab.founderProceeds r) = true
  /\ within (JS.Fin v) (ExitTab.esopProceeds r) = true
  /\ within (JS.Fin v) (ExitTab.investorProceeds r) = true
  /\ nonNegative (ExitTab.totalInvestment r) = true
  /\ nonNegative (ExitTab.investorReturn r) = true
  /\ Forall (fun b => isPercentage (ExitTab.currentEquity b) = true
                      /\ within (JS.Fin v) (ExitTab.proceeds b) = true)
       (ExitTab.founderBreakdown r).
Proof.
  intros Hwf Hpos Hv r.
  destruct (wellFormed_sums sd Hwf) as (Hf & He & Hi & HI).
  unfold ExitTab.totalEquityOf in Hpos.
  destruct (dilute_part _ _ _ _ Hf He Hi Hpos (or_introl eq_refl))
    as (a & t & Ha & Ht & Ha0 & Hat & Ht0 & _).
  destruct (dilute_part _ _ _ _ Hf He Hi Hpos (or_intror (or_introl eq_refl)))
    as (b & t' & Hb & Ht' & Hb0 & Hbt & _).
  rewrite Ht in Ht'. injection Ht' as <-.
  destruct (dilute_part _ _ _ _ Hf He Hi Hpos (or_intror (or_intror eq_refl)))
    as (c & t' & Hc & Ht' & Hc0 & Hct & _).
  rewrite Ht in Ht'. injection Ht' as <-.
  assert (Pi : within (JS.Fin v) (ExitTab.investorProceeds r) = true).
  { unfold r, ExitTab.exitResultsFor; cbn [ExitTab.investorProceeds].
    rewrite Ht, Hc. now apply proceeds_within. }
  unfold r, ExitTab.exitResultsFor;
    cbn [ExitTab.founderProceeds ExitTab.esopProceeds ExitTab.investorProceeds
         ExitTab.totalInvestment ExitTab.investorReturn ExitTab.founderBreakdown].
  split; [rewrite Ht, Ha; now apply proceeds_within|].
  split; [rewrite Ht, Hb; now apply proceeds_within|].
  split; [exact Pi|]. split; [exact HI|]. split.
  - apply within_nonNegative in Pi.
    unfold r, ExitTab.exitResultsFor in Pi; cbn [ExitTab.investorProceeds] in Pi.
    apply nonNegative_Fin in Pi as (p & Hp & Hp0). rewrite Hp.
    apply nonNegative_Fin in HI as (T & HT & HT0). rewrite HT.
    destruct (JS.Fin T > JS.num 0)%js eqn:G; [|reflexivity].
    apply gt_Fin_0 in G. rewrite div_Fin by now apply Qc_pos_neq0.
    apply nonNegative_Fin. eexists. split; [reflexivity|].
    qc2q. apply Qle_shift_div_l; lra.
  - apply Forall_map, Forall_forall. intros F Hin.
    destruct (wellFormed_founder sd F Hwf Hin) as (e & s & He' & Hs & He0 & Hes).
    rewrite Ha in Hs. injection Hs as <-.
    unfold ExitTab.founderEntry; cbn [ExitTab.currentEquity ExitTab.proceeds].
    rewrite Ht, He'.
    assert (e <= t)%Qc by now apply Qcle_trans with a.
    split; [now apply dilute_percentage | now apply proceeds_within].
Qed.

Lemma exit_results_are_bounded_funded :
  within (JS.num 10000000)
    (ExitTab.investorProceeds
       (ExitTab.exitResultsFor Sample.funded (JS.num 10000000) "ipo")) = true.
Proof.
  apply (exit_results_are_bounded Sample.funded (Q2Qc (inject_Z 10000000)) "ipo").
  - reflexivity.
  - reflexivity.
  - now apply Qcle_alt.
Defined.

(** ** The founder breakdown adds up *)

Lemma fold_add_map {A B : Type} (g : B -> JS.number) (h : A -> B)
    (xs : list A) :
  forall acc,
    fold_left (fun sum x => (sum + g x)%js) (map h xs) acc
    = fold_left (fun sum x => (sum + g (h x))%js) xs acc.
Proof. induction xs as [|y ys IH]; intro acc; simpl; [reflexivity | apply IH]. Qed.

Lemma fold_add_scaled {A : Type} (f g : A -> JS.number) (c : Qc)
    (xs : list A) :
  forall acc s : Qc,
    (forall x, In x xs -> exists a, f x = JS.Fin a /\ g x = JS.Fin (a * c)) ->
    fold_left (fun sum x => (sum + f x)%js) xs (JS.Fin acc) = JS.Fin s ->
    fold_left (fun sum x => (sum + g x)%js) xs (JS.Fin (acc * c))
    = JS.Fin (s * c).
Proof.
  induction xs as [|y ys IH]; intros acc s H Hs; simpl in *.
  - now injection Hs as ->.
  - destruct (H y (or_introl eq_refl)) as (a & Ha & Hg).
    rewrite Ha in Hs. rewrite Hg. simpl in *.
    replace (acc * c + a * c)%Qc with ((acc + a) * c)%Qc by ring.
    apply IH; [|assumption]. intros x Hx. apply H. now right.
Qed.

Lemma sumOf_scaled {A B : Type} (f : A -> JS.number) (g : B -> JS.number)
    (h : A -> B) (c : Qc) (xs : list A) (s : Qc) :
  (forall x, In x xs -> exists a, f x = JS.Fin a /\ g (h x) = JS.Fin (a * c)) ->
  sumOf f xs = JS.Fin s ->
  sumOf g (map h xs) = JS.Fin (s * c).
Proof.
  intros H Hs. unfold sumOf in *. rewrite fold_add_map.
  replace (JS.num 0) with (JS.Fin (0 * c)) by (unfold JS.num; f_equal;
        change (Q2Qc (inject_Z 0)) with 0%Qc; ring).
  now apply (fold_add_scaled f).
Qed.

(** When the total is a finite number above 0 and the exit valuation is
    finite, the breakdown lists the founders in their order, the diluted
    equities of the founders add up to the founders' diluted share and
    their proceeds add up to the founders' proceeds. *)
Theorem founder_breakdown_adds_up (sd : ScenarioData.t) (v : Qc)
    (exitType : string) :
  JS.isFinite (ExitTab.totalEquityOf sd) = true ->
  (ExitTab.totalEquityOf sd > JS.num 0)%js = true ->
  let r := ExitTab.exitResultsFor sd (JS.Fin v) exitType in
  map ExitTab.name (ExitTab.founderBreakdown r)
  = map Founder.name (ScenarioData.founders sd)
  /\ map ExitTab.originalEquity (ExitTab.founderBreakdown r)
     = map Founder.equity (ScenarioData.founders sd)
  /\ sumOf ExitTab.currentEquity (ExitTab.founderBreakdown r)
     = dilute (ExitTab.totalEquityOf sd)
         (sumOf Founder.equity (ScenarioData.founders sd))
  /\ sumOf ExitTab.proceeds (ExitTab.founderBreakdown r)
     = ExitTab.founderProceeds r.
Proof.
  intros Hfin Hpos r.
  destruct (finite_positive _ Hfin Hpos) as (t & Ht & Ht0).
  pose proof (Qc_pos_neq0 t Ht0) as Hne.
  unfold r, ExitTab.exitResultsFor;
    cbn [ExitTab.founderBreakdown ExitTab.founderProceeds].
  unfold ExitTab.totalEquityOf in *. rewrite Ht.
  apply add_Fin_inv in Ht as (fe & c & Hfe & _ & _).
  apply add_Fin_inv in Hfe as (s & b & Hs & _ & _).
  rewrite Hs. rewrite !map_map. split; [reflexivity|]. split; [reflexivity|].
  split.
  - rewrite (sumOf_scaled Founder.equity ExitTab.currentEquity _
               (/ t * Q2Qc (inject_Z 100)) _ s); [| |exact Hs].
    + rewrite dilute_Fin by assumption. f_equal. now field.
    + intros F Hin. destruct (sumOf_Fin _ _ _ Hs F Hin) as (a & Ha).
      exists a. split; [assumption|].
      unfold ExitTab.founderEntry; cbn [ExitTab.currentEquity].
      rewrite Ha, dilute_Fin by assumption. f_equal. now field.
  - rewrite (sumOf_scaled Founder.equity ExitTab.proceeds _
               (/ t * v) _ s); [| |exact Hs].
    + rewrite dilute_Fin by assumption.
      unfold JS.num. rewrite (div_Fin _ _ hundred_neq0). simpl. f_equal.
      field. split; [assumption | apply hundred_neq0].
    + intros F Hin. destruct (sumOf_Fin _ _ _ Hs F Hin) as (a & Ha).
      exists a. split; [assumption|].
      unfold ExitTab.founderEntry; cbn [ExitTab.proceeds].
      rewrite Ha, dilute_Fin by assumption.
      unfold JS.num. rewrite (div_Fin _ _ hundred_neq0). simpl. f_equal.
      field. split; [assumption | apply hundred_neq0].
Qed.

Lemma founder_breakdown_adds_up_funded :
  let r := ExitTab.exitResultsFor Sample.funded (JS.num 10000000) "ipo" in
  sumOf ExitTab.proceeds (ExitTab.founderBreakdown r) = ExitTab.founderProceeds r.
Proof.
  apply (founder_breakdown_adds_up Sample.funded (Q2Qc (inject_Z 10000000)) "ipo");
    reflexivity.
Defined.

(** ** A new round dilutes the others *)

Lemma share_shrinks_to (a t t' : Qc) :
  (0 <= a)%Qc -> (0 < t)%Qc -> (t <= t')%Qc ->
  (a / t' * Q2Qc (inject_Z 100) <= a / t * Q2Qc (inject_Z 100))%Qc.
Proof.
  intros H0 H1 H2.
  replace t' with (t + (t' - t))%Qc by ring.
  apply share_shrinks; try assumption. qc2q. lra.
Qed.

Lemma share_grows (c t e : Qc) :
  (0 <= c)%Qc -> (c <= t)%Qc -> (0 < t)%Qc -> (0 <= e)%Qc ->
  (c / t * Q2Qc (inject_Z 100) <= (c + e) / (t + e) * Q2Qc (inject_Z 100))%Qc.
Proof.
  intros H0 H1 H2 H3. qc2q.
  assert (K1 : (this c / this t <= 1)%Q) by (apply Qle_shift_div_r; lra).
  assert (K0 : (0 <= this c / this t)%Q) by (apply Qle_shift_div_l; lra).
  assert (E : (this c / this t <= (this c + this e) / (this t + this e))%Q).
  { apply Qle_shift_div_l; [lra|].
    setoid_replace (this c / this t * (this t + this e))%Q
      with (this c + this c / this t * this e)%Q by (field; lra).
    nra. }
  unfold Qdiv in *. lra.
Qed.

(** In exact arithmetic, adding a round with a finite investment that is
    not negative and a finite positive valuation to a well-formed
    aggregate with a positive total never raises the share of the
    founders, of the pool or of any single founder, and never lowers the
    share of the investors.  (In binary64 a share can move by a rounding
    error in the other direction.) *)
Theorem new_round_dilutes (sd : ScenarioData.t) (round : Round.t) :
  wellFormed sd = true ->
  nonNegative (Round.investment round) = true ->
  positive (Round.valuation round) = true ->
  (AnalysisTab.totalEquity (Some sd) > JS.num 0)%js = true ->
  let after := Some (withRound sd round) in
  (AnalysisTab.dilutedFounderEquity after
   <= AnalysisTab.dilutedFounderEquity (Some sd))%js = true
  /\ (AnalysisTab.dilutedEsopEquity after
      <= AnalysisTab.dilutedEsopEquity (Some sd))%js = true
  /\ (AnalysisTab.dilutedInvestorEquity (Some sd)
      <= AnalysisTab.dilutedInvestorEquity after)%js = true
  /\ forall F, In F (ScenarioData.founders sd) ->
       (AnalysisTab.currentEquity (AnalysisTab.founderRow after F)
        <= AnalysisTab.currentEquity (AnalysisTab.founderRow (Some sd) F))%js
       = true.
Proof.
  intros Hwf Hinv Hval Hpos after.
  destruct (wellFormed_sums sd Hwf) as (Hf & He & Hi & _).
  pose proof (roundEquity_nonNegative round Hinv Hval) as Hr.
  assert (Hi' : nonNegative (sumOf roundEquity
                                (ScenarioData.rounds (withRound sd round))) = true).
  { unfold withRound; cbn [ScenarioData.rounds]. rewrite sumOf_app.
    now apply nonNegative_add. }
  destruct (tabs_agree_total sd) as (Et & Ef & Ei);
    try now apply nonNegative_not_NaN.
  destruct (tabs_agree_total (withRound sd round)) as (Et' & Ef' & Ei');
    try now apply nonNegative_not_NaN.
  unfold AnalysisTab.dilutedFounderEquity, AnalysisTab.dilutedEsopEquity,
    AnalysisTab.dilutedInvestorEquity, AnalysisTab.founderRow, after;
    cbn [AnalysisTab.currentEquity].
  rewrite Et in Hpos. rewrite Et, Et', Ef, Ef', Ei, Ei'.
  change (AnalysisTab.esopEquity (Some (withRound sd round)))
    with (firstEsopOrZero (ScenarioData.esop sd)).
  change (AnalysisTab.esopEquity (Some sd))
    with (firstEsopOrZero (ScenarioData.esop sd)).
  unfold ExitTab.totalEquityOf in *. unfold withRound in *;
    cbn [ScenarioData.rounds ScenarioData.founders ScenarioData.esop] in *.
  rewrite sumOf_app in *.
  apply nonNegative_Fin in Hr as (e & Hr & He0). rewrite Hr in *.
  assert (Hm : forall F, In F (ScenarioData.founders sd) ->
             exists x s, Founder.equity F = JS.Fin x
               /\ sumOf Founder.equity (ScenarioData.founders sd) = JS.Fin s
               /\ (0 <= x)%Qc /\ (x <= s)%Qc)
    by (intros F Hin; now apply wellFormed_founder).
  apply nonNegative_Fin in Hf as (a & Hf & Ha0). rewrite Hf in *.
  apply nonNegative_Fin in He as (b & He & Hb0). rewrite He in *.
  apply nonNegative_Fin in Hi as (c & Hi & Hc0). rewrite Hi in *.
  simpl JS.add in *. apply gt_Fin_0 in Hpos.
  assert (Hpos' : (0 < a + b + (c + e))%Qc) by (qc2q; lra).
  assert (Hle : (a + b + c <= a + b + (c + e))%Qc) by (qc2q; lra).
  rewrite !dilute_Fin by assumption.
  repeat split.
  - apply le_Fin_Fin. now apply share_shrinks_to.
  - apply le_Fin_Fin. now apply share_shrinks_to.
  - apply le_Fin_Fin.
    replace (a + b + (c + e))%Qc with ((a + b + c) + e)%Qc by ring.
    apply share_grows; try assumption. qc2q. lra.
  - intros F Hin. destruct (Hm F Hin) as (x & s & Hx & [= <-] & Hx0 & _).
    rewrite Hx, !dilute_Fin by assumption.
    apply le_Fin_Fin. now apply share_shrinks_to.
Qed.

Lemma new_round_dilutes_funded :
  (AnalysisTab.dilutedFounderEquity (Some (withRound Sample.funded Sample.seriesA))
   <= AnalysisTab.dilutedFounderEquity (Some Sample.funded))%js = true
  /\ AnalysisTab.dilutedFounderEquity (Some (withRound Sample.funded Sample.seriesA))
     = (JS.num 100 / JS.num 150 * JS.num 100)%js
  /\ AnalysisTab.dilutedFounderEquity (Some Sample.funded)
     = (JS.num 100 / JS.num 130 * JS.num 100)%js.
Proof.
  assert (Hw : wellFormed Sample.funded = true) by (vm_compute; reflexivity).
  assert (Hi : nonNegative (Round.investment Sample.seriesA) = true)
    by (vm_compute; reflexivity).
  assert (Hv : positive (Round.valuation Sample.seriesA) = true)
    by (vm_compute; reflexivity).
  assert (Ht : (AnalysisTab.totalEquity (Some Sample.funded) > JS.num 0)%js = true)
    by (vm_compute; reflexivity).
  split; [|split; js_compute].
  exact (proj1 (new_round_dilutes Sample.funded Sample.seriesA Hw Hi Hv Ht)).
Defined.

(** ** The latest valuation *)

Lemma ge_Fin_Fin (a b : Qc) : (JS.Fin a >= JS.Fin b)%js = true <-> (b <= a)%Qc.
Proof.
  unfold JS.ge, JS.cmp. split.
  - destruct (a ?= b)%Qc eqn:E; try discriminate; intros _.
    + apply Qceq_alt in E. rewrite E. apply Qcle_refl.
    + apply Qclt_le_weak. now apply Qcgt_alt.
  - intro H. destruct (a ?= b)%Qc eqn:E; try reflexivity.
    apply Qclt_alt in E. now apply Qcle_not_lt in H.
Qed.

Lemma ge_refl (x : JS.number) : JS.isNaN x = false -> (x >= x)%js = true.
Proof.
  destruct x as [a| | |]; try discriminate; try reflexivity.
  intros _. apply ge_Fin_Fin, Qcle_refl.
Qed.

Lemma ge_trans (x y z : JS.number) :
  (x >= y)%js = true -> (y >= z)%js = true -> (x >= z)%js = true.
Proof.
  destruct x as [a| | |], y as [b| | |], z as [c| | |];
    try discriminate; try reflexivity.
  rewrite !ge_Fin_Fin. intros H1 H2. now apply Qcle_trans with b.
Qed.

Lemma max2_cases (x y : JS.number) :
  JS.isNaN x = false -> JS.isNaN y = false ->
  (JS.max2 x y = x /\ (x >= y)%js = true)
  \/ (JS.max2 x y = y /\ (y >= x)%js = true).
Proof.
  destruct x as [a| | |], y as [b| | |]; try discriminate; intros _ _;
    try (left; split; reflexivity); try (right; split; reflexivity).
  unfold JS.max2, JS.cmp.
  destruct (a ?= b)%Qc eqn:E.
  - left. split; [reflexivity|]. apply ge_Fin_Fin.
    apply Qceq_alt in E. rewrite E. apply Qcle_refl.
  - right. split; [reflexivity|]. apply ge_Fin_Fin.
    apply Qclt_le_weak. now apply Qclt_alt.
  - left. split; [reflexivity|]. apply ge_Fin_Fin.
    apply Qclt_le_weak. now apply Qcgt_alt.
Qed.

Lemma fold_max2 (xs : list JS.number) :
  forall acc,
    JS.isNaN acc = false ->
    forallb (fun x => negb (JS.isNaN x)) xs = true ->
    let m := fold_left JS.max2 xs acc in
    JS.isNaN m = false
    /\ (m >= acc)%js = true
    /\ (forall x, In x xs -> (m >= x)%js = true)
    /\ (m = acc \/ In m xs).
Proof.
  induction xs as [|y ys IH]; intros acc Hacc H; simpl in *.
  - repeat split; [assumption | now apply ge_refl | intros x [] | now left].
  - apply andb_true_iff in H as [Hy Hys]. apply negb_true_iff in Hy.
    destruct (max2_cases acc y Hacc Hy) as [[E G] | [E G]]; rewrite E.
    + destruct (IH acc Hacc Hys) as (N & Ga & Gx & Hm).
      repeat split; try assumption.
      * intros x [<- | Hx]; [now apply ge_trans with acc | now apply Gx].
      * destruct Hm as [Hm | Hm]; [now left | right; now right].
    + destruct (IH y Hy Hys) as (N & Ga & Gx & Hm).
      repeat split; try assumption.
      * now apply ge_trans with y.
      * intros x [<- | Hx]; [assumption | now apply Gx].
      * right. destruct Hm as [Hm | Hm]; [left; now symmetry | now right].
Qed.

Lemma fold_max2_NaN (xs : list JS.number) :
  fold_left JS.max2 xs JS.NaN = JS.NaN.
Proof. induction xs as [|y ys IH]; simpl; [reflexivity | apply IH]. Qed.

Lemma fold_max2_poisoned (xs : list JS.number) :
  forall acc,
    existsb JS.isNaN xs = true -> fold_left JS.max2 xs acc = JS.NaN.
Proof.
  induction xs as [|y ys IH]; intros acc H; simpl in *; [discriminate|].
  apply orb_true_iff in H as [H | H].
  - destruct y; try discriminate.
    replace (JS.max2 acc JS.NaN) with JS.NaN by now destruct acc.
    apply fold_max2_NaN.
  - now apply IH.
Qed.

(** The latest valuation shown on the analysis tab is 0 without rounds
    and NaN as soon as the valuation of a round is NaN; otherwise it is
    the valuation of one of the rounds and no round has a larger one. *)
Theorem latestValuation_is_largest (sd : ScenarioData.t) :
  (ScenarioData.rounds sd = [] ->
   AnalysisTab.latestValuation (Some sd) = JS.num 0)
  /\ (existsb (fun r => JS.isNaN (Round.valuation r)) (ScenarioData.rounds sd)
      = true ->
      AnalysisTab.latestValuation (Some sd) = JS.NaN)
  /\ (ScenarioData.rounds sd <> [] ->
      existsb (fun r => JS.isNaN (Round.valuation r)) (ScenarioData.rounds sd)
      = false ->
      (exists r, In r (ScenarioData.rounds sd)
                 /\ AnalysisTab.latestValuation (Some sd) = Round.valuation r)
      /\ forall r, In r (ScenarioData.rounds sd) ->
           (AnalysisTab.latestValuation (Some sd) >= Round.valuation r)%js
           = true).
Proof.
  unfold AnalysisTab.latestValuation.
  destruct (ScenarioData.rounds sd) as [|r0 rs] eqn:Hr.
  - split; [reflexivity|]. split; [discriminate|]. intros C. now contradiction C.
  - set (vs := map Round.valuation (r0 :: rs)).
    split; [discriminate|]. split.
    + intro H. apply fold_max2_poisoned.
      unfold vs. rewrite existsb_exists in *.
      destruct H as (r & Hin & Hn). exists (Round.valuation r).
      split; [now apply in_map | assumption].
    + intros _ H.
      assert (Hv : forallb (fun x => negb (JS.isNaN x)) vs = true).
      { unfold vs. rewrite forallb_forall. intros x Hx.
        apply in_map_iff in Hx as (r & <- & Hin).
        apply negb_true_iff.
        destruct (JS.isNaN (Round.valuation r)) eqn:E; [|reflexivity].
        rewrite <- H. symmetry. apply existsb_exists. now exists r. }
      destruct (fold_max2 vs JS.NInf eq_refl Hv) as (_ & _ & Gx & Hm).
      fold (JS.Math_max vs) in *. split.
      * destruct Hm as [Hm | Hm].
        -- exists r0. split; [now left|].
           assert (G : (JS.Math_max vs >= Round.valuation r0)%js = true)
             by (apply Gx; now left).
           rewrite Hm in *. now destruct (Round.valuation r0).
        -- apply in_map_iff in Hm as (r & E & Hin). now exists r.
      * intros r Hin. apply Gx. now apply in_map.
Qed.

Lemma latestValuation_is_largest_funded :
  (AnalysisTab.latestValuation (Some Sample.funded)
   >= Round.valuation Sample.seed)%js = true.
Proof.
  apply (proj2 (proj2 (latestValuation_is_largest Sample.funded))).
  - discriminate.
  - reflexivity.
  - simpl. now left.
Defined.

(** ** Rows added through the gateway are read back *)

Lemma faults_failed (w : World) : faults (failed w) = faults w.
Proof. reflexivity. Qed.

Lemma getScenarioById_quiet (id : string) (w : World) :
  faults w = [] ->
  fst (SupabaseFunctions.getScenarioById id w) = Value (aggregateOf w id).
Proof.
  intro Hf.
  unfold SupabaseFunctions.getScenarioById, try_catch, bind, both,
    select_single, select_where, request, answer, aggregateOf.
  rewrite Hf.
  destruct (filter _ (scenarios w)) as [|? [|? ?]];
    repeat (cbn; rewrite ?faults_failed, ?Hf); reflexivity.
Qed.

Lemma aggregateOf_inv (w : World) (id : string) (sd : ScenarioData.t) :
  aggregateOf w id = Some sd ->
  filter (fun r => String.eqb (Scenario.id r) id) (scenarios w)
  = [ScenarioData.scenario sd]
  /\ ScenarioData.founders sd
     = filter (fun r => String.eqb (Founder.scenario_id r) id) (founders w)
  /\ ScenarioData.rounds sd
     = filter (fun r => String.eqb (Round.scenario_id r) id) (rounds w)
  /\ ScenarioData.esop sd
     = filter (fun r => String.eqb (ESOP.scenario_id r) id) (esop w).
Proof.
  unfold aggregateOf.
  destruct (filter _ (scenarios w)) as [|row [|? ?]]; try discriminate.
  intros [= <-]. repeat split.
Qed.

Ltac run_quiet Hf :=
  unfold SupabaseFunctions.addFounder, SupabaseFunctions.addRound,
    SupabaseFunctions.addEsop, SupabaseFunctions.updateFounder,
    SupabaseFunctions.updateRound, SupabaseFunctions.updateEsop,
    SupabaseFunctions.updateScenario, SupabaseFunctions.deleteFounder,
    SupabaseFunctions.deleteRound, SupabaseFunctions.deleteEsop,
    SupabaseFunctions.reportRow, SupabaseFunctions.reportSuccess,
    try_catch, bind, insert_row, update_where, delete_where, request, answer;
  rewrite ?Hf; cbn.

(** Without faults, a founder, a round or a pool added to a scenario that
    can be read is returned with the fields given, and the next read of
    the scenario shows it after the rows that were there. *)
Theorem added_rows_are_read_back (w : World) (id : string)
    (sd : ScenarioData.t) :
  faults w = [] ->
  fst (SupabaseFunctions.getScenarioById id w) = Value (Some sd) ->
  (forall founder,
      let row := NewFounder.row id (rowId (tick w)) founder in
      let '(r, w1) := SupabaseFunctions.addFounder id founder w in
      r = Value (Some row)
      /\ fst (SupabaseFunctions.getScenarioById id w1)
         = Value (Some (ScenarioData.mk (ScenarioData.scenario sd)
                          (ScenarioData.founders sd ++ [row])
                          (ScenarioData.rounds sd) (ScenarioData.esop sd))))
  /\ (forall round,
         let row := NewRound.row id (rowId (tick w)) round in
         let '(r, w1) := SupabaseFunctions.addRound id round w in
         r = Value (Some row)
         /\ fst (SupabaseFunctions.getScenarioById id w1)
            = Value (Some (withRound sd row)))
  /\ (forall pool,
         let row := NewESOP.row id (rowId (tick w)) pool in
         let '(r, w1) := SupabaseFunctions.addEsop id pool w in
         r = Value (Some row)
         /\ fst (SupabaseFunctions.getScenarioById id w1)
            = Value (Some (ScenarioData.mk (ScenarioData.scenario sd)
                             (ScenarioData.founders sd) (ScenarioData.rounds sd)
                             (ScenarioData.esop sd ++ [row])))).
Proof.
  intros Hf H. rewrite getScenarioById_quiet in H by assumption.
  injection H as H. apply aggregateOf_inv in H as (Hs & Hfo & Hr & He).
  repeat split; intros x row; run_quiet Hf;
    (split; [reflexivity|]);
    rewrite getScenarioById_quiet by exact Hf;
    unfold aggregateOf, withRound; cbn; rewrite Hs, ?filter_app; cbn;
    rewrite String.eqb_refl, Hfo, Hr, He; reflexivity.
Qed.

Lemma added_rows_are_read_back_stocked :
  let x := NewRound.mk "Series A" (JS.num 2000000) (JS.num 20000000) in
  fst (SupabaseFunctions.getScenarioById "s1"
         (snd (SupabaseFunctions.addRound "s1" x Sample.stocked)))
  = Value (Some (withRound Sample.funded (NewRound.row "s1" (rowId 0) x))).
Proof.
  intro x.
  pose proof (proj1 (proj2 (added_rows_are_read_back Sample.stocked "s1"
                              Sample.funded eq_refl eq_refl)) x) as H.
  destruct (SupabaseFunctions.addRound "s1" x Sample.stocked) as [r w1].
  exact (proj2 H).
Defined.

(** ** Rows that do not exist *)

Lemma map_unmatched {A : Type} (p : A -> bool) (f : A -> A) (l : list A) :
  (forall x, In x l -> p x = false) ->
  map (fun r => if p r then f r else r) l = l.
Proof.
  induction l as [|y ys IH]; intro H; simpl; [reflexivity|].
  rewrite (H y (or_introl eq_refl)), IH; [reflexivity|].
  intros x Hx. apply H. now right.
Qed.

Lemma filter_unmatched {A : Type} (p : A -> bool) (l : list A) :
  (forall x, In x l -> p x = false) ->
  filter (fun r => negb (p r)) l = l.
Proof.
  induction l as [|y ys IH]; intro H; simpl; [reflexivity|].
  rewrite (H y (or_introl eq_refl)). simpl. rewrite IH; [reflexivity|].
  intros x Hx. apply H. now right.
Qed.

Lemma eqb_unmatched {A : Type} (key : A -> string) (id : string) (l : list A) :
  (forall x, In x l -> key x <> id) ->
  forall x, In x l -> String.eqb (key x) id = false.
Proof. intros H x Hx. apply String.eqb_neq. now apply H. Qed.

(** Without faults, updating or deleting a founder, a round or a pool
    whose identifier is not in the store reports success and leaves every
    table as it was. *)
Theorem missing_rows_report_success (w : World) (id : string) :
  faults w = [] ->
  (forall x, In x (founders w) -> Founder.id x <> id) ->
  (forall x, In x (rounds w) -> Round.id x <> id) ->
  (forall x, In x (esop w) -> ESOP.id x <> id) ->
  forall op,
    In op [SupabaseFunctions.deleteFounder id;
           SupabaseFunctions.deleteRound id;
           SupabaseFunctions.deleteEsop id]
    \/ (exists u, op = SupabaseFunctions.updateFounder id u)
    \/ (exists u, op = SupabaseFunctions.updateRound id u)
    \/ (exists u, op = SupabaseFunctions.updateEsop id u) ->
    fst (op w) = Value true /\ sameTables w (snd (op w)).
Proof.
  intros Hf HF HR HE op Hop.
  pose proof (eqb_unmatched Founder.id id _ HF) as HF'.
  pose proof (eqb_unmatched Round.id id _ HR) as HR'.
  pose proof (eqb_unmatched ESOP.id id _ HE) as HE'.
  destruct Hop as [[<- | [<- | [<- | []]]] | [[u ->] | [[u ->] | [u ->]]]];
    run_quiet Hf; (split; [reflexivity|]); unfold sameTables; cbn;
    rewrite ?filter_unmatched, ?map_unmatched by assumption; repeat split.
Qed.

Lemma missing_rows_report_success_stocked :
  fst (SupabaseFunctions.deleteRound "r9" Sample.stocked) = Value true
  /\ sameTables Sample.stocked
       (snd (SupabaseFunctions.deleteRound "r9" Sample.stocked)).
Proof.
  apply (missing_rows_report_success Sample.stocked "r9").
  - reflexivity.
  - simpl. intros x [<- | [<- | []]]; discriminate.
  - simpl. intros x [<- | []]; discriminate.
  - simpl. intros x [<- | []]; discriminate.
  - left. right. now left.
Defined.

(** ** Deleting a scenario *)

Lemma filter_removed {A : Type} (key : A -> string) (id : string) (l : list A) :
  filter (fun r => String.eqb (key r) id)
    (filter (fun r => negb (String.eqb (key r) id)) l) = [].
Proof.
  induction l as [|y ys IH]; simpl; [reflexivity|].
  destruct (String.eqb (key y) id) eqn:E; simpl; [assumption|].
  now rewrite E.
Qed.

Lemma filter_kept {A : Type} (key : A -> string) (id other : string)
    (l : list A) :
  other <> id ->
  filter (fun r => String.eqb (key r) other)
    (filter (fun r => negb (String.eqb (key r) id)) l)
  = filter (fun r => String.eqb (key r) other) l.
Proof.
  intro H. induction l as [|y ys IH]; simpl; [reflexivity|].
  destruct (String.eqb (key y) id) eqn:E; simpl.
  - apply String.eqb_eq in E.
    assert (N : String.eqb (key y) other = false)
      by (apply String.eqb_neq; congruence).
    now rewrite N.
  - now rewrite IH.
Qed.

Ltac run_delete Hf :=
  unfold SupabaseFunctions.deleteScenario, try_catch, bind, both,
    delete_where, request, answer;
  repeat (cbn; rewrite ?faults_failed, ?Hf).

(** Without faults, [deleteScenario] reports success; afterwards the
    scenario can no longer be read, none of its founders, rounds and pools
    is left, and every other scenario is read exactly as before. *)
Theorem deleteScenario_removes_one_scenario (w : World) (id : string) :
  faults w = [] ->
  let '(r, w') := SupabaseFunctions.deleteScenario id w in
  r = Value true
  /\ fst (SupabaseFunctions.getScenarioById id w') = Value None
  /\ (forall x, In x (founders w') -> Founder.scenario_id x <> id)
  /\ (forall x, In x (rounds w') -> Round.scenario_id x <> id)
  /\ (forall x, In x (esop w') -> ESOP.scenario_id x <> id)
  /\ forall other, other <> id ->
       fst (SupabaseFunctions.getScenarioById other w')
       = fst (SupabaseFunctions.getScenarioById other w).
Proof.
  intro Hf. run_delete Hf. split; [reflexivity|].
  split; [|split; [|split; [|split]]].
  - rewrite getScenarioById_quiet by exact Hf.
    unfold aggregateOf; cbn. now rewrite filter_removed.
  - intros x Hx. apply filter_In in Hx as [_ Hx].
    apply negb_true_iff in Hx. now apply String.eqb_neq.
  - intros x Hx. apply filter_In in Hx as [_ Hx].
    apply negb_true_iff in Hx. now apply String.eqb_neq.
  - intros x Hx. apply filter_In in Hx as [_ Hx].
    apply negb_true_iff in Hx. now apply String.eqb_neq.
  - intros other Hne. rewrite !getScenarioById_quiet by exact Hf.
    unfold aggregateOf; cbn. now rewrite !filter_kept.
Qed.

Lemma deleteScenario_removes_one_scenario_stocked :
  fst (SupabaseFunctions.getScenarioById "s1"
         (snd (SupabaseFunctions.deleteScenario "s1" Sample.stocked)))
  = Value None.
Proof.
  pose proof (deleteScenario_removes_one_scenario Sample.stocked "s1" eq_refl)
    as H.
  destruct (SupabaseFunctions.deleteScenario "s1" Sample.stocked) as [r w'].
  exact (proj1 (proj2 H)).
Defined.

(** When the three deletes of child rows go through and the delete of the
    scenario row fails, [deleteScenario] reports failure although the
    founders, rounds and pools of the scenario are gone and the scenario
    row is still there. *)
Theorem deleteScenario_not_atomic (w : World) (id : string) (f : Fault)
    (plan : list Fault) :
  faults w = NoFault :: NoFault :: NoFault :: f :: plan ->
  isFault f = true ->
  let '(r, w') := SupabaseFunctions.deleteScenario id w in
  r = Value false
  /\ scenarios w' = scenarios w
  /\ founders w'
     = filter (fun x => negb (String.eqb (Founder.scenario_id x) id)) (founders w)
  /\ rounds w'
     = filter (fun x => negb (String.eqb (Round.scenario_id x) id)) (rounds w)
  /\ esop w'
     = filter (fun x => negb (String.eqb (ESOP.scenario_id x) id)) (esop w).
Proof.
  intros Hf Hfault.
  unfold SupabaseFunctions.deleteScenario, try_catch, bind, both,
    delete_where, request, answer.
  rewrite Hf. cbn. destruct f; [discriminate| |]; cbn; repeat split.
Qed.

Lemma deleteScenario_not_atomic_stocked :
  let w := with_faults [NoFault; NoFault; NoFault; ErrorReply "timeout"]
             Sample.stocked in
  fst (SupabaseFunctions.deleteScenario "s1" w) = Value false
  /\ founders (snd (SupabaseFunctions.deleteScenario "s1" w)) = []
  /\ scenarios (snd (SupabaseFunctions.deleteScenario "s1" w)) = [Sample.acme].
Proof.
  intro w.
  pose proof (deleteScenario_not_atomic w "s1" (ErrorReply "timeout") []
                eq_refl eq_refl) as H.
  destruct (SupabaseFunctions.deleteScenario "s1" w) as [r w'].
  destruct H as (-> & Hs & Hfo & _). cbn [fst snd]. rewrite Hs, Hfo.
  split; [reflexivity|]. split; reflexivity.
Defined.

(** ** A created scenario is read back *)

Lemma filter_none {A : Type} (p : A -> bool) (l : list A) :
  (forall x, In x l -> p x = false) -> filter p l = [].
Proof.
  induction l as [|y ys IH]; intro H; simpl; [reflexivity|].
  rewrite (H y (or_introl eq_refl)). apply IH. intros x Hx. apply H. now right.
Qed.

Lemma filter_number_rows {A B : Type} (p : B -> bool) (mk : string -> A -> B)
    (xs : list A) :
  (forall i x, p (mk i x) = true) ->
  forall n, filter p (number_rows mk n xs) = number_rows mk n xs.
Proof.
  intro H. induction xs as [|y ys IH]; intro n; simpl; [reflexivity|].
  now rewrite H, IH.
Qed.

Lemma map_number_rows {A B C : Type} (g : B -> C) (h : A -> C)
    (mk : string -> A -> B) (xs : list A) :
  (forall i x, g (mk i x) = h x) ->
  forall n, map g (number_rows mk n xs) = map h xs.
Proof.
  intro H. induction xs as [|y ys IH]; intro n; simpl; [reflexivity|].
  now rewrite H, IH.
Qed.

(** Without faults and with a fresh key, [createScenario] returns an
    aggregate with the name, the founders, the rounds and the pools of the
    request, in their order, and reading the new scenario returns that
    same aggregate. *)
Theorem created_scenario_is_read_back (w : World)
    (data : CreateScenarioRequest.t) :
  faults w = [] -> freshKey w ->
  let '(r, w1) := SupabaseFunctions.createScenario data w in
  exists sd,
    r = Value (Some sd)
    /\ Scenario.name (ScenarioData.scenario sd) = CreateScenarioRequest.name data
    /\ map Founder.name (ScenarioData.founders sd)
       = map NewFounder.name (CreateScenarioRequest.founders data)
    /\ map Founder.equity (ScenarioData.founders sd)
       = map NewFounder.equity (CreateScenarioRequest.founders data)
    /\ map Round.valuation (ScenarioData.rounds sd)
       = map NewRound.valuation
           (match CreateScenarioRequest.rounds data with
            | Some xs => xs
            | None => []
            end)
    /\ map ESOP.percentage (ScenarioData.esop sd)
       = map NewESOP.percentage
           (match CreateScenarioRequest.esop data with
            | Some xs => xs
            | None => []
            end)
    /\ fst (SupabaseFunctions.getScenarioById
              (Scenario.id (ScenarioData.scenario sd)) w1)
       = Value (Some sd).
Proof.
  intros Hf (Ks & Kf & Kr & Ke).
  pose proof (eqb_unmatched Scenario.id _ _ Ks) as Ks'.
  pose proof (eqb_unmatched Founder.scenario_id _ _ Kf) as Kf'.
  pose proof (eqb_unmatched Round.scenario_id _ _ Kr) as Kr'.
  pose proof (eqb_unmatched ESOP.scenario_id _ _ Ke) as Ke'.
  unfold SupabaseFunctions.createScenario, try_catch, bind,
    SupabaseFunctions.scenarios_insert, insert_rows, request, answer.
  rewrite Hf.
  destruct (CreateScenarioRequest.rounds data) as [[|x xs]|];
    destruct (CreateScenarioRequest.esop data) as [[|e es]|];
    repeat (cbn -[number_rows rowId stamp]; rewrite ?Hf);
    (eexists; split; [reflexivity|]);
    cbn [ScenarioData.scenario ScenarioData.founders ScenarioData.rounds
         ScenarioData.esop newScenario Scenario.name Scenario.id];
    (split; [reflexivity|]);
    (split; [now apply map_number_rows|]);
    (split; [now apply map_number_rows|]);
    (split; [try reflexivity;
             now apply (map_number_rows Round.valuation NewRound.valuation)|]);
    (split; [try reflexivity;
             now apply (map_number_rows ESOP.percentage NewESOP.percentage)|]);
    rewrite getScenarioById_quiet by exact Hf;
    unfold aggregateOf; cbn -[number_rows rowId stamp];
    rewrite ?filter_app, (filter_none _ (scenarios w)) by exact Ks';
    cbn -[number_rows rowId stamp];
    rewrite String.eqb_refl;
    rewrite (filter_none _ (founders w)) by exact Kf';
    rewrite (filter_none _ (rounds w)) by exact Kr';
    rewrite (filter_none _ (esop w)) by exact Ke';
    rewrite ?filter_number_rows
      by (intros; cbn; apply String.eqb_refl);
    reflexivity.
Qed.

Lemma created_scenario_is_read_back_stocked :
  exists sd,
    fst (SupabaseFunctions.createScenario Sample.defaultRequest Sample.stocked)
    = Value (Some sd)
    /\ fst (SupabaseFunctions.getScenarioById
              (Scenario.id (ScenarioData.scenario sd))
              (snd (SupabaseFunctions.createScenario Sample.defaultRequest
                      Sample.stocked)))
       = Value (Some sd).
Proof.
  assert (K : freshKey Sample.stocked).
  { unfold freshKey; simpl. repeat split; intros x Hx;
      repeat (destruct Hx as [<- | Hx]; [discriminate|]); destruct Hx. }
  pose proof (created_scenario_is_read_back Sample.stocked
                Sample.defaultRequest eq_refl K) as H.
  destruct (SupabaseFunctions.createScenario Sample.defaultRequest
              Sample.stocked) as [r w1].
  destruct H as (sd & Hr & _ & _ & _ & _ & _ & Hg).
  exists sd. now split.
Defined.

(** ** What the forms let through *)

Lemma equity_guard (v : JS.number) :
  (JS.isNaN v || (v <= JS.num 0)%js || (v > JS.num 100)%js)%bool = false
  <-> exists e, v = JS.Fin e /\ (0 < e)%Qc /\ (e <= Q2Qc (inject_Z 100))%Qc.
Proof.
  destruct v as [e| | |]; simpl;
    try (split; [discriminate | intros (x & H & _); discriminate]).
  unfold JS.le, JS.gt, JS.num, JS.cmp.
  change (Q2Qc (inject_Z 0)) with 0%Qc. split.
  - intro H. apply orb_false_iff in H as [H1 H2].
    exists e. split; [reflexivity|]. split.
    + apply Qcgt_alt. now destruct (e ?= 0)%Qc.
    + apply Qcle_alt. now destruct (e ?= Q2Qc (inject_Z 100))%Qc.
  - intros (x & [= <-] & H0 & H1).
    rewrite (proj1 (Qcgt_alt _ _) H0). simpl.
    pose proof (proj1 (Qcle_alt _ _) H1) as C.
    now destruct (e ?= Q2Qc (inject_Z 100))%Qc.
Qed.

Ltac split_head w :=
  destruct (faults w) as [|[|?|?] ?] eqn:?.

(** Whatever the store answers, [handleAddFounder] touches no table but
    that of the founders, and there it adds at most one row: a founder of
    the loaded scenario whose name is the trimmed, non-empty text of the
    name field and whose equity is the number in the equity field, which
    is finite, above 0 and at most 100. *)
Theorem added_founders_are_valid (scenarioData : option ScenarioData.t)
    (newFounderName newFounderEquity : string) (w : World) :
  let w' := snd (SetupTab.handleAddFounder scenarioData newFounderName
                   newFounderEquity w) in
  scenarios w' = scenarios w /\ rounds w' = rounds w /\ esop w' = esop w
  /\ (founders w' = founders w
      \/ exists sd e,
           scenarioData = Some sd
           /\ JS.parseFloat newFounderEquity = JS.Fin e
           /\ (0 < e)%Qc /\ (e <= Q2Qc (inject_Z 100))%Qc
           /\ JS.trim newFounderName <> ""
           /\ founders w'
              = (founders w
                 ++ [Founder.mk (rowId (tick w))
                       (Scenario.id (ScenarioData.scenario sd))
                       (JS.trim newFounderName) (JS.Fin e)])%list).
Proof.
  unfold SetupTab.handleAddFounder.
  destruct scenarioData as [sd|]; [|cbn; auto].
  destruct (String.eqb (Scenario.id (ScenarioData.scenario sd)) "");
    [cbn; auto|].
  destruct (String.eqb_spec (JS.trim newFounderName) "") as [|Hname];
    [cbn; auto|].
  destruct (String.eqb newFounderEquity ""); [cbn; auto|]. cbn [orb].
  destruct (JS.isNaN (JS.parseFloat newFounderEquity)
            || (JS.parseFloat newFounderEquity <= JS.num 0)%js
            || (JS.parseFloat newFounderEquity > JS.num 100)%js)%bool eqn:G;
    [cbn; auto|].
  apply equity_guard in G as (e & He & H0 & H100). rewrite He.
  unfold SupabaseFunctions.addFounder, SupabaseFunctions.reportRow, try_catch,
    bind, insert_row, request, answer, toast, console_error.
  split_head w; cbn; repeat split; auto;
    right; exists sd, e; repeat split; auto.
Qed.

Lemma above_zero (v : JS.number) :
  (JS.isNaN v || (v <= JS.num 0)%js)%bool = false ->
  (v > JS.num 0)%js = true.
Proof.
  intro H. apply guard_passes in H as [-> | (a & -> & Ha)];
    [reflexivity | now apply gt_Fin_0].
Qed.

(** Whatever the store answers, [handleAddRound] touches no table but
    that of the rounds, and there it adds at most one row: a round of the
    loaded scenario with the trimmed, non-empty name and the two numbers
    of the form, both above 0. *)
Theorem added_rounds_are_valid (scenarioData : option ScenarioData.t)
    (newRoundName newRoundInvestment newRoundValuation : string) (w : World) :
  let w' := snd (FundingTab.handleAddRound scenarioData newRoundName
                   newRoundInvestment newRoundValuation w) in
  scenarios w' = scenarios w /\ founders w' = founders w /\ esop w' = esop w
  /\ (rounds w' = rounds w
      \/ exists sd,
           let row :=
             Round.mk (rowId (tick w)) (Scenario.id (ScenarioData.scenario sd))
               (JS.trim newRoundName) (JS.parseFloat newRoundInvestment)
               (JS.parseFloat newRoundValuation) in
           scenarioData = Some sd
           /\ JS.trim newRoundName <> ""
           /\ (Round.investment row > JS.num 0)%js = true
           /\ (Round.valuation row > JS.num 0)%js = true
           /\ rounds w' = (rounds w ++ [row])%list).
Proof.
  unfold FundingTab.handleAddRound, FundingTab.newRound.
  destruct scenarioData as [sd|]; [|cbn; auto].
  destruct (String.eqb (Scenario.id (ScenarioData.scenario sd)) "");
    [cbn; auto|].
  destruct (String.eqb_spec (JS.trim newRoundName) "") as [|Hname];
    [cbn; auto|].
  destruct (String.eqb newRoundInvestment ""); [cbn; auto|].
  destruct (String.eqb newRoundValuation ""); [cbn; auto|]. cbn [orb].
  destruct (JS.isNaN (JS.parseFloat newRoundInvestment)
            || JS.isNaN (JS.parseFloat newRoundValuation)
            || (JS.parseFloat newRoundInvestment <= JS.num 0)%js
            || (JS.parseFloat newRoundValuation <= JS.num 0)%js)%bool eqn:G;
    [cbn; auto|].
  apply orb_false_iff in G as [G Gv]. apply orb_false_iff in G as [G Gi].
  apply orb_false_iff in G as [Ni Nv].
  assert (Pi : (JS.parseFloat newRoundInvestment > JS.num 0)%js = true)
    by (apply above_zero; now rewrite Ni, Gi).
  assert (Pv : (JS.parseFloat newRoundValuation > JS.num 0)%js = true)
    by (apply above_zero; now rewrite Nv, Gv).
  unfold SupabaseFunctions.addRound, SupabaseFunctions.reportRow, try_catch,
    bind, insert_row, request, answer, toast, console_error.
  split_head w; cbn; repeat split; auto;
    right; exists sd; cbn; repeat split; auto.
Qed.

(** ** The pool percentage is read back *)

Lemma percentage_guard (p : Qc) :
  (0 <= p)%Qc -> (p <= Q2Qc (inject_Z 100))%Qc ->
  (JS.isNaN (JS.Fin p) || JS.lt (JS.Fin p) (JS.num 0)
   || (JS.Fin p > JS.num 100)%js)%bool = false.
Proof.
  intros H0 H1. unfold JS.lt, JS.gt, JS.num, JS.cmp. simpl.
  change (Q2Qc (inject_Z 0)) with 0%Qc.
  pose proof (proj1 (Qcle_alt _ _) H1) as C1.
  destruct (p ?= 0)%Qc eqn:E0.
  - now destruct (p ?= Q2Qc (inject_Z 100))%Qc.
  - apply Qclt_alt in E0. now apply Qcle_not_lt in H0.
  - now destruct (p ?= Q2Qc (inject_Z 100))%Qc.
Qed.

Lemma filter_updated (id key : string) (u : PartialESOP.t) (l : list ESOP.t) :
  PartialESOP.scenario_id u = None ->
  filter (fun r => String.eqb (ESOP.scenario_id r) id)
    (map (fun r => if String.eqb (ESOP.id r) key
                   then PartialESOP.apply u r else r) l)
  = map (fun r => if String.eqb (ESOP.id r) key
                  then PartialESOP.apply u r else r)
      (filter (fun r => String.eqb (ESOP.scenario_id r) id) l).
Proof.
  intro Hu. rewrite filter_map_swap. f_equal. apply filter_ext. intro r.
  destruct (String.eqb (ESOP.id r) key); [|reflexivity].
  unfold PartialESOP.apply; cbn. now rewrite Hu.
Qed.

(** Without faults, once [handleUpdateEsop] has run on a scenario with
    a non-empty identifier that can be read and has at most one pool, with
    a percentage between 0 and 100 in the field, the next read of the
    scenario has exactly one pool, with that percentage: the pool is
    updated when there is one and created otherwise.  The scenario row is
    as before and so are the founders and the rounds, in whatever
    order. *)
Theorem pool_percentage_is_read_back (w : World) (id : string)
    (sd : ScenarioData.t) (esopPercentage : string) (p : Qc) :
  faults w = [] -> id <> "" ->
  fst (SupabaseFunctions.getScenarioById id w) = Value (Some sd) ->
  (List.length (ScenarioData.esop sd) <= 1)%nat ->
  JS.parseFloat esopPercentage = JS.Fin p ->
  (0 <= p)%Qc -> (p <= Q2Qc (inject_Z 100))%Qc ->
  exists sd1,
    fst (SupabaseFunctions.getScenarioById id
           (snd (FundingTab.handleUpdateEsop (Some sd) esopPercentage w)))
    = Value (Some sd1)
    /\ map ESOP.percentage (ScenarioData.esop sd1) = [JS.Fin p]
    /\ firstEsopOrZero (ScenarioData.esop sd1) = JS.Fin p
    /\ ScenarioData.scenario sd1 = ScenarioData.scenario sd
    /\ Permutation (ScenarioData.founders sd1) (ScenarioData.founders sd)
    /\ Permutation (ScenarioData.rounds sd1) (ScenarioData.rounds sd).
Proof.
  intros Hf Hid H Hone Hp H0 H100.
  rewrite getScenarioById_quiet in H by assumption. injection H as H.
  apply aggregateOf_inv in H as (Hs & Hfo & Hr & He).
  assert (Hsid : Scenario.id (ScenarioData.scenario sd) = id).
  { assert (I : In (ScenarioData.scenario sd)
                  (filter (fun r => String.eqb (Scenario.id r) id) (scenarios w)))
      by (rewrite Hs; now left).
    apply filter_In in I as [_ I]. now apply String.eqb_eq. }
  unfold FundingTab.handleUpdateEsop. rewrite Hsid.
  rewrite (proj2 (String.eqb_neq id "") Hid).
  destruct (String.eqb_spec esopPercentage "") as [E|_];
    [rewrite E in Hp; discriminate Hp|].
  cbn [orb]. rewrite Hp, (percentage_guard p H0 H100).
  assert (Hor : (JS.Fin p || JS.num 0)%js = JS.Fin p) by now apply or_zero_id.
  destruct (ScenarioData.esop sd) as [|first [|second rest]] eqn:Hesop;
    [| |simpl in Hone; lia].
  - unfold SupabaseFunctions.addEsop, SupabaseFunctions.reportRow, try_catch,
      bind, insert_row, request, answer, toast.
    rewrite Hf. cbn.
    rewrite getScenarioById_quiet by exact Hf.
    unfold aggregateOf; cbn. rewrite Hs, filter_app, <- He. cbn.
    rewrite String.eqb_refl. eexists. split; [reflexivity|].
    cbn. rewrite Hor, Hfo, Hr. repeat split; apply Permutation_refl.
  - unfold SupabaseFunctions.updateEsop, SupabaseFunctions.reportSuccess,
      try_catch, bind, update_where, request, answer, toast.
    rewrite Hf. cbn.
    rewrite getScenarioById_quiet by exact Hf.
    unfold aggregateOf; cbn. rewrite Hs, filter_updated by reflexivity.
    rewrite <- He. cbn. rewrite String.eqb_refl.
    eexists. split; [reflexivity|].
    cbn. rewrite Hor, Hfo, Hr. repeat split; apply Permutation_refl.
Qed.

Lemma pool_percentage_is_read_back_stocked :
  exists sd1,
    fst (SupabaseFunctions.getScenarioById "s1"
           (snd (FundingTab.handleUpdateEsop (Some Sample.funded) "12.5"
                   Sample.stocked)))
    = Value (Some sd1)
    /\ map ESOP.percentage (ScenarioData.esop sd1) = [JS.Fin (Q2Qc (25 # 2))].
Proof.
  destruct (pool_percentage_is_read_back Sample.stocked "s1" Sample.funded
              "12.5" (Q2Qc (25 # 2)))
    as (sd1 & H1 & H2 & _).
  - reflexivity.
  - discriminate.
  - reflexivity.
  - simpl. lia.
  - vm_compute. apply Fin_ext. reflexivity.
  - now apply Qcle_alt.
  - now apply Qcle_alt.
  - exists sd1. now split.
Defined.

(** ** The scenario selector *)

Lemma nextScenario_some (scenarios : list Scenario.t)
    (currentScenario : option Scenario.t) (scenarioId id' : string) :
  ScenarioSelector.nextScenario scenarios currentScenario scenarioId = Some id' ->
  id' <> scenarioId
  /\ (exists s, In s scenarios /\ Scenario.id s = id')
  /\ exists c, currentScenario = Some c /\ Scenario.id c = scenarioId.
Proof.
  unfold ScenarioSelector.nextScenario.
  destruct currentScenario as [c|]; [|discriminate].
  destruct (String.eqb_spec (Scenario.id c) scenarioId) as [E|]; [|discriminate].
  destruct (1 <? List.length scenarios)%nat; [|discriminate]. cbn [andb].
  destruct (filter _ scenarios) as [|first rest] eqn:F; [discriminate|].
  intros [= <-].
  assert (I : In first (filter (fun s => negb (String.eqb (Scenario.id s) scenarioId))
                          scenarios)) by (rewrite F; now left).
  apply filter_In in I as [I N]. apply negb_true_iff, String.eqb_neq in N.
  split; [assumption|]. split; [now exists first | now exists c].
Qed.

Lemma nextScenario_found (scenarios : list Scenario.t) (c other : Scenario.t) :
  In other scenarios -> Scenario.id other <> Scenario.id c ->
  In c scenarios ->
  exists id', ScenarioSelector.nextScenario scenarios (Some c) (Scenario.id c)
              = Some id'.
Proof.
  intros Ho Hne Hc. unfold ScenarioSelector.nextScenario.
  rewrite String.eqb_refl.
  assert (L : (1 <? List.length scenarios)%nat = true).
  { apply Nat.ltb_lt.
    destruct scenarios as [|a [|b l]]; simpl in *; try lia.
    destruct Ho as [<- | []], Hc as [<- | []]. now contradiction Hne. }
  rewrite L. cbn [andb].
  destruct (filter _ scenarios) as [|first rest] eqn:F; [|now eexists].
  assert (I : In other (filter (fun s => negb (String.eqb (Scenario.id s)
                                                 (Scenario.id c))) scenarios)).
  { apply filter_In. split; [assumption|].
    now apply negb_true_iff, String.eqb_neq. }
  rewrite F in I. destruct I.
Qed.

Lemma deleteScenario_total (id : string) (w : World) :
  exists b w', SupabaseFunctions.deleteScenario id w = (Value b, w').
Proof. apply guarded_total. Qed.

(** [handleDeleteScenario] does nothing when the dialog is declined, and
    calls back only after a delete that the gateway reported as done.  The
    scenario it then switches to is in the list it was given and is never
    the deleted one; it switches whenever the deleted scenario was the
    current one and the list holds a scenario with another identifier. *)
Theorem selector_switches_after_delete (scenarios : list Scenario.t)
    (currentScenario : option Scenario.t) (confirmed : bool)
    (scenarioId : string) (w : World) :
  exists cb w',
    ScenarioSelector.handleDeleteScenario scenarios currentScenario confirmed
      scenarioId w = (Value cb, w')
    /\ (confirmed = false -> cb = ScenarioSelector.none /\ w' = w)
    /\ (ScenarioSelector.scenariosUpdate cb = true ->
        confirmed = true
        /\ fst (SupabaseFunctions.deleteScenario scenarioId w) = Value true)
    /\ (fst (SupabaseFunctions.deleteScenario scenarioId w) = Value true ->
        confirmed = true ->
        ScenarioSelector.scenariosUpdate cb = true
        /\ ScenarioSelector.scenarioChange cb
           = ScenarioSelector.nextScenario scenarios currentScenario scenarioId)
    /\ (forall id', ScenarioSelector.scenarioChange cb = Some id' ->
          ScenarioSelector.scenariosUpdate cb = true
          /\ id' <> scenarioId
          /\ exists s, In s scenarios /\ Scenario.id s = id')
    /\ (forall c other,
          ScenarioSelector.scenariosUpdate cb = true ->
          currentScenario = Some c -> Scenario.id c = scenarioId ->
          In c scenarios -> In other scenarios ->
          Scenario.id other <> scenarioId ->
          exists id', ScenarioSelector.scenarioChange cb = Some id').
Proof.
  unfold ScenarioSelector.handleDeleteScenario.
  destruct confirmed.
  - unfold bind.
    destruct (deleteScenario_total scenarioId w) as (b & w1 & E). rewrite E.
    destruct b; cbn; eexists; eexists; (split; [reflexivity|]); cbn.
    + split; [discriminate|]. split; [auto|]. split; [auto|]. split.
      * intros id' H. split; [reflexivity|].
        apply nextScenario_some in H as (H1 & H2 & _). now split.
      * intros c other _ -> <- Hc Ho Hne. now apply nextScenario_found with other.
    + split; [discriminate|]. split; [discriminate|].
      split; [discriminate|]. split; [discriminate|]. discriminate.
  - exists ScenarioSelector.none, w. cbn.
    split; [reflexivity|]. split; [auto|]. split; [discriminate|].
    split; [discriminate|]. split; discriminate.
Qed.




(** ** Answers that arrive late *)

Lemma getScenarioById_still (id : string) (w : World) (sd : ScenarioData.t) :
  faults w = [] ->
  fst (SupabaseFunctions.getScenarioById id w) = Value (Some sd) ->
  SupabaseFunctions.getScenarioById id w = (Value (Some sd), w).
Proof.
  intros Hf H. rewrite getScenarioById_quiet in H by exact Hf.
  injection H as H. revert H.
  destruct w as [ss fs rs es t u fl n c ts]. cbn in Hf. subst fl.
  unfold SupabaseFunctions.getScenarioById, try_catch, bind, both,
    select_single, select_where, request, answer, aggregateOf.
  cbn.
  destruct (filter _ ss) as [|row [|? ?]]; try discriminate.
  intros [= <-]. reflexivity.
Qed.

Lemma getScenarioById_keyed (id : string) (w : World) (sd : ScenarioData.t) :
  faults w = [] ->
  fst (SupabaseFunctions.getScenarioById id w) = Value (Some sd) ->
  Scenario.id (ScenarioData.scenario sd) = id.
Proof.
  intros Hf H. rewrite getScenarioById_quiet in H by exact Hf.
  injection H as H. apply aggregateOf_inv in H as (Hs & _).
  assert (I : In (ScenarioData.scenario sd)
                (filter (fun r => String.eqb (Scenario.id r) id) (scenarios w)))
    by (rewrite Hs; now left).
  apply filter_In in I as [_ I]. now apply String.eqb_eq.
Qed.

Lemma run_step (e : Event) (events : list Event) (r r' : Running)
    (w w' : World) :
  step e r w = (Value r', w') -> run (e :: events) r w = run events r' w'.
Proof. intro H. simpl. now rewrite H. Qed.

Lemma step_ScenarioChange (id : string) (st : Dashboard.State)
    (calls : list Dashboard.Call) (w : World) (x : Scenario.t) :
  find (fun s => String.eqb (Scenario.id s) id) (Dashboard.scenarios st)
  = Some x ->
  step (ScenarioChange id) (st, calls) w
  = (Value (Dashboard.mkState (Dashboard.scenarios st) (Some x)
              (Dashboard.scenarioData st) (Dashboard.activeTab st)
              (Dashboard.loading st),
            (calls ++ [Dashboard.LoadScenarioData id])%list), w).
Proof.
  intro H. unfold step, Dashboard.handleScenarioChange. now rewrite H.
Qed.

Lemma step_CurrentScenarioEffect (st : Dashboard.State)
    (calls : list Dashboard.Call) (w : World) (c : Scenario.t) :
  Dashboard.currentScenario st = Some c ->
  step CurrentScenarioEffect (st, calls) w
  = (Value (st, (calls ++ [Dashboard.LoadScenarioData (Scenario.id c)])%list),
     w).
Proof.
  intro H. unfold step, Dashboard.currentScenarioEffect. now rewrite H.
Qed.

Lemma step_Answer (k : nat) (st : Dashboard.State)
    (calls : list Dashboard.Call) (w w' : World) (id : string)
    (data : option ScenarioData.t) :
  nth_error calls k = Some (Dashboard.LoadScenarioData id) ->
  SupabaseFunctions.getScenarioById id w = (Value data, w') ->
  step (Answer k) (st, calls) w
  = (Value (Dashboard.mkState (Dashboard.scenarios st)
              (Dashboard.currentScenario st) data (Dashboard.activeTab st)
              (Dashboard.loading st),
            without k calls), w').
Proof.
  intros Hk H. unfold step. rewrite Hk.
  unfold Dashboard.answered, bind. now rewrite H.
Qed.

(** The dashboard can end up showing the data of a scenario that is not
    the selected one.  [handleScenarioChange] starts [loadScenarioData]
    without waiting for it, the effect on [currentScenario] starts it
    once more, and what arrives is stored without a look at the current
    selection.  The user picks [a], which is not the scenario shown, and
    then [b], so that the selection changes twice and the effect runs
    after each pick.  When the two calls for [b] are answered before the
    two for [a], no call is left in flight, [b] is selected and the data
    shown is that of [a]. *)
Theorem late_answer_shows_other_scenario (st : Dashboard.State) (w : World)
    (a b : Scenario.t) (sda sdb : ScenarioData.t) :
  find (fun s => String.eqb (Scenario.id s) (Scenario.id a))
    (Dashboard.scenarios st) = Some a ->
  find (fun s => String.eqb (Scenario.id s) (Scenario.id b))
    (Dashboard.scenarios st) = Some b ->
  Scenario.id a <> Scenario.id b ->
  (forall c, Dashboard.currentScenario st = Some c ->
             Scenario.id c <> Scenario.id a) ->
  faults w = [] ->
  fst (SupabaseFunctions.getScenarioById (Scenario.id a) w) = Value (Some sda) ->
  fst (SupabaseFunctions.getScenarioById (Scenario.id b) w) = Value (Some sdb) ->
  run [ScenarioChange (Scenario.id a); CurrentScenarioEffect;
       ScenarioChange (Scenario.id b); CurrentScenarioEffect;
       Answer 2; Answer 2; Answer 0; Answer 0] (st, []) w
  = (Dashboard.mkState (Dashboard.scenarios st) (Some b) (Some sda)
       (Dashboard.activeTab st) (Dashboard.loading st), [], w)
  /\ Scenario.id (ScenarioData.scenario sda) <> Scenario.id b.
Proof.
  intros Ha Hb Hab _ Hf Ra Rb.
  pose proof (getScenarioById_still _ _ _ Hf Ra) as Sa.
  pose proof (getScenarioById_still _ _ _ Hf Rb) as Sb.
  split.
  - erewrite run_step by (apply step_ScenarioChange; exact Ha).
    erewrite run_step by (apply step_CurrentScenarioEffect; reflexivity).
    erewrite run_step by (apply step_ScenarioChange; exact Hb).
    erewrite run_step by (apply step_CurrentScenarioEffect; reflexivity).
    cbn [app Dashboard.scenarios Dashboard.currentScenario
         Dashboard.scenarioData Dashboard.activeTab Dashboard.loading].
    erewrite run_step by (eapply step_Answer; [reflexivity | exact Sb]).
    erewrite run_step by (eapply step_Answer; [reflexivity | exact Sb]).
    erewrite run_step by (eapply step_Answer; [reflexivity | exact Sa]).
    erewrite run_step by (eapply step_Answer; [reflexivity | exact Sa]).
    reflexivity.
  - rewrite (getScenarioById_keyed _ _ _ Hf Ra). exact Hab.
Qed.

Lemma late_answer_shows_other_scenario_twofold :
  run [ScenarioChange "s1"; CurrentScenarioEffect;
       ScenarioChange "s2"; CurrentScenarioEffect;
       Answer 2; Answer 2; Answer 0; Answer 0] (Sample.idle, []) Sample.twofold
  = (Dashboard.mkState [Sample.acme; Sample.beta] (Some Sample.beta)
       (Some Sample.funded) "setup" false, [], Sample.twofold).
Proof.
  apply (proj1 (late_answer_shows_other_scenario Sample.idle Sample.twofold
                  Sample.acme Sample.beta Sample.funded
                  (ScenarioData.mk Sample.beta [] [] [])
                  eq_refl eq_refl ltac:(discriminate) ltac:(discriminate)
                  eq_refl eq_refl eq_refl)).
Defined.

(** ** A failed read of the list *)

(** A failed read of the list of scenarios makes the dashboard create a
    scenario.  [getScenarios] reports the failure as an empty list,
    [loadScenarios] stores it like the list of a user who has no
    scenario, and the effect on [loading] and [scenarios.length] then
    sends the default request.  Whatever the store holds, when the read
    started on mounting fails and the store answers again afterwards,
    the store ends with the scenario "My First Scenario" and its two
    founders added, and the dashboard shows that scenario as the only
    one. *)
Theorem failed_list_read_creates_default_scenario (w : World) (f : Fault) :
  faults w = [f] -> isFault f = true ->
  let row := newScenario w "My First Scenario" in
  exists st w' sd,
    run [UserEffect; CurrentScenarioEffect; DefaultScenarioEffect; Answer 0;
         DefaultScenarioEffect; Answer 0] (Dashboard.initial, []) w
    = (st, [], w')
    /\ scenarios w' = (scenarios w ++ [row])%list
    /\ List.length (founders w') = (List.length (founders w) + 2)%nat
    /\ Dashboard.scenarios st = [row]
    /\ Dashboard.currentScenario st = Some row
    /\ Dashboard.scenarioData st = Some sd
    /\ ScenarioData.scenario sd = row.
Proof.
  intros Hf Hfault row.
  unfold run, step, Dashboard.userEffect, Dashboard.currentScenarioEffect,
    Dashboard.createDefaultScenario, Dashboard.loadScenarios,
    Dashboard.answered, SupabaseFunctions.getScenarios,
    SupabaseFunctions.createScenario, SupabaseFunctions.scenarios_insert,
    insert_rows, try_catch, bind, ret, request, answer, orThrow, throw,
    console_error.
  destruct f; [discriminate Hfault| |];
    repeat (cbn -[rowId stamp]; rewrite ?Hf);
    do 3 eexists; (split; [reflexivity|]);
    cbn -[rowId stamp]; repeat split; now rewrite List.length_app.
Qed.

Lemma failed_list_read_creates_default_scenario_stocked :
  exists st w',
    run [UserEffect; CurrentScenarioEffect; DefaultScenarioEffect; Answer 0;
         DefaultScenarioEffect; Answer 0] (Dashboard.initial, [])
      (with_faults [ErrorReply "timeout"] Sample.stocked)
    = (st, [], w')
    /\ map Scenario.name (scenarios w') = ["Acme"; "My First Scenario"]
    /\ map Scenario.name (Dashboard.scenarios st) = ["My First Scenario"].
Proof.
  destruct (failed_list_read_creates_default_scenario
              (with_faults [ErrorReply "timeout"] Sample.stocked)
              (ErrorReply "timeout") eq_refl eq_refl)
    as (st & w' & sd & E & Hs & _ & Hd & _).
  exists st, w'. split; [exact E|]. rewrite Hs, Hd. split; reflexivity.
Defined.

(** ** Printed amounts *)

Lemma toFixed_nonNegative (h : JS.Host) (x : Qc) (f : nat) :
  (0 <= x)%Qc -> (x < Q2Qc (inject_Z (10 ^ 21)))%Qc ->
  JS.toFixed h (JS.Fin x) f = JS.fixedNotation x f.
Proof.
  intros H0 H21. unfold JS.toFixed.
  assert (E : JS.sgn x <> Lt).
  { unfold JS.sgn. intro E. apply Qclt_alt in E.
    now apply (Qcle_not_lt _ _ H0). }
  remember (Q2Qc (inject_Z (10 ^ 21))) as limit eqn:Hl. clear Hl.
  pose proof (proj1 (Qclt_alt _ _) H21) as C.
  destruct (JS.sgn x); [| contradiction |]; rewrite C; reflexivity.
Qed.

Lemma roundHalfUp_between (x : Qc) (f : nat) (z : Z) :
  (inject_Z z <= this x * inject_Z (10 ^ Z.of_nat f) + (1 # 2))%Q ->
  (this x * inject_Z (10 ^ Z.of_nat f) + (1 # 2) < inject_Z (z + 1))%Q ->
  JS.roundHalfUp x f = z.
Proof.
  intros Hlo Hhi. unfold JS.roundHalfUp.
  set (y := (this x * inject_Z (10 ^ Z.of_nat f) + (1 # 2))%Q) in *.
  assert (L : (z <= Qfloor y)%Z).
  { rewrite <- (Qfloor_Z z). now apply Qfloor_resp_le. }
  assert (U : (Qfloor y < z + 1)%Z).
  { rewrite Zlt_Qlt. eapply Qle_lt_trans; [apply Qfloor_le | exact Hhi]. }
  lia.
Qed.

Lemma thousands_rounded (a : Qc) (lo : Z) (f : nat) (z : Z) :
  (Q2Qc (inject_Z lo) <= a)%Qc -> (a < Q2Qc (inject_Z 1000000))%Qc ->
  (inject_Z z <= inject_Z lo / 1000 * inject_Z (10 ^ Z.of_nat f) + (1 # 2))%Q ->
  (1000 * inject_Z (10 ^ Z.of_nat f) + (1 # 2) < inject_Z (z + 1))%Q ->
  (0 <= lo)%Z ->
  JS.roundHalfUp (a / Q2Qc (inject_Z 1000)) f = z.
Proof.
  intros Hlo Hhi Hz Hz' Hpos.
  assert (P : (0 < inject_Z (10 ^ Z.of_nat f))%Q).
  { change 0%Q with (inject_Z 0). rewrite <- Zlt_Qlt. apply Z.pow_pos_nonneg; lia. }
  remember (inject_Z (10 ^ Z.of_nat f)) as k eqn:Hk.
  apply roundHalfUp_between; rewrite <- Hk.
  - clear Hhi Hz'. qc2q. unfold Qdiv in *.
    setoid_replace (/ (1000 # 1))%Q with (1 # 1000)%Q by reflexivity.
    setoid_replace (/ 1000)%Q with (1 # 1000)%Q in Hz by reflexivity.
    nra.
  - clear Hlo Hz. qc2q.
    setoid_replace (/ (1000 # 1))%Q with (1 # 1000)%Q by reflexivity.
    nra.
Qed.

Lemma thousands_printed (h : JS.Host) (a : Qc) (lo : Z) (f : nat) (z : Z) :
  (Q2Qc (inject_Z lo) <= a)%Qc -> (a < Q2Qc (inject_Z 1000000))%Qc ->
  (inject_Z z <= inject_Z lo / 1000 * inject_Z (10 ^ Z.of_nat f) + (1 # 2))%Q ->
  (1000 * inject_Z (10 ^ Z.of_nat f) + (1 # 2) < inject_Z (z + 1))%Q ->
  (0 <= lo)%Z ->
  JS.toFixed h (JS.Fin a / JS.num 1000)%js f
  = JS.fixedNotation (a / Q2Qc (inject_Z 1000)) f
  /\ JS.roundHalfUp (a / Q2Qc (inject_Z 1000)) f = z.
Proof.
  intros Hlo Hhi Hz Hz' Hpos. split.
  - unfold JS.num. rewrite div_Fin
      by (intro H; apply (f_equal this) in H; discriminate H).
    apply toFixed_nonNegative.
    + unfold Qcdiv.
      replace 0%Qc with (0 * / Q2Qc (inject_Z 1000))%Qc by ring.
      apply Qcmult_le_compat_r; [| now apply Qcle_alt].
      eapply Qcle_trans; [| exact Hlo].
      unfold Qcle. cbn [this Q2Qc]. rewrite !Qred_correct.
      change (inject_Z 0 <= inject_Z lo)%Q. now rewrite <- Zle_Qle.
    + unfold Qcdiv. eapply Qclt_trans.
      * apply Qcmult_lt_compat_r; [| exact Hhi]. now apply Qclt_alt.
      * now apply Qclt_alt.
  - now apply (thousands_rounded a lo).
Qed.

(** Rounding is applied after the unit has been chosen: an amount below
    one million that rounds up to 1000 thousands is printed as 1000
    thousands, not as one million.  On the exit and analysis tabs that is
    every amount from 999995 on, on the funding tab and the metrics cards
    every amount from 999950 on. *)
Theorem amounts_below_a_million_print_1000K (h : JS.Host) (a : Qc) :
  (a < Q2Qc (inject_Z 1000000))%Qc ->
  ((Q2Qc (inject_Z 999995) <= a)%Qc ->
   ExitTab.formatCurrency h (JS.Fin a) = "$1000.00K"
   /\ AnalysisTab.formatCurrency h (JS.Fin a) = "$1000.00K")
  /\ ((Q2Qc (inject_Z 999950) <= a)%Qc ->
      FundingTab.formatCurrency h (JS.Fin a) = "$1000.0K"
      /\ MetricsCards.formatCurrency h (JS.Fin a) = "$1000.0K").
Proof.
  intros Hhi.
  pose proof (lt_Fin a 1000000 Hhi) as L6.
  pose proof (lt_not_ge _ _ L6) as N6.
  pose proof (lt_not_ge _ _ (lt_widen _ 1000000 1000000000 ltac:(lia) L6)) as N9.
  split; intros Hlo.
  - assert (G : (JS.Fin a >= JS.num 1000)%js = true).
    { apply ge_Fin. eapply Qcle_trans; [| exact Hlo]. now apply Qcle_alt. }
    destruct (thousands_printed h a 999995 2 100000 Hlo Hhi) as [E R];
      [vm_compute; discriminate | reflexivity | lia |].
    unfold ExitTab.formatCurrency, AnalysisTab.formatCurrency.
    rewrite N9, N6, G, E. unfold JS.fixedNotation. rewrite R.
    split; reflexivity.
  - assert (G : (JS.Fin a >= JS.num 1000)%js = true).
    { apply ge_Fin. eapply Qcle_trans; [| exact Hlo]. now apply Qcle_alt. }
    destruct (thousands_printed h a 999950 1 10000 Hlo Hhi) as [E R];
      [vm_compute; discriminate | reflexivity | lia |].
    unfold FundingTab.formatCurrency, MetricsCards.formatCurrency.
    rewrite N6, G, E. unfold JS.fixedNotation. rewrite R.
    split; reflexivity.
Qed.

Lemma amounts_below_a_million_print_1000K_sample :
  ExitTab.formatCurrency Sample.mute (JS.num 999997) = "$1000.00K"
  /\ MetricsCards.formatCurrency Sample.mute (JS.num 999997) = "$1000.0K".
Proof.
  assert (Hhi : (Q2Qc (inject_Z 999997) < Q2Qc (inject_Z 1000000))%Qc)
    by (vm_compute; reflexivity).
  assert (H2 : (Q2Qc (inject_Z 999995) <= Q2Qc (inject_Z 999997))%Qc)
    by (vm_compute; discriminate).
  assert (H1 : (Q2Qc (inject_Z 999950) <= Q2Qc (inject_Z 999997))%Qc)
    by (vm_compute; discriminate).
  pose proof (amounts_below_a_million_print_1000K Sample.mute _ Hhi) as [A B].
  split.
  - exact (proj1 (A H2)).
  - exact (proj2 (B H1)).
Defined.

Lemma allDigits_app (s1 s2 : string) :
  allDigits (s1 ++ s2) = (allDigits s1 && allDigits s2)%bool.
Proof.
  induction s1 as [|c s1 IH]; simpl; [reflexivity|].
  now rewrite IH, andb_assoc.
Qed.

Lemma allDigits_zeros (n : nat) : allDigits (JS.zeros n) = true.
Proof. induction n as [|n IH]; simpl; [reflexivity | exact IH]. Qed.

Lemma allDigits_takeS (n : nat) (s : string) :
  allDigits s = true -> allDigits (JS.takeS n s) = true.
Proof.
  revert s. induction n as [|n IH]; intros [|c s]; simpl; try reflexivity.
  intro H. apply andb_true_iff in H as [Hc Hs]. now rewrite Hc, IH.
Qed.

Lemma allDigits_dropS (n : nat) (s : string) :
  allDigits s = true -> allDigits (JS.dropS n s) = true.
Proof.
  revert s. induction n as [|n IH]; intros [|c s]; simpl; try easy.
  intro H. apply andb_true_iff in H as [_ Hs]. now apply IH.
Qed.

Lemma allDigits_digits (n : Z) : allDigits (JS.digits n) = true.
Proof.
  unfold JS.digits.
  assert (H : forall d, allDigits (NilEmpty.string_of_uint d) = true)
    by (induction d; simpl; auto).
  destruct (N.to_uint (Z.to_N n)); try apply H. reflexivity.
Qed.

Lemma fixedNotation_digits (x : Qc) (f : nat) :
  (0 < f)%nat ->
  exists i d,
    JS.fixedNotation x f = i ++ "." ++ d
    /\ i <> "" /\ allDigits i = true
    /\ String.length d = f /\ allDigits d = true.
Proof.
  intro Hf. destruct f as [|f]; [lia|].
  unfold JS.fixedNotation.
  set (m := JS.digits (JS.roundHalfUp x (S f))).
  set (p := if (String.length m <=? S f)%nat
            then JS.zeros (S f + 1 - String.length m) ++ m else m).
  assert (Hm : allDigits m = true) by apply allDigits_digits.
  assert (Hp : allDigits p = true).
  { unfold p. destruct (String.length m <=? S f)%nat; [|exact Hm].
    now rewrite allDigits_app, allDigits_zeros, Hm. }
  assert (Hl : (S f < String.length p)%nat).
  { unfold p. destruct (Nat.leb_spec (String.length m) (S f)).
    - rewrite length_app, length_zeros. lia.
    - lia. }
  exists (JS.takeS (String.length p - S f) p),
         (JS.dropS (String.length p - S f) p).
  split; [reflexivity|]. split; [|split; [|split]].
  - destruct p as [|c p']; [simpl in Hl; lia|].
    destruct (String.length (String c p') - S f)%nat eqn:E; [lia|].
    discriminate.
  - now apply allDigits_takeS.
  - rewrite length_dropS. lia.
  - now apply allDigits_dropS.
Qed.

(** On the exit tab every finite amount from 1000 up to, but not
    including, 1,000,000 is printed as a dollar sign, one or more decimal
    digits, a point, exactly two decimal digits and the letter K. *)
Theorem exit_thousands_are_digits (h : JS.Host) (a : Qc) :
  (Q2Qc (inject_Z 1000) <= a)%Qc -> (a < Q2Qc (inject_Z 1000000))%Qc ->
  exists i d,
    ExitTab.formatCurrency h (JS.Fin a) = "$" ++ i ++ "." ++ d ++ "K"
    /\ i <> "" /\ allDigits i = true
    /\ String.length d = 2%nat /\ allDigits d = true.
Proof.
  intros Hlo Hhi.
  pose proof (lt_Fin a 1000000 Hhi) as L6.
  unfold ExitTab.formatCurrency.
  rewrite (lt_not_ge _ _ (lt_widen _ 1000000 1000000000 ltac:(lia) L6)).
  rewrite (lt_not_ge _ _ L6), (ge_Fin a 1000 Hlo).
  unfold JS.num at 1. rewrite div_Fin
    by (intro H; apply (f_equal this) in H; discriminate H).
  rewrite toFixed_nonNegative.
  - destruct (fixedNotation_digits (a / Q2Qc (inject_Z 1000)) 2)
      as (i & d & E & Hi & Di & Hd & Dd); [lia|].
    exists i, d. split; [|now repeat split]. rewrite E.
    clear. induction i as [|c i IH]; simpl in *; [reflexivity|].
    injection IH as IH. now rewrite IH.
  - unfold Qcdiv.
    replace 0%Qc with (0 * / Q2Qc (inject_Z 1000))%Qc by ring.
    apply Qcmult_le_compat_r.
    + eapply Qcle_trans; [|exact Hlo]. now apply Qcle_alt.
    + now apply Qcle_alt.
  - unfold Qcdiv.
    eapply Qclt_trans.
    + apply Qcmult_lt_compat_r; [|exact Hhi]. now apply Qclt_alt.
    + now apply Qclt_alt.
Qed.

Lemma exit_thousands_are_digits_sample :
  exists i d,
    ExitTab.formatCurrency Sample.mute (JS.Fin (Q2Qc (inject_Z 1500)))
    = "$" ++ i ++ "." ++ d ++ "K"
    /\ i <> "" /\ allDigits i = true
    /\ String.length d = 2%nat /\ allDigits d = true.
Proof.
  apply exit_thousands_are_digits.
  - vm_compute. discriminate.
  - vm_compute. reflexivity.
Defined.

(** ** The forms never store [NaN] *)

Lemma forallb_update {A : Type} (ok p : A -> bool) (f : A -> A) (l : list A) :
  (forall r, ok r = true -> ok (f r) = true) ->
  forallb ok l = true ->
  forallb ok (map (fun r => if p r then f r else r) l) = true.
Proof.
  intros Hf. induction l as [|x l IH]; simpl; [reflexivity|].
  intros H. apply andb_true_iff in H as [Hx Hl].
  rewrite (IH Hl), andb_true_r. destruct (p x); auto.
Qed.

Lemma forallb_kept {A : Type} (ok p : A -> bool) (l : list A) :
  forallb ok l = true -> forallb ok (filter p l) = true.
Proof.
  induction l as [|x l IH]; simpl; [reflexivity|].
  intros H. apply andb_true_iff in H as [Hx Hl].
  destruct (p x); simpl; [rewrite Hx|]; auto.
Qed.

Lemma or_zero_defined (x : JS.number) : JS.isNaN (x || JS.num 0)%js = false.
Proof.
  destruct x as [q| | |]; try reflexivity.
  unfold JS.or_else, JS.truthy. destruct (JS.isZero q); reflexivity.
Qed.

Ltac defined_tables Hf Hr He :=
  unfold numbersDefined; cbn;
  rewrite ?forallb_app; cbn;
  rewrite ?Hf, ?Hr, ?He; cbn;
  try reflexivity.

Lemma handle_defined (e : FormEvent) (w : World) :
  numbersDefined w = true -> numbersDefined (snd (handle e w)) = true.
Proof.
  intros H. pose proof H as H0. unfold numbersDefined in H0.
  apply andb_true_iff in H0 as [H0 He].
  apply andb_true_iff in H0 as [Hf Hr].
  destruct e; unfold handle.
  - (* RenameScenario *)
    unfold SetupTab.handleUpdateScenarioName.
    destruct scenarioData as [sd|]; [|exact H].
    match goal with |- context [if ?c then _ else _] => destruct c end;
      [exact H|].
    unfold SupabaseFunctions.updateScenario, SupabaseFunctions.reportSuccess,
      try_catch, bind, update_where, request, answer, toast, console_error.
    split_head w; defined_tables Hf Hr He.
  - (* AddFounder *)
    unfold SetupTab.handleAddFounder.
    destruct scenarioData as [sd|]; [|exact H].
    match goal with |- context [if ?c then _ else _] => destruct c end;
      [exact H|].
    destruct (JS.isNaN (JS.parseFloat newFounderEquity)
              || (JS.parseFloat newFounderEquity <= JS.num 0)%js
              || (JS.parseFloat newFounderEquity > JS.num 100)%js)%bool eqn:G;
      [exact H|].
    apply equity_guard in G as (q & -> & _).
    unfold SupabaseFunctions.addFounder, SupabaseFunctions.reportRow, try_catch,
      bind, insert_row, request, answer, toast, console_error.
    split_head w; defined_tables Hf Hr He.
  - (* EditFounderName *)
    unfold SetupTab.handleUpdateFounder, SupabaseFunctions.updateFounder,
      SupabaseFunctions.reportSuccess, try_catch, bind, update_where, request,
      answer, toast, console_error.
    split_head w; defined_tables Hf Hr He.
    all: rewrite forallb_update; [reflexivity | | exact Hf].
    all: intros [] Hr0; exact Hr0.
  - (* EditFounderEquity *)
    unfold SetupTab.handleUpdateFounder, SupabaseFunctions.updateFounder,
      SupabaseFunctions.reportSuccess, try_catch, bind, update_where, request,
      answer, toast, console_error.
    split_head w; defined_tables Hf Hr He.
    all: rewrite forallb_update; [reflexivity | | exact Hf].
    all: intros r _; unfold definedFounder; cbn; now rewrite or_zero_defined.
  - (* DeleteFounder *)
    unfold SetupTab.handleDeleteFounder. destruct confirmed; [|exact H].
    unfold SupabaseFunctions.deleteFounder,
      SupabaseFunctions.reportSuccess, try_catch, bind, delete_where, request,
      answer, toast, console_error.
    split_head w; defined_tables Hf Hr He.
    all: now rewrite forallb_kept.
  - (* AddRound *)
    unfold FundingTab.handleAddRound.
    destruct scenarioData as [sd|]; [|exact H].
    match goal with |- context [if ?c then _ else _] => destruct c end;
      [exact H|].
    destruct (FundingTab.newRound newRoundName newRoundInvestment
                newRoundValuation) as [x|] eqn:N; [|exact H].
    unfold FundingTab.newRound in N.
    match type of N with context [if ?c then _ else _] => destruct c end;
      [discriminate N|].
    destruct (JS.isNaN (JS.parseFloat newRoundInvestment)
              || JS.isNaN (JS.parseFloat newRoundValuation)
              || (JS.parseFloat newRoundInvestment <= JS.num 0)%js
              || (JS.parseFloat newRoundValuation <= JS.num 0)%js)%bool eqn:G;
      [discriminate N|].
    injection N as <-.
    apply orb_false_iff in G as [G _]. apply orb_false_iff in G as [G _].
    apply orb_false_iff in G as [Ni Nv].
    unfold SupabaseFunctions.addRound, SupabaseFunctions.reportRow, try_catch,
      bind, insert_row, request, answer, toast, console_error.
    split_head w; defined_tables Hf Hr He.
    all: unfold definedRound; cbn; now rewrite Ni, Nv.
  - (* EditRoundName *)
    unfold FundingTab.handleUpdateRound, SupabaseFunctions.updateRound,
      SupabaseFunctions.reportSuccess, try_catch, bind, update_where, request,
      answer, toast, console_error.
    split_head w; defined_tables Hf Hr He.
    all: rewrite forallb_update; [reflexivity | | exact Hr].
    all: intros [] Hr0; exact Hr0.
  - (* EditRoundInvestment *)
    unfold FundingTab.handleUpdateRound, SupabaseFunctions.updateRound,
      SupabaseFunctions.reportSuccess, try_catch, bind, update_where, request,
      answer, toast, console_error.
    split_head w; defined_tables Hf Hr He.
    all: rewrite forallb_update; [reflexivity | | exact Hr].
    all: intros r Hr0; unfold definedRound in *; cbn; rewrite or_zero_defined;
      apply andb_true_iff in Hr0 as [_ ->]; reflexivity.
  - (* EditRoundValuation *)
    unfold FundingTab.handleUpdateRound, SupabaseFunctions.updateRound,
      SupabaseFunctions.reportSuccess, try_catch, bind, update_where, request,
      answer, toast, console_error.
    split_head w; defined_tables Hf Hr He.
    all: rewrite forallb_update; [reflexivity | | exact Hr].
    all: intros r Hr0; unfold definedRound in *; cbn; rewrite or_zero_defined;
      apply andb_true_iff in Hr0 as [-> _]; reflexivity.
  - (* DeleteRound *)
    unfold FundingTab.handleDeleteRound. destruct confirmed; [|exact H].
    unfold SupabaseFunctions.deleteRound,
      SupabaseFunctions.reportSuccess, try_catch, bind, delete_where, request,
      answer, toast, console_error.
    split_head w; defined_tables Hf Hr He.
    all: now rewrite forallb_kept.
  - (* UpdateEsop *)
    unfold FundingTab.handleUpdateEsop.
    destruct scenarioData as [sd|]; [|exact H].
    match goal with |- context [if ?c then _ else _] => destruct c end;
      [exact H|].
    destruct (JS.isNaN (JS.parseFloat esopPercentage)) eqn:N; [exact H|].
    match goal with |- context [if ?c then _ else _] => destruct c end;
      [exact H|].
    destruct (ScenarioData.esop sd) as [|first rest];
      unfold SupabaseFunctions.addEsop, SupabaseFunctions.reportRow,
        SupabaseFunctions.updateEsop, SupabaseFunctions.reportSuccess,
        try_catch, bind, insert_row, update_where, request, answer, toast,
        console_error;
      split_head w; defined_tables Hf Hr He.
    all: try (unfold definedEsop; cbn; now rewrite N).
    all: rewrite forallb_update; [reflexivity | | exact He].
    all: intros r _; unfold definedEsop; cbn; now rewrite N.
  - (* CreateScenario *)
    unfold ScenarioSelector.handleCreateScenario.
    destruct (String.eqb (JS.trim newScenarioName) ""); [exact H|].
    unfold SupabaseFunctions.createScenario, try_catch, bind,
      SupabaseFunctions.scenarios_insert, insert_rows, request, answer, toast,
      console_error.
    destruct (faults w) as [|[|?|?] [|[|?|?] ?]] eqn:E;
      repeat (cbn -[rowId stamp]; rewrite ?E);
      defined_tables Hf Hr He.
  - (* DeleteScenario *)
    unfold ScenarioSelector.handleDeleteScenario.
    destruct confirmed; [|exact H].
    unfold SupabaseFunctions.deleteScenario, try_catch, bind, both,
      delete_where, request, answer, orThrow, toast, console_error.
    split_plan w E;
      repeat (cbn; rewrite ?faults_failed, ?E);
      defined_tables Hf Hr He;
      rewrite ?forallb_kept by assumption; reflexivity.
Qed.

(** No sequence of form events stores [NaN]: the forms that add rows
    refuse what does not parse, and the fields that edit a number fall
    back on 0. *)
Theorem forms_never_store_NaN (events : list FormEvent) (w : World) :
  numbersDefined w = true -> numbersDefined (handleAll events w) = true.
Proof.
  revert w. induction events as [|e events IH]; intros w H; [exact H|].
  cbn. apply IH. now apply handle_defined.
Qed.

Lemma forms_never_store_NaN_stocked :
  numbersDefined
    (handleAll [EditRoundValuation Sample.seed "abc";
                AddFounder (Some Sample.funded) "Carol" "NaN";
                UpdateEsop (Some Sample.funded) "12.5"] Sample.stocked) = true.
Proof.
  apply forms_never_store_NaN. reflexivity.
Defined.
